(** * Conversational food-assistance intake: the chat step machine,
      its field extractors and the fulfillment dispatch

    Shallow embedding of [backend/routers/ai.py] (extractors, storage
    helper, chat handler), [backend/main.py] (endpoint wrapper),
    [backend/fulfillment.py] (notification),
    [backend/supabase_client.py] (storage client) and
    [backend/langgraph_workflow.py] (graph variant).

    Text is modelled as Rocq strings whose characters are read as the
    code points U+0000..U+00FF; the character classes below are Python's
    on that range. *)

From Stdlib Require Import ZArith NArith Ascii String List Bool Lia.
From stdpp Require Import base option list strings gmap pretty.
Import ListNotations.
Local Open Scope string_scope.

(** ** Characters and the string methods the code calls *)

Module Py.

Definition code (c : ascii) : N := N_of_ascii c.

Definition in_range (lo hi : N) (c : ascii) : bool :=
  ((lo <=? code c) && (code c <=? hi))%N.

(** [str.isspace] on one character; also the class [\s] of [re]. *)
Definition isspace (c : ascii) : bool :=
  in_range 9 13 c || in_range 28 31 c || in_range 32 32 c
  || in_range 133 133 c || in_range 160 160 c.

(** The class [\d] of [re]: decimal digits. *)
Definition isdecimal (c : ascii) : bool := in_range 48 57 c.

Definition is_ascii_upper (c : ascii) : bool := in_range 65 90 c.
Definition is_ascii_lower (c : ascii) : bool := in_range 97 122 c.

(** [str.isalpha] on one character. *)
Definition isalpha_char (c : ascii) : bool :=
  is_ascii_upper c || is_ascii_lower c
  || in_range 170 170 c || in_range 181 181 c || in_range 186 186 c
  || in_range 192 214 c || in_range 216 246 c || in_range 248 255 c.

(** [str.isalnum] on one character; superscript digits and vulgar
    fractions count as numeric. *)
Definition isalnum_char (c : ascii) : bool :=
  isalpha_char c || isdecimal c
  || in_range 178 179 c || in_range 185 185 c || in_range 188 190 c.

(** The class [\w] of [re]. *)
Definition isword (c : ascii) : bool := isalnum_char c || in_range 95 95 c.

Definition has_upper_case (c : ascii) : bool :=
  is_ascii_upper c || ((in_range 192 222 c) && negb (in_range 215 215 c)).

Definition has_lower_case (c : ascii) : bool :=
  is_ascii_lower c || ((in_range 224 254 c) && negb (in_range 247 247 c)).

Definition lower_char (c : ascii) : ascii :=
  if has_upper_case c then ascii_of_N (code c + 32) else c.

(** Upper-casing, as far as it stays below U+0100. *)
Definition upper_char (c : ascii) : ascii :=
  if has_lower_case c then ascii_of_N (code c - 32) else c.

Definition chars (s : string) : list ascii := list_ascii_of_string s.
Definition str (l : list ascii) : string := string_of_list_ascii l.

(** [s.lower()] *)
Definition lower (s : string) : string := str (map lower_char (chars s)).

Fixpoint lstrip_chars (l : list ascii) : list ascii :=
  match l with
  | c :: l' => if isspace c then lstrip_chars l' else l
  | [] => []
  end.

Definition strip_chars (l : list ascii) : list ascii :=
  rev (lstrip_chars (rev (lstrip_chars l))).

(** [s.strip()] *)
Definition strip (s : string) : string := str (strip_chars (chars s)).

(** [s.split()]: the maximal runs of non-whitespace characters.
    [cur] is the run being read, reversed. *)
Fixpoint split_chars (cur : list ascii) (l : list ascii) : list (list ascii) :=
  match l with
  | [] => match cur with [] => [] | _ => [rev cur] end
  | c :: l' =>
      if isspace c
      then match cur with
           | [] => split_chars [] l'
           | _ => rev cur :: split_chars [] l'
           end
      else split_chars (c :: cur) l'
  end.

Definition split (s : string) : list string := map str (split_chars [] (chars s)).

(** [s.replace(" ", "")] *)
Definition remove_spaces (s : string) : string :=
  str (List.filter (fun c => negb (in_range 32 32 c)) (chars s)).

(** [s.isalpha()]: false on the empty string. *)
Definition isalpha (s : string) : bool :=
  match chars s with
  | [] => false
  | l => forallb isalpha_char l
  end.

Definition digit_value (c : ascii) : Z := Z.of_N (code c) - 48.

(** [int(s)] on a string of decimal digits. *)
Definition int_of_digits (l : list ascii) : Z :=
  fold_left (fun acc c => 10 * acc + digit_value c)%Z l 0%Z.

(** Truth value of a string: [bool(s)]. *)
Definition nonempty (s : string) : bool :=
  match s with "" => false | _ => true end.

End Py.

(** ** Regular expressions: the fragment of [re] the code uses

    A backtracking matcher in continuation-passing style, with [re]'s
    priorities: alternatives left to right, quantifiers greedy.  A
    repetition is always over a single-character class in this program. *)

Module Re.

Inductive cset : Type :=
| CLit (c : ascii)          (* a literal character *)
| CRng (lo hi : ascii)      (* [lo-hi] *)
| CSpace                    (* \s *)
| CDigit                    (* \d *)
| CDot.                     (* . *)

Inductive regex : Type :=
| Eps
| Chr (s : cset)
| Bol                       (* ^ *)
| Eol                       (* $ *)
| WordB                     (* \b *)
| Seq (r1 r2 : regex)
| Alt (r1 r2 : regex)
| Opt (r : regex)                           (* r? *)
| Rep (s : cset) (lo : nat) (hi : option nat)   (* s{lo,hi}; + is {1,} *)
| Grp (r : regex).                          (* the capture group 1 *)

Definition newline : ascii := ascii_of_N 10.

Definition code_in (lo hi c : ascii) : bool :=
  ((Py.code lo <=? Py.code c) && (Py.code c <=? Py.code hi))%N.

(** Membership of a character in a class; [icase] is [re.IGNORECASE]:
    a literal is compared on lower case, a range also accepts a
    character whose lower or upper case lies in it. *)
Definition cset_mem (icase : bool) (s : cset) (c : ascii) : bool :=
  match s with
  | CLit x =>
      if icase then Ascii.eqb (Py.lower_char c) (Py.lower_char x)
      else Ascii.eqb c x
  | CRng lo hi =>
      code_in lo hi c
      || (icase && (code_in lo hi (Py.lower_char c)
                    || code_in lo hi (Py.upper_char c)))
  | CSpace => Py.isspace c
  | CDigit => Py.isdecimal c
  | CDot => negb (Ascii.eqb c newline)
  end.

(** A position in the text: the characters before it, last first, and
    the characters from it on; with it the text of group 1, if set. *)
Definition mstate : Type := list ascii * list ascii * option (list ascii).

Definition cont : Type := list ascii -> list ascii -> option (list ascii) -> option mstate.

Definition hi_allows (hi : option nat) : bool :=
  match hi with Some 0 => false | _ => true end.

Definition hi_pred (hi : option nat) : option nat :=
  match hi with Some n => Some (Nat.pred n) | None => None end.

(** Greedy repetition of a class: one more character first, the shorter
    match on backtracking. *)
Fixpoint rep (icase : bool) (s : cset) (lo : nat) (hi : option nat)
    (pre rest : list ascii) (k : list ascii -> list ascii -> option mstate)
    : option mstate :=
  let stop := match lo with 0 => k pre rest | S _ => None end in
  match rest with
  | c :: rest' =>
      if cset_mem icase s c && hi_allows hi
      then match rep icase s (Nat.pred lo) (hi_pred hi) (c :: pre) rest' k with
           | Some m => Some m
           | None => stop
           end
      else stop
  | [] => stop
  end.

Definition word_before (pre : list ascii) : bool :=
  match pre with c :: _ => Py.isword c | [] => false end.

Definition word_after (rest : list ascii) : bool :=
  match rest with c :: _ => Py.isword c | [] => false end.

(** The text between two positions, the later one given by [pre']. *)
Definition span (pre pre' : list ascii) : list ascii :=
  rev (firstn (length pre' - length pre) pre').

Fixpoint go (icase : bool) (r : regex) (pre rest : list ascii)
    (cap : option (list ascii)) (k : cont) : option mstate :=
  match r with
  | Eps => k pre rest cap
  | Chr s =>
      match rest with
      | c :: rest' => if cset_mem icase s c then k (c :: pre) rest' cap else None
      | [] => None
      end
  | Bol => match pre with [] => k pre rest cap | _ :: _ => None end
  | Eol =>
      match rest with
      | [] => k pre rest cap
      | [c] => if Ascii.eqb c newline then k pre rest cap else None
      | _ => None
      end
  | WordB => if xorb (word_before pre) (word_after rest) then k pre rest cap else None
  | Seq r1 r2 =>
      go icase r1 pre rest cap (fun pre' rest' cap' => go icase r2 pre' rest' cap' k)
  | Alt r1 r2 =>
      match go icase r1 pre rest cap k with
      | Some m => Some m
      | None => go icase r2 pre rest cap k
      end
  | Opt r1 =>
      match go icase r1 pre rest cap k with
      | Some m => Some m
      | None => k pre rest cap
      end
  | Rep s lo hi => rep icase s lo hi pre rest (fun pre' rest' => k pre' rest' cap)
  | Grp r1 =>
      go icase r1 pre rest cap (fun pre' rest' _ => k pre' rest' (Some (span pre pre')))
  end.

(** A match object: [group(0)], [group(1)] and the text after the match. *)
Record rmatch : Type := {
  group0 : list ascii;
  group1 : option (list ascii);
  after : list ascii
}.

Definition match_at (icase : bool) (r : regex) (pre rest : list ascii) : option rmatch :=
  match go icase r pre rest None (fun pre' rest' cap => Some (pre', rest', cap)) with
  | Some (pre', rest', cap) =>
      Some {| group0 := span pre pre'; group1 := cap; after := rest' |}
  | None => None
  end.

(** The leftmost match from a position on. *)
Fixpoint search_from (icase : bool) (r : regex) (pre rest : list ascii) : option rmatch :=
  match match_at icase r pre rest with
  | Some m => Some m
  | None =>
      match rest with
      | c :: rest' => search_from icase r (c :: pre) rest'
      | [] => None
      end
  end.

(** [re.search(r, text, flags)] *)
Definition search (icase : bool) (r : regex) (text : string) : option rmatch :=
  search_from icase r [] (Py.chars text).

(** Scan for the next match from a position on, returning the position
    it starts at as well. *)
Fixpoint scan (icase : bool) (r : regex) (pre rest : list ascii)
    : option (rmatch * list ascii) :=
  match match_at icase r pre rest with
  | Some m => Some (m, pre)
  | None =>
      match rest with
      | c :: rest' => scan icase r (c :: pre) rest'
      | [] => None
      end
  end.

(** [re.findall(r, text)] for a pattern without groups: the successive
    non-overlapping matches, left to right.  After an empty match the
    scan resumes one character further. *)
Fixpoint findall_from (fuel : nat) (icase : bool) (r : regex)
    (pre rest : list ascii) : list string :=
  match fuel with
  | 0 => []
  | S fuel' =>
      match scan icase r pre rest with
      | None => []
      | Some (m, start) =>
          let stop := (rev (group0 m) ++ start)%list in
          Py.str (group0 m) ::
          match group0 m, after m with
          | [], c :: rest' => findall_from fuel' icase r (c :: stop) rest'
          | [], [] => []
          | _ :: _, rest' => findall_from fuel' icase r stop rest'
          end
      end
  end.

Definition findall (icase : bool) (r : regex) (text : string) : list string :=
  findall_from (S (String.length text)) icase r [] (Py.chars text).

(** Pattern syntax helpers. *)
Fixpoint seq (rs : list regex) : regex :=
  match rs with
  | [] => Eps
  | [r] => r
  | r :: rs' => Seq r (seq rs')
  end.

Fixpoint alts (rs : list regex) : regex :=
  match rs with
  | [] => Eps
  | [r] => r
  | r :: rs' => Alt r (alts rs')
  end.

Definition lit (s : string) : regex := seq (map (fun c => Chr (CLit c)) (Py.chars s)).

Definition plus (s : cset) : regex := Rep s 1 None.
Definition star (s : cset) : regex := Rep s 0 None.

End Re.

(** ** The field extractors of [routers/ai.py] *)

Module Extract.
Import Re.

(** [match.group(1)]; the group lies on every path of the patterns
    below, so it is set in every match. *)
Definition group_1 (m : rmatch) : string := Py.str (default [] (group1 m)).

(** [[A-Z][a-z]+(?:\s+[A-Z][a-z]+)?] *)
Definition name_words : regex :=
  seq [Chr (CRng "A" "Z"); plus (CRng "a" "z");
       Opt (seq [plus CSpace; Chr (CRng "A" "Z"); plus (CRng "a" "z")])].

(** [(?:i'?m|i am|my name is|name is|called|this is)] *)
Definition name_intro : regex :=
  alts [seq [lit "i"; Opt (lit "'"); lit "m"]; lit "i am"; lit "my name is";
        lit "name is"; lit "called"; lit "this is"].

Definition name_patterns : list regex :=
  [ seq [name_intro; plus CSpace; Grp name_words];
    seq [Bol; Grp name_words; Eol] ].

(** The loop over [name_patterns]: the first pattern that matches with a
    group of at most three words decides. *)
Fixpoint name_from_patterns (patterns : list regex) (text : string) : option string :=
  match patterns with
  | [] => None
  | pattern :: patterns' =>
      match search true pattern text with
      | Some m =>
          let potential_name := Py.strip (group_1 m) in
          if Nat.leb (length (Py.split potential_name)) 3
          then Some potential_name
          else name_from_patterns patterns' text
      | None => name_from_patterns patterns' text
      end
  end.

Definition extract_name (text : string) : option string :=
  match name_from_patterns name_patterns text with
  | Some name => Some name
  | None =>
      if Nat.leb (length (Py.split text)) 3 && Py.isalpha (Py.remove_spaces text)
      then Some (Py.strip text)
      else None
  end.

(** [(?:i am|age is|i'?m|years old|year old)] *)
Definition age_intro : regex :=
  alts [lit "i am"; lit "age is"; seq [lit "i"; Opt (lit "'"); lit "m"];
        lit "years old"; lit "year old"].

(** [(?:years?|yrs?|old)] *)
Definition age_unit : regex :=
  alts [seq [lit "year"; Opt (lit "s")]; seq [lit "yr"; Opt (lit "s")]; lit "old"].

Definition age_patterns : list regex :=
  [ seq [age_intro; plus CSpace; Grp (Rep CDigit 1 (Some 3))];
    seq [WordB; Grp (Rep CDigit 1 (Some 3)); star CSpace; Opt age_unit; WordB];
    seq [Bol; Grp (Rep CDigit 1 (Some 3)); Eol] ].

Definition in_age_range (n : Z) : bool := ((1 <=? n) && (n <=? 120))%Z.

(** The loop over [age_patterns]: the first pattern whose match holds a
    number from 1 to 120 decides. *)
Fixpoint age_from_patterns (patterns : list regex) (text : string) : option Z :=
  match patterns with
  | [] => None
  | pattern :: patterns' =>
      match search true pattern text with
      | Some m =>
          let potential_age := Py.int_of_digits (Py.chars (group_1 m)) in
          if in_age_range potential_age
          then Some potential_age
          else age_from_patterns patterns' text
      | None => age_from_patterns patterns' text
      end
  end.

Definition extract_age (text : string) : option Z :=
  age_from_patterns age_patterns text.

End Extract.

(** ** Python values, session dictionaries and the effects of a request *)

Module Dict.

(** The values a session dictionary holds. *)
Inductive pyval : Type :=
| PNone
| PStr (s : string)
| PInt (n : Z).

Global Instance pyval_eq_dec : EqDecision pyval.
Proof. solve_decision. Defined.

(** [bool(v)] *)
Definition truthy (v : pyval) : bool :=
  match v with
  | PNone => false
  | PStr s => Py.nonempty s
  | PInt n => negb (n =? 0)%Z
  end.

(** [v is None] *)
Definition is_none (v : pyval) : bool :=
  match v with PNone => true | _ => false end.

(** [str(v)], as an f-string formats a value. *)
Definition format (v : pyval) : string :=
  match v with
  | PNone => "None"
  | PStr s => s
  | PInt n => pretty n
  end.

(** Exceptions: raised by a dictionary subscript, by arithmetic on a
    value that is not a number, and by the client library of a sink. *)
Inductive exn : Type :=
| KeyError (key : string)
| TypeError
| SinkError.

(** Calls that leave the process. *)
Inductive event : Type :=
| EvStoreCall (session_id : string)     (* [store_in_supabase] entered *)
| EvInsert (row : gmap string pyval)    (* [supabase.table(..).insert(row).execute()] *)
| EvNotify (data : gmap string pyval)   (* [trigger_fulfillment_notification] entered *)
| EvPost (payload : gmap string pyval). (* the webhook POST *)

(** What the storage call does. *)
Inductive insert_outcome : Type :=
| InsertData        (* [result.data] is a non-empty list *)
| InsertNoData      (* [result.data] is empty *)
| InsertRaises.     (* the client raises *)

(** What the outside world answers during one request. *)
Record env : Type := {
  uuid4 : string;                  (* [str(uuid.uuid4())] *)
  utcnow : string;                 (* [datetime.utcnow().isoformat()] *)
  supabase_configured : bool;      (* [supabase] is not [None] *)
  insert_result : insert_outcome;
  webhook_configured : bool;       (* [FULFILLMENT_WEBHOOK_URL] is set *)
  post_ok : bool                   (* the POST returns a success status in time *)
}.

(** State of a running function: the object it holds a reference to
    (for the chat handler, the session dictionary) and the outside calls
    made so far. *)
Record mst (St : Type) : Type := {
  sess : St;
  out : list event
}.
Global Arguments sess {St} _.
Global Arguments out {St} _.

(** Computations that read and write the state, call out, and may
    raise. *)
Definition M (St A : Type) : Type := mst St -> mst St * (exn + A).

Definition ret {St A} (a : A) : M St A := fun s => (s, inr a).

Definition bind {St A B} (m : M St A) (f : A -> M St B) : M St B :=
  fun s =>
    match m s with
    | (s', inl e) => (s', inl e)
    | (s', inr a) => f a s'
    end.

Definition raise {St A} (e : exn) : M St A := fun s => (s, inl e).

(** [try: m except Exception: h] *)
Definition try_except {St A} (m : M St A) (h : exn -> M St A) : M St A :=
  fun s =>
    match m s with
    | (s', inl e) => h e s'
    | (s', inr a) => (s', inr a)
    end.

Global Instance M_ret {St} : MRet (M St) := @ret St.
Global Instance M_bind {St} : MBind (M St) := fun A B f m => bind m f.

Definition emit {St} (ev : event) : M St unit :=
  fun s => ({| sess := sess s; out := out s ++ [ev] |}, inr tt).

(** [if c: m] with nothing to do otherwise. *)
Definition when {St} (c : bool) (m : M St unit) : M St unit :=
  if c then m else ret tt.

(** The outside calls and the result of a computation that holds no
    object. *)
Definition calls {A} (m : M unit A) : list event * (exn + A) :=
  let '(s, r) := m {| sess := tt; out := [] |} in (out s, r).

(** The session dictionary operations. *)
Abbreviation session_dict := (gmap string pyval).

(** [session[key]] *)
Definition getitem (key : string) : M session_dict pyval :=
  fun s =>
    match sess s !! key with
    | Some v => (s, inr v)
    | None => (s, inl (KeyError key))
    end.

(** [session.get(key, dflt)] *)
Definition get_or (key : string) (dflt : pyval) : M session_dict pyval :=
  fun s => (s, inr (default dflt (sess s !! key))).

(** [session.get(key)] *)
Definition get (key : string) : M session_dict pyval := get_or key PNone.

(** [key in session] *)
Definition contains (key : string) : M session_dict bool :=
  fun s => (s, inr (bool_decide (is_Some (sess s !! key)))).

(** [session[key] = v] *)
Definition setitem (key : string) (v : pyval) : M session_dict unit :=
  fun s => ({| sess := <[key := v]> (sess s); out := out s |}, inr tt).

(** The whole dictionary, as passed to a callee. *)
Definition snapshot : M session_dict session_dict := fun s => (s, inr (sess s)).

(** [v + n] on the values: only numbers add. *)
Definition add_int {St} (v : pyval) (n : Z) : M St pyval :=
  match v with
  | PInt k => ret (PInt (k + n))
  | _ => raise TypeError
  end.

(** [v >= n] for a value known to be a number. *)
Definition ge_int {St} (v : pyval) (n : Z) : M St bool :=
  match v with
  | PInt k => ret (n <=? k)%Z
  | _ => raise TypeError
  end.

End Dict.

(** ** [fulfillment.py]: the notification to partners *)

Module Fulfillment.
Import Dict.

(** [d.get(key)] on a dictionary value. *)
Definition dget (d : gmap string pyval) (key : string) : pyval :=
  default PNone (d !! key).

(** A dictionary display [{k1: v1, ...}]. *)
Definition dict (items : list (string * pyval)) : gmap string pyval :=
  list_to_map items.

(** [client.post(url, json=payload, ...)] followed by
    [response.raise_for_status()]. *)
Definition http_post {St} (e : env) (payload : gmap string pyval) : M St unit :=
  emit (EvPost payload);;
  if post_ok e then mret tt else raise SinkError.

Definition trigger_fulfillment_notification {St} (e : env) (data : gmap string pyval)
    : M St bool :=
  emit (EvNotify data);;
  let fulfillment_payload :=
    dict [("person_name", dget data "person_name");
          ("age", dget data "age");
          ("location", dget data "location");
          ("food_request", dget data "food_requirement");
          ("assistance_type", dget data "assistance_type")] in
  if webhook_configured e
  then try_except (http_post e fulfillment_payload;; mret true)
                  (fun _ => mret false)
  else mret true.

End Fulfillment.

(** ** [supabase_client.py]: the storage client, made once at import *)

Module SupabaseClient.

(** What [create_client(SUPABASE_URL, SUPABASE_KEY)] does. *)
Inductive create_outcome : Type :=
| ClientCreated
| CreateRaises.

(** Truth value of [os.getenv(name)]: unset and empty both count as
    false. *)
Definition is_set (value : option string) : bool :=
  match value with Some s => Py.nonempty s | None => false end.

(** Whether the module leaves a client in [supabase] rather than
    [None]. *)
Definition supabase (SUPABASE_URL SUPABASE_KEY : option string)
    (create_client : create_outcome) : bool :=
  if is_set SUPABASE_URL && is_set SUPABASE_KEY
  then match create_client with
       | ClientCreated => true
       | CreateRaises => false
       end
  else false.

End SupabaseClient.

(** ** [routers/ai.py]: storage helper and chat handler *)

Module Ai.
Import Dict Fulfillment Extract.

Record ChatRequest : Type := {
  message : option string;
  session_id : option string
}.

Record ChatResponse : Type := {
  reply : string;
  reply_session_id : option string
}.

(** [supabase.table("food_assistance_requests").insert(row).execute()],
    returning whether [result.data] is non-empty. *)
Definition supabase_insert {St} (e : env) (row : gmap string pyval) : M St bool :=
  emit (EvInsert row);;
  match insert_result e with
  | InsertData => mret true
  | InsertNoData => mret false
  | InsertRaises => raise SinkError
  end.

Definition store_in_supabase {St} (e : env) (session_data : gmap string pyval)
    (session_id : string) : M St bool :=
  emit (EvStoreCall session_id);;
  if negb (supabase_configured e) then mret false
  else
    let person_name := dget session_data "person_name" in
    let age := dget session_data "age" in
    let location := dget session_data "location" in
    let food_requirement :=
      default (PStr "General food assistance") (session_data !! "food_requirement") in
    if negb (truthy person_name) || negb (truthy age) || negb (truthy location)
    then mret false
    else
      try_except
        (let supabase_data :=
           dict [("person_name", person_name);
                 ("age", age);
                 ("location", location);
                 ("food_request", food_requirement);
                 ("assistance_type",
                  default (PStr "immediate") (session_data !! "assistance_type"));
                 ("session_id", PStr session_id);
                 ("status", PStr "pending")] in
         has_data ← supabase_insert e supabase_data;
         if (has_data : bool) then mret true else mret false)
        (fun _ => mret false).

(** The replies. *)
Definition reply_greeting : string :=
  "Hello! I'm your AI food assistance helper. I'm here to help you get free food within 10 minutes. How can I assist you today?".
Definition reply_ask_name : string :=
  "Hello! I'm here to help you get food assistance. To proceed, I need a few details. Could you please tell me your name?".
Definition reply_prompt : string :=
  "I'm here to help with food assistance. Please let me know if you need food.".
Definition reply_ask_age (name : string) : string :=
  "Thank you, " ++ name ++ "! Could you please tell me your age?".
Definition reply_ask_location : string :=
  "Thank you! Could you please tell me your location or area where you need the food delivered?".
Definition reply_age_again : string :=
  "I need to know your age. Could you please tell me how old you are? (e.g., 25)".
Definition reply_ask_food : string :=
  "Great! Could you please tell me what kind of food you need or any specific requirements?".
Definition reply_missing : string :=
  "I'm sorry, some information is missing. Please start a new conversation.".
Definition reply_confirmed (name : string) : string :=
  "Thank you " ++ name ++ "! Your food assistance request has been confirmed. We're coordinating with our partners to ensure you receive food within 10 minutes. You will receive a confirmation shortly.".
Definition suffix_saved : string :=
  " ✅ Your request has been saved in our system.".
Definition suffix_not_saved : string :=
  " ⚠️ Note: There was an issue saving your request. Please contact support.".
Definition reply_already_processed : string :=
  "Your request has already been processed. If you need another food assistance request, please start a new conversation.".
Definition reply_recover : string :=
  "I'm here to help you get food assistance. Could you please tell me your name?".
Definition reply_error : string :=
  "I'm sorry, I encountered an error. Please try again or contact support.".

(** [if user_msg_original and len(user_msg_original.strip()) > 0] *)
Definition nonblank (user_msg_original : string) : bool :=
  Py.nonempty user_msg_original
  && Nat.ltb 0 (String.length (Py.strip user_msg_original)).

(** [int(numbers[0])] *)
Definition int (digits : string) : Z := Py.int_of_digits (Py.chars digits).

Section handler.
Context (e : env) (session_id : string) (user_msg_original user_msg : string).

Definition respond (text : string) : M (gmap string pyval) ChatResponse :=
  mret {| reply := text; reply_session_id := Some session_id |}.

(** Lines 131-138: the keys the handler relies on. *)
Definition ensure_keys : M (gmap string pyval) unit :=
  has_step ← contains "step";
  when (negb has_step) (setitem "step" (PStr "start"));;
  has_name ← contains "person_name";
  when (negb has_name) (setitem "person_name" PNone);;
  has_age ← contains "age";
  when (negb has_age) (setitem "age" PNone);;
  has_location ← contains "location";
  when (negb has_location) (setitem "location" PNone).

Definition on_start : M (gmap string pyval) ChatResponse :=
  if nonblank user_msg_original
  then setitem "step" (PStr "asking_name");; respond reply_ask_name
  else respond reply_prompt.

Definition on_asking_name : M (gmap string pyval) ChatResponse :=
  (if nonblank user_msg_original
   then match extract_name user_msg_original with
        | Some name =>
            if Py.nonempty name
            then setitem "person_name" (PStr name)
            else setitem "person_name" (PStr (Py.strip user_msg_original))
        | None => setitem "person_name" (PStr (Py.strip user_msg_original))
        end
   else setitem "person_name" (PStr "User"));;
  setitem "step" (PStr "asking_age");;
  name ← getitem "person_name";
  respond (reply_ask_age (format name)).

(** Lines 208-230: count the failed attempt; on the second one take a
    number or the default and move on. *)
Definition age_retry (numbers : list string) : M (gmap string pyval) ChatResponse :=
  has_attempts ← contains "_age_attempts";
  when (negb has_attempts) (setitem "_age_attempts" (PInt 0));;
  attempts ← getitem "_age_attempts";
  attempts' ← add_int attempts 1;
  setitem "_age_attempts" attempts';;
  attempts ← getitem "_age_attempts";
  exceeded ← ge_int attempts 2;
  if (exceeded : bool)
  then
    match numbers with
    | n0 :: _ =>
        setitem "age" (PInt (if in_age_range (int n0) then int n0 else 25))
    | [] => setitem "age" (PInt 25)
    end;;
    setitem "step" (PStr "asking_location");;
    respond reply_ask_location
  else respond reply_age_again.

Definition on_asking_age : M (gmap string pyval) ChatResponse :=
  match extract_age user_msg with
  | Some age =>
      setitem "age" (PInt age);;
      setitem "step" (PStr "asking_location");;
      respond reply_ask_location
  | None =>
      let numbers := Re.findall false (Re.plus Re.CDigit) user_msg in
      match numbers with
      | n0 :: _ =>
          let potential_age := int n0 in
          if in_age_range potential_age
          then
            setitem "age" (PInt potential_age);;
            setitem "step" (PStr "asking_location");;
            respond reply_ask_location
          else age_retry numbers
      | [] => age_retry numbers
      end
  end.

Definition on_asking_location : M (gmap string pyval) ChatResponse :=
  if nonblank user_msg_original
  then
    setitem "location" (PStr (Py.strip user_msg_original));;
    setitem "step" (PStr "asking_food_requirement");;
    respond reply_ask_food
  else
    setitem "location" (PStr "Not specified");;
    setitem "step" (PStr "asking_food_requirement");;
    respond reply_ask_food.

Definition on_asking_food_requirement : M (gmap string pyval) ChatResponse :=
  setitem "food_requirement"
    (PStr (if Py.nonempty user_msg_original then user_msg_original
           else "General food assistance"));;
  setitem "step" (PStr "completed");;
  person_name ← get "person_name";
  age ← get "age";
  location ← get "location";
  if negb (truthy person_name) || is_none age || negb (truthy location)
  then respond reply_missing
  else
    (* the values logged before storing *)
    getitem "person_name";; getitem "age";; getitem "location";;
    getitem "food_requirement";; getitem "assistance_type";;
    session ← snapshot;
    stored ← store_in_supabase e session session_id;
    person_name ← getitem "person_name";
    age ← getitem "age";
    location ← getitem "location";
    food_requirement ← getitem "food_requirement";
    assistance_type ← getitem "assistance_type";
    let fulfillment_data :=
      dict [("person_name", person_name);
            ("age", age);
            ("location", location);
            ("food_requirement", food_requirement);
            ("assistance_type", assistance_type);
            ("session_id", PStr session_id)] in
    when stored
      (try_except (trigger_fulfillment_notification e fulfillment_data;; mret tt)
                  (fun _ => mret tt));;
    person_name ← getitem "person_name";
    let response_text := reply_confirmed (format person_name) in
    respond (response_text ++ (if (stored : bool) then suffix_saved else suffix_not_saved)).

Definition on_completed : M (gmap string pyval) ChatResponse :=
  respond reply_already_processed.

Definition on_unknown : M (gmap string pyval) ChatResponse :=
  setitem "step" (PStr "asking_name");;
  respond reply_recover.

(** Lines 145-321: the branch for the current step. *)
Definition dispatch (step : pyval) : M (gmap string pyval) ChatResponse :=
  if decide (step = PStr "start") then on_start
  else if decide (step = PStr "asking_name") then on_asking_name
  else if decide (step = PStr "asking_age") then on_asking_age
  else if decide (step = PStr "asking_location") then on_asking_location
  else if decide (step = PStr "asking_food_requirement") then on_asking_food_requirement
  else if decide (step = PStr "completed") then on_completed
  else on_unknown.

(** Lines 128-321: what the handler does with the session it looked up. *)
Definition process : M (gmap string pyval) ChatResponse :=
  ensure_keys;;
  step ← getitem "step";
  dispatch step.

End handler.

(** The session a first message creates. *)
Definition new_session : gmap string pyval :=
  dict [("step", PStr "start");
        ("person_name", PNone);
        ("age", PNone);
        ("location", PNone);
        ("food_requirement", PNone);
        ("assistance_type", PStr "immediate")].

(** [chat_request.session_id], or a fresh identifier when it is absent
    or empty. *)
Definition effective_session_id (e : env) (chat_request : ChatRequest) : string :=
  match session_id chat_request with
  | Some s => if Py.nonempty s then s else uuid4 e
  | None => uuid4 e
  end.

Definition original_message (chat_request : ChatRequest) : string :=
  Py.strip (default "" (message chat_request)).

(** The [try] block of [chat_with_ai] on the session store: the store
    afterwards, the outside calls made, and the response or the
    exception that left the block.  Writes to the session reach the
    store whether or not the block ends normally. *)
Definition chat_try (e : env) (chat_request : ChatRequest)
    (sessions : gmap string (gmap string pyval))
    : gmap string (gmap string pyval) * list event * (exn + ChatResponse) :=
  let user_msg_original := original_message chat_request in
  let user_msg := Py.strip (Py.lower user_msg_original) in
  let session_id := effective_session_id e chat_request in
  let is_new_session := bool_decide (sessions !! session_id = None) in
  let sessions := if is_new_session then <[session_id := new_session]> sessions
                  else sessions in
  if is_new_session && negb (Py.nonempty user_msg_original)
  then (sessions, [],
        inr {| reply := reply_greeting; reply_session_id := Some session_id |})
  else
    match sessions !! session_id with
    | None => (sessions, [], inl (KeyError session_id))
    | Some session =>
        let '(st, r) :=
          process e session_id user_msg_original user_msg
                  {| sess := session; out := [] |} in
        (<[session_id := sess st]> sessions, out st, r)
    end.

(** [chat_with_ai]: the [try] block with its [except Exception] arm. *)
Definition chat_with_ai (e : env) (chat_request : ChatRequest)
    (sessions : gmap string (gmap string pyval))
    : gmap string (gmap string pyval) * list event * ChatResponse :=
  let '(sessions', events, r) := chat_try e chat_request sessions in
  (sessions', events,
   match r with
   | inr response => response
   | inl _ => {| reply := reply_error;
                 reply_session_id := Some (effective_session_id e chat_request) |}
   end).

End Ai.

(** ** [main.py]: the endpoint *)

Module Main.
Import Dict Ai.

Definition reply_fallback : string :=
  "Sorry, something went wrong. Please try again.".

(** Awaiting the handler: it returns normally on every input, its own
    [except] arm having caught whatever its body raised. *)
Definition await_handler (e : env) (chat_request : ChatRequest)
    (sessions : gmap string (gmap string pyval))
    : gmap string (gmap string pyval) * list event * (exn + ChatResponse) :=
  let '(sessions', events, response) := chat_with_ai e chat_request sessions in
  (sessions', events, inr response).

(** [chat]: the handler inside a [try] of the endpoint's own. *)
Definition chat (e : env) (chat_request : ChatRequest)
    (sessions : gmap string (gmap string pyval))
    : gmap string (gmap string pyval) * list event * ChatResponse :=
  let '(sessions', events, r) := await_handler e chat_request sessions in
  (sessions', events,
   match r with
   | inr response => response
   | inl _ => {| reply := reply_fallback; reply_session_id := None |}
   end).

End Main.

(** ** [langgraph_workflow.py]: the graph variant *)

Module Graph.
Import Dict Fulfillment Re.

Inductive chat_message : Type :=
| HumanMessage (content : string)
| AIMessage (content : string).

Record ConversationState : Type := {
  messages : list chat_message;
  intent : option string;
  person_name : option string;
  age : option Z;
  location : option string;
  food_requirement : option string;
  session_id : option string;
  assistance_type : option string;
  fulfillment_triggered : bool
}.

(** [bool(s)] for an optional string. *)
Definition truthy_str (s : option string) : bool :=
  match s with Some x => Py.nonempty x | None => false end.

Definition py_str (s : option string) : pyval :=
  match s with Some x => PStr x | None => PNone end.

Definition py_int (n : option Z) : pyval :=
  match n with Some x => PInt x | None => PNone end.

(** [needle in hay] *)
Fixpoint is_infix_chars (needle hay : list ascii) : bool :=
  match hay with
  | [] => match needle with [] => true | _ => false end
  | _ :: hay' =>
      bool_decide (take (length needle) hay = needle) || is_infix_chars needle hay'
  end.

Definition is_infix (needle hay : string) : bool :=
  is_infix_chars (Py.chars needle) (Py.chars hay).

Definition urgent_keywords : list string :=
  ["hungry"; "starving"; "need food now"; "urgent"; "immediate"; "emergency"; "asap"].
Definition scheduled_keywords : list string :=
  ["later"; "tomorrow"; "next week"; "schedule"; "plan"].
Definition ngo_keywords : list string :=
  ["ngo"; "referral"; "support"; "help"; "assistance"; "organization"].

Definition any_in (keywords : list string) (user_message : string) : bool :=
  existsb (fun keyword => is_infix keyword user_message) keywords.

Definition router_node (state : ConversationState) : ConversationState :=
  match last (messages state) with
  | Some (HumanMessage content) =>
      let user_message := Py.lower content in
      let intent :=
        if any_in urgent_keywords user_message then "immediate_food"
        else if any_in scheduled_keywords user_message then "scheduled_food"
        else if any_in ngo_keywords user_message then "ngo_referral"
        else "immediate_food" in
      {| messages := messages state;
         intent := Some intent;
         person_name := person_name state;
         age := age state;
         location := location state;
         food_requirement := food_requirement state;
         session_id := session_id state;
         assistance_type :=
           Some (if String.eqb intent "immediate_food" then "immediate"
                 else if String.eqb intent "scheduled_food" then "scheduled"
                 else "ngo_referral");
         fulfillment_triggered := fulfillment_triggered state |}
  | _ => state
  end.

(** The storage and notification calls of the graph variant.  The
    event-loop plumbing around the notification is taken to work; a
    session identifier that is [None] is passed on as such. *)
Definition trigger_fulfillment (e : env) (state : ConversationState)
    (assistance_type : string) : M unit unit :=
  let person_name := py_str (person_name state) in
  let age := py_int (age state) in
  let location := py_str (location state) in
  let food_requirement := py_str (food_requirement state) in
  let session_id := py_str (session_id state) in
  let fulfillment_data :=
    dict [("person_name", person_name);
          ("age", age);
          ("location", location);
          ("food_requirement", food_requirement);
          ("assistance_type", PStr assistance_type);
          ("session_id", session_id)] in
  (if supabase_configured e
   then
     try_except
       (let supabase_data :=
          dict [("person_name", person_name);
                ("age", age);
                ("location", location);
                ("food_request", food_requirement);
                ("assistance_type", PStr assistance_type);
                ("session_id", session_id);
                ("created_at", PStr (utcnow e));
                ("status", PStr "pending")] in
        emit (EvInsert supabase_data);;
        match insert_result e with
        | InsertRaises => raise SinkError
        | _ => mret tt
        end)
       (fun _ => mret tt)         (* continue even if Supabase fails *)
   else mret tt);;
  try_except (trigger_fulfillment_notification e fulfillment_data;; mret tt)
             (fun _ => mret tt).

(** The name patterns, as written out in [collect_user_info]. *)
Definition name_words : regex :=
  seq [Chr (CRng "A" "Z"); plus (CRng "a" "z");
       Opt (seq [plus CSpace; Chr (CRng "A" "Z"); plus (CRng "a" "z")])].

Definition name_patterns : list regex :=
  [ seq [alts [seq [lit "i"; Opt (lit "'"); lit "m"]; lit "i am"; lit "my name is";
               lit "name is"; lit "called"; lit "this is"];
         plus CSpace; Grp name_words];
    seq [Bol; Grp name_words; Eol] ].

Definition group_1 (m : rmatch) : string := Py.str (default [] (group1 m)).

(** The loop over the name patterns: the first match with at most three
    words is taken and ends the loop. *)
Fixpoint name_loop (patterns : list regex) (user_text : string) : option string :=
  match patterns with
  | [] => None
  | pattern :: patterns' =>
      match search true pattern user_text with
      | Some m =>
          let potential_name := Py.strip (group_1 m) in
          if Nat.leb (length (Py.split potential_name)) 3
          then Some potential_name
          else name_loop patterns' user_text
      | None => name_loop patterns' user_text
      end
  end.

Definition age_patterns : list regex :=
  [ seq [alts [lit "i am"; lit "age is"; seq [lit "i"; Opt (lit "'"); lit "m"];
               lit "years old"; lit "year old"];
         plus CSpace; Grp (Rep CDigit 1 (Some 3))];
    seq [WordB; Grp (Rep CDigit 1 (Some 3)); star CSpace;
         Opt (alts [seq [lit "year"; Opt (lit "s")]; seq [lit "yr"; Opt (lit "s")];
                    lit "old"]);
         WordB];
    seq [Bol; Grp (Rep CDigit 1 (Some 3)); Eol] ].

Fixpoint age_loop (patterns : list regex) (user_text : string) : option Z :=
  match patterns with
  | [] => None
  | pattern :: patterns' =>
      match search true pattern user_text with
      | Some m =>
          let potential_age := Py.int_of_digits (Py.chars (group_1 m)) in
          if ((1 <=? potential_age) && (potential_age <=? 120))%Z
          then Some potential_age
          else age_loop patterns' user_text
      | None => age_loop patterns' user_text
      end
  end.

(** [i live in|location is|address is|i am at|i am in|at|in|near|area is|located at] *)
Definition location_intro : regex :=
  alts [lit "i live in"; lit "location is"; lit "address is"; lit "i am at";
        lit "i am in"; lit "at"; lit "in"; lit "near"; lit "area is"; lit "located at"].

Definition location_patterns : list regex :=
  [ seq [location_intro; plus CSpace; Grp (plus CDot)];
    seq [Bol; Grp (plus CDot); Eol] ].

(** [re.sub(r"^(...)\s+", "", text, flags=re.IGNORECASE)]: the pattern
    starts with [^], so only a match at the start of the text is
    removed. *)
Definition remove_location_prefix (text : string) : string :=
  match match_at true (seq [Bol; location_intro; plus CSpace]) [] (Py.chars text) with
  | Some m => Py.str (after m)
  | None => text
  end.

Fixpoint location_loop (patterns : list regex) (user_text : string) : option string :=
  match patterns with
  | [] => None
  | pattern :: patterns' =>
      match search true pattern user_text with
      | Some m =>
          let potential_location := Py.strip (group_1 m) in
          let potential_location := remove_location_prefix potential_location in
          if Nat.ltb 3 (String.length potential_location)
          then Some potential_location
          else location_loop patterns' user_text
      | None => location_loop patterns' user_text
      end
  end.

Definition reply_confirmed : string :=
  "Thank you! Your food assistance request has been confirmed. We're coordinating with our partners to ensure you receive food within 10 minutes. You will receive a confirmation shortly.".
Definition reply_ask_name : string :=
  "Hello! I'm here to help you get food assistance. To proceed, I need a few details. Could you please tell me your name?".
Definition reply_ask_age (person_name : string) : string :=
  "Thank you, " ++ person_name ++ "! Could you please tell me your age?".
Definition reply_ask_location : string :=
  "Thank you! Could you please tell me your location or area where you need the food delivered?".
Definition reply_ask_food : string :=
  "Great! Could you please tell me what kind of food you need or any specific requirements?".
Definition reply_all_provided : string :=
  "Thank you for providing all the information!".

(** The fields after reading [user_text]: each missing field is filled
    from the same text where its patterns allow. *)
Definition extract_fields (user_text : string)
    (person_name : option string) (age : option Z)
    (location food_requirement : option string)
    : option string * option Z * option string * option string :=
  let person_name :=
    if negb (truthy_str person_name)
    then
      let person_name :=
        match name_loop name_patterns user_text with
        | Some name => Some name
        | None => person_name
        end in
      if negb (truthy_str person_name)
         && Nat.leb (length (Py.split user_text)) 3
         && Py.isalpha (Py.remove_spaces user_text)
      then Some (Py.strip user_text)
      else person_name
    else person_name in
  let age :=
    match age with
    | None => age_loop age_patterns user_text
    | Some _ => age
    end in
  let location :=
    if negb (truthy_str location)
    then match location_loop location_patterns user_text with
         | Some l => Some l
         | None => location
         end
    else location in
  let food_requirement :=
    if negb (truthy_str food_requirement) && truthy_str person_name
       && bool_decide (age <> None) && truthy_str location
       && Nat.ltb 10 (String.length user_text)
    then Some user_text
    else food_requirement in
  (person_name, age, location, food_requirement).

Definition with_reply (state : ConversationState) (response : string)
    (person_name : option string) (age : option Z)
    (location food_requirement : option string) (triggered : bool)
    : ConversationState :=
  {| messages := (messages state ++ [AIMessage response])%list;
     intent := intent state;
     person_name := person_name;
     age := age;
     location := location;
     food_requirement := food_requirement;
     session_id := session_id state;
     assistance_type := assistance_type state;
     fulfillment_triggered := triggered |}.

Definition collect_user_info (e : env) (state : ConversationState)
    (assistance_type : string) : ConversationState * list event :=
  let person_name := person_name state in
  let age := age state in
  let location := location state in
  let food_requirement := food_requirement state in
  let nothing_missing :=
    truthy_str person_name && bool_decide (age <> None)
    && truthy_str location && truthy_str food_requirement in
  if nothing_missing
  then
    if negb (fulfillment_triggered state)
    then
      (with_reply state reply_confirmed person_name age location food_requirement true,
       fst (calls (trigger_fulfillment e state assistance_type)))
    else (state, [])
  else
    let '(person_name, age, location, food_requirement) :=
      match last (messages state) with
      | Some (HumanMessage content) =>
          extract_fields (Py.strip content) person_name age location food_requirement
      | _ => (person_name, age, location, food_requirement)
      end in
    let response :=
      if negb (truthy_str person_name) then reply_ask_name
      else if bool_decide (age = None)
      then reply_ask_age (default "" person_name)
      else if negb (truthy_str location) then reply_ask_location
      else if negb (truthy_str food_requirement) then reply_ask_food
      else reply_all_provided in
    (with_reply state response person_name age location food_requirement
                (fulfillment_triggered state),
     []).

(** [start_node]: both of its paths hand the state on as it is. *)
Definition start_node (state : ConversationState) : ConversationState :=
  match last (messages state) with
  | Some (HumanMessage _) => state
  | _ => state
  end.

Definition immediate_food_node (e : env) (state : ConversationState)
    : ConversationState * list event :=
  collect_user_info e state "immediate".

Definition scheduled_food_node (e : env) (state : ConversationState)
    : ConversationState * list event :=
  collect_user_info e state "scheduled".

Definition ngo_referral_node (e : env) (state : ConversationState)
    : ConversationState * list event :=
  collect_user_info e state "ngo_referral".

Definition should_continue (state : ConversationState) : string :=
  if fulfillment_triggered state then "end"
  else if truthy_str (person_name state) && bool_decide (age state <> None)
          && truthy_str (location state) && truthy_str (food_requirement state)
  then "end"
  else "collect_info".

(** *** The graph [create_workflow] builds

    Nodes and edges are kept under the names the source gives them; the
    target [None] of a conditional edge is [END]. *)

Definition node_function : Type :=
  env -> ConversationState -> ConversationState * list event.

(** [add_node] *)
Definition nodes : list (string * node_function) :=
  [("start", fun _ state => (start_node state, []));
   ("router", fun _ state => (router_node state, []));
   ("immediate_food", immediate_food_node);
   ("scheduled_food", scheduled_food_node);
   ("ngo_referral", ngo_referral_node)].

(** [set_entry_point] *)
Definition entry_point : string := "start".

(** [add_edge] *)
Definition edges : list (string * string) := [("start", "router")].

(** [add_conditional_edges]: the node left, the function that gives the
    key, and the node each key leads to.  The router's key is
    [state.get("intent", "immediate_food")], the value of [intent] in a
    state that holds the key. *)
Definition conditional_edges
    : list (string * ((ConversationState -> option string)
                      * list (string * option string))) :=
  [("router",
    (fun state => intent state,
     [("immediate_food", Some "immediate_food");
      ("scheduled_food", Some "scheduled_food");
      ("ngo_referral", Some "ngo_referral")]));
   ("immediate_food",
    (fun state => Some (should_continue state),
     [("collect_info", Some "immediate_food"); ("end", None)]));
   ("scheduled_food",
    (fun state => Some (should_continue state),
     [("collect_info", Some "scheduled_food"); ("end", None)]));
   ("ngo_referral",
    (fun state => Some (should_continue state),
     [("collect_info", Some "ngo_referral"); ("end", None)]))].

(** The entry of an association list under a key. *)
Fixpoint assoc {A} (key : string) (l : list (string * A)) : option A :=
  match l with
  | [] => None
  | (k, v) :: l' => if String.eqb key k then Some v else assoc key l'
  end.

(** Where the graph goes after a node: [Some None] is [END], and [None]
    means that no edge fits the state. *)
Definition next_node (name : string) (state : ConversationState)
    : option (option string) :=
  match assoc name edges with
  | Some target => Some (Some target)
  | None =>
      match assoc name conditional_edges with
      | Some (key_of, paths) =>
          match key_of state with
          | Some key => assoc key paths
          | None => None
          end
      | None => None
      end
  end.

(** How a run of the graph ends: at [END], at a node it cannot leave, or
    at the limit on the number of steps. *)
Inductive outcome : Type :=
| Finished (state : ConversationState) (events : list event)
| NoPath (state : ConversationState) (events : list event)
| LimitReached (state : ConversationState) (events : list event).

(** Running the graph from a node: the node's function, then the edge
    its result selects, for at most [limit] nodes. *)
Fixpoint run_from (limit : nat) (e : env) (name : string)
    (state : ConversationState) (events : list event) : outcome :=
  match limit with
  | 0 => LimitReached state events
  | S limit' =>
      match assoc name nodes with
      | None => NoPath state events
      | Some f =>
          let '(state', evs) := f e state in
          match next_node name state' with
          | None => NoPath state' (events ++ evs)%list
          | Some None => Finished state' (events ++ evs)%list
          | Some (Some name') => run_from limit' e name' state' (events ++ evs)%list
          end
      end
  end.

(** [workflow.invoke(state)] under a limit on the number of steps. *)
Definition invoke (limit : nat) (e : env) (state : ConversationState) : outcome :=
  run_from limit e entry_point state [].

End Graph.

(** ** Conversations: the handler applied to a sequence of requests *)

Module Conv.
Import Dict Ai.

(** One request with the outside world's answers during it. *)
Record turn : Type := {
  turn_env : env;
  turn_request : ChatRequest
}.

(** The [step] entry of a session dictionary. *)
Definition step_of (session : gmap string pyval) : pyval :=
  default (PStr "start") (session !! "step").

(** The state in which the handler takes a message for [session_id]: an
    unknown identifier gets a new session in [start], and a session
    without [step] is given [start]. *)
Definition state_of (sessions : gmap string (gmap string pyval)) (session_id : string) : pyval :=
  match sessions !! session_id with
  | Some session => step_of session
  | None => PStr "start"
  end.

(** What one request shows: the session it was for, the message as the
    handler reads it, the state before and after, the session dictionary
    afterwards, the outside calls and the response. *)
Record observation : Type := {
  obs_session : string;
  obs_message : string;
  obs_before : pyval;
  obs_after : pyval;
  obs_record : gmap string pyval;
  obs_events : list event;
  obs_response : ChatResponse
}.

Definition observe (t : turn) (sessions : gmap string (gmap string pyval))
    : gmap string (gmap string pyval) * observation :=
  let sid := effective_session_id (turn_env t) (turn_request t) in
  let '(sessions', events, response) :=
    chat_with_ai (turn_env t) (turn_request t) sessions in
  (sessions',
   {| obs_session := sid;
      obs_message := original_message (turn_request t);
      obs_before := state_of sessions sid;
      obs_after := state_of sessions' sid;
      obs_record := default ∅ (sessions' !! sid);
      obs_events := events;
      obs_response := response |}).

Fixpoint run (turns : list turn) (sessions : gmap string (gmap string pyval))
    : gmap string (gmap string pyval) * list observation :=
  match turns with
  | [] => (sessions, [])
  | t :: turns' =>
      let '(sessions1, o) := observe t sessions in
      let '(sessions2, os) := run turns' sessions1 in
      (sessions2, o :: os)
  end.

End Conv.

(** * Vocabulary of the properties

    Closed forms of what the handler does, the invariant of the sessions
    it creates, and the statements the specification makes about it. *)

Import Dict Fulfillment Re Extract Ai Conv.

(** [if key not in session: session[key] = v] *)
Definition ensure (key : string) (v : pyval) (s : gmap string pyval) : gmap string pyval :=
  match s !! key with Some _ => s | None => <[key := v]> s end.

(** The session after lines 131-138. *)
Definition ensured (s : gmap string pyval) : gmap string pyval :=
  ensure "location" PNone (ensure "age" PNone (ensure "person_name" PNone (ensure "step" (PStr "start") s))).

(** What [store_in_supabase] amounts to: whether it reports success, and
    the outside calls it makes. *)
Definition storable (e : env) (d : gmap string pyval) : bool :=
  supabase_configured e
  && truthy (dget d "person_name") && truthy (dget d "age") && truthy (dget d "location").

(** The value [store_in_supabase] returns. *)
Definition stored (e : env) (d : gmap string pyval) : bool :=
  storable e d
  && match insert_result e with InsertData => true | _ => false end.

(** The row it inserts. *)
Definition supabase_row (d : gmap string pyval) (sid : string) : gmap string pyval :=
  dict [("person_name", dget d "person_name");
        ("age", dget d "age");
        ("location", dget d "location");
        ("food_request", default (PStr "General food assistance") (d !! "food_requirement"));
        ("assistance_type", default (PStr "immediate") (d !! "assistance_type"));
        ("session_id", PStr sid);
        ("status", PStr "pending")].

(** The outside calls of [store_in_supabase]. *)
Definition store_calls (e : env) (d : gmap string pyval) (sid : string) : list event :=
  EvStoreCall sid :: (if storable e d then [EvInsert (supabase_row d sid)] else []).

(** The payload of the webhook POST. *)
Definition notification_payload (data : gmap string pyval) : gmap string pyval :=
  dict [("person_name", dget data "person_name");
        ("age", dget data "age");
        ("location", dget data "location");
        ("food_request", dget data "food_requirement");
        ("assistance_type", dget data "assistance_type")].

(** The outside calls of [trigger_fulfillment_notification]. *)
Definition notify_calls (e : env) (data : gmap string pyval) : list event :=
  EvNotify data :: (if webhook_configured e then [EvPost (notification_payload data)] else []).

(** [ChatResponse(reply=text, session_id=sid)] *)
Definition resp (sid text : string) : ChatResponse :=
  {| reply := text; reply_session_id := Some sid |}.

(** A change of the session dictionary. *)
Definition upd (st : mst (gmap string pyval)) (f : gmap string pyval -> gmap string pyval)
  : mst (gmap string pyval) := {| sess := f (sess st); out := out st |}.

(** The name the handler records for a message. *)
Definition chosen_name (m0 : string) : string :=
  if nonblank m0
  then match extract_name m0 with
       | Some name => if Py.nonempty name then name else Py.strip m0
       | None => Py.strip m0
       end
  else "User".

(** The number the handler accepts as the age, if any: the extractor's,
    else the first digit run when it is in range. *)
Definition accepted_age (m : string) : option Z :=
  match extract_age m with
  | Some a => Some a
  | None =>
      match Re.findall false (Re.plus Re.CDigit) m with
      | n0 :: _ => if in_age_range (int n0) then Some (int n0) else None
      | [] => None
      end
  end.

(** The food requirement the handler records for a message. *)
Definition food_of (m0 : string) : string :=
  if Py.nonempty m0 then m0 else "General food assistance".

(** The session after lines 254-255. *)
Definition completed_session (m0 : string) (s : gmap string pyval) : gmap string pyval :=
  <["step" := PStr "completed"]> (<["food_requirement" := PStr (food_of m0)]> s).

(** The check before storing: name and location truthy, age not [None]. *)
Definition valid (s : gmap string pyval) : bool :=
  truthy (dget s "person_name") && negb (is_none (dget s "age"))
  && truthy (dget s "location").

(** The record handed to the notification. *)
Definition fulfillment_data (s : gmap string pyval) (sid : string) : gmap string pyval :=
  dict [("person_name", dget s "person_name");
        ("age", dget s "age");
        ("location", dget s "location");
        ("food_requirement", dget s "food_requirement");
        ("assistance_type", dget s "assistance_type");
        ("session_id", PStr sid)].

(** The outside calls of one dispatch: storage, then, if it succeeded,
    the notification. *)
Definition dispatch_calls (e : env) (s : gmap string pyval) (sid : string) : list event :=
  (store_calls e s sid
   ++ (if stored e s then notify_calls e (fulfillment_data s sid) else []))%list.

(** ** The states and the invariant of the sessions the handler creates *)

Definition states : list string :=
  ["start"; "asking_name"; "asking_age"; "asking_location";
   "asking_food_requirement"; "completed"].

(** The [i]-th state. *)
Definition state_name (i : nat) : string := nth i states "".

(** Position of a step value in the order of the states. *)
Fixpoint index_of (x : string) (l : list string) : option nat :=
  match l with
  | [] => None
  | y :: l' => if String.eqb x y then Some 0 else S <$> index_of x l'
  end.

(** Position of a step value among the states; none for any other value. *)
Definition rank (v : pyval) : option nat :=
  match v with
  | PStr s => index_of s states
  | _ => None
  end.

(** The fields as the handler leaves them: non-empty strings, and an age
    from 1 to 120. *)
Definition name_ok (s : gmap string pyval) : Prop :=
  exists n, s !! "person_name" = Some (PStr n) /\ Py.nonempty n = true.

Definition age_ok (s : gmap string pyval) : Prop :=
  exists a, s !! "age" = Some (PInt a) /\ (1 <= a <= 120)%Z.

Definition location_ok (s : gmap string pyval) : Prop :=
  exists l, s !! "location" = Some (PStr l) /\ Py.nonempty l = true.

Definition food_ok (s : gmap string pyval) : Prop :=
  exists f, s !! "food_requirement" = Some (PStr f) /\ Py.nonempty f = true.

(** The retry counter: absent until the first failed age, 1 while the
    session still waits for the age, 2 once it was forced on. *)
Definition attempts_ok (i : nat) (s : gmap string pyval) : Prop :=
  match s !! "_age_attempts" with
  | None => True
  | Some (PInt 1) => 2 <= i
  | Some (PInt 2) => 3 <= i
  | Some _ => False
  end.

(** The invariant of a session the handler created, in the [i]-th state:
    the keys the handler reads are present, and each field is set once
    its state is passed. *)
Record inv (i : nat) (s : gmap string pyval) : Prop := {
  inv_rank : i <= 5;
  inv_step : s !! "step" = Some (PStr (state_name i));
  inv_has_name : is_Some (s !! "person_name");
  inv_has_age : is_Some (s !! "age");
  inv_has_location : is_Some (s !! "location");
  inv_has_type : is_Some (s !! "assistance_type");
  inv_name : 2 <= i -> name_ok s;
  inv_age : 3 <= i -> age_ok s;
  inv_location : 4 <= i -> location_ok s;
  inv_food : 5 <= i -> food_ok s;
  inv_attempts : attempts_ok i s
}.

(** The question that goes with a state. *)
Definition question (j : nat) (s : gmap string pyval) : string :=
  match j with
  | 1 => reply_ask_name
  | 2 => reply_ask_age (format (dget s "person_name"))
  | 3 => reply_ask_location
  | 4 => reply_ask_food
  | _ => ""
  end.

(** One message on a session the handler created. *)
Record step_facts (e : env) (sid m0 : string) (i : nat) (s : gmap string pyval)
    (j : nat) (s' : gmap string pyval) (evs : list event) (rsp : ChatResponse) : Prop := {
  sf_inv : inv j s';
  sf_next : j = i \/ j = S i;
  sf_loop : j = i -> (i = 0 /\ nonblank m0 = false
                      /\ (reply rsp = reply_prompt \/ reply rsp = reply_greeting))
                     \/ (i = 2 /\ s !! "_age_attempts" = None
                         /\ s' !! "_age_attempts" = Some (PInt 1)
                         /\ reply rsp = reply_age_again)
                     \/ (i = 5 /\ reply rsp = reply_already_processed);
  sf_question : j = S i -> j <= 4 -> reply rsp = question j s';
  sf_calls : evs <> [] -> i = 4;
  sf_done : i = 4 -> j = 5 /\ evs = dispatch_calls e s' sid
            /\ reply rsp = reply_confirmed (format (dget s' "person_name"))
                           ++ (if stored e s' then suffix_saved else suffix_not_saved);
  sf_not_missing : reply rsp <> reply_missing;
  sf_session : reply_session_id rsp = Some sid
}.

(** The session a request for [sid] works on. *)
Definition current (sessions : gmap string (gmap string pyval)) (sid : string)
  : gmap string pyval := default new_session (sessions !! sid).

(** Every session of the store satisfies the invariant. *)
Definition store_inv (sessions : gmap string (gmap string pyval)) : Prop :=
  forall sid s, sessions !! sid = Some s -> exists i, inv i s.

(** ** What a message does to any session, well-formed or not *)

(** [session.get(key) is not None] *)
Definition has_value (s : gmap string pyval) (key : string) : bool :=
  negb (is_none (dget s key)).

(** All four required fields hold a value. *)
Definition complete (s : gmap string pyval) : bool :=
  has_value s "person_name" && has_value s "age"
  && has_value s "location" && has_value s "food_requirement".

(** One message on any session dictionary. *)
Record any_facts (e : env) (sid : string) (s : gmap string pyval)
    (st' : mst (gmap string pyval)) (r : exn + ChatResponse) : Prop := {
  af_session : forall rsp, r = inr rsp -> reply_session_id rsp = Some sid;
  af_calls : out st' <> [] ->
    step_of s = PStr "asking_food_requirement"
    /\ step_of (sess st') = PStr "completed"
    /\ complete (sess st') = true
    /\ out st' = dispatch_calls e (sess st') sid
    /\ r = inr (resp sid (reply_confirmed (format (dget (sess st') "person_name"))
                          ++ (if stored e (sess st') then suffix_saved
                              else suffix_not_saved)));
  af_completed : step_of s = PStr "completed" ->
    st' = {| sess := ensured s; out := [] |}
    /\ r = inr (resp sid reply_already_processed)
}.

(** One request on any store. *)
Record request_facts (e : env) (req : ChatRequest)
    (sessions sessions' : gmap string (gmap string pyval))
    (evs : list event) (r : exn + ChatResponse) : Prop := {
  rf_store : exists s', sessions' = <[effective_session_id e req := s']> sessions;
  rf_session : forall rsp, r = inr rsp ->
    reply_session_id rsp = Some (effective_session_id e req);
  rf_calls : evs <> [] ->
    state_of sessions (effective_session_id e req) = PStr "asking_food_requirement"
    /\ state_of sessions' (effective_session_id e req) = PStr "completed"
    /\ complete (default ∅ (sessions' !! effective_session_id e req)) = true
    /\ evs = dispatch_calls e (default ∅ (sessions' !! effective_session_id e req))
                            (effective_session_id e req)
    /\ r = inr (resp (effective_session_id e req)
                  (reply_confirmed
                     (format (dget (default ∅ (sessions' !! effective_session_id e req))
                                   "person_name"))
                   ++ (if stored e (default ∅ (sessions' !! effective_session_id e req))
                       then suffix_saved else suffix_not_saved)));
  rf_completed :
    state_of sessions (effective_session_id e req) = PStr "completed" ->
    evs = [] /\ r = inr (resp (effective_session_id e req) reply_already_processed)
    /\ state_of sessions' (effective_session_id e req) = PStr "completed"
}.

(** What every request of a conversation that started on handler-made
    sessions shows. *)
Definition good_obs (o : observation) : Prop :=
  exists e i j s,
    obs_before o = PStr (state_name i) /\ obs_after o = PStr (state_name j)
    /\ step_facts e (obs_session o) (obs_message o) i s j
                  (obs_record o) (obs_events o) (obs_response o).

(** The kinds of outside calls. *)
Definition is_store_call (ev : event) : bool :=
  match ev with EvStoreCall _ => true | _ => false end.

Definition is_insert (ev : event) : bool :=
  match ev with EvInsert _ => true | _ => false end.

Definition is_notify (ev : event) : bool :=
  match ev with EvNotify _ => true | _ => false end.

(** The outside calls of one kind made for a session in a conversation. *)
Definition calls_for (kind : event -> bool) (sid : string) (os : list observation)
  : list event :=
  List.filter kind
    (concat (map obs_events
                 (List.filter (fun o => bool_decide (obs_session o = sid)) os))).

(** A request that reached the dispatcher. *)
Definition dispatched (o : observation) : bool :=
  match obs_events o with [] => false | _ :: _ => true end.

(** How many more dispatches a session can cause. *)
Definition allowance (sessions : gmap string (gmap string pyval)) (sid : string) : nat :=
  if decide (state_of sessions sid = PStr "completed") then 0 else 1.

(** A world in which both sinks work. *)
Definition env_ok : env :=
  {| uuid4 := "session-1"; utcnow := "2024-01-01T00:00:00";
     supabase_configured := true; insert_result := InsertData;
     webhook_configured := true; post_ok := true |}.

Definition say (sid text : string) : turn :=
  {| turn_env := env_ok;
     turn_request := {| message := Some text; session_id := Some sid |} |}.

Definition hello : turn :=
  {| turn_env := env_ok;
     turn_request := {| message := Some ""; session_id := None |} |}.

(** The conversation of the specification's scenario. *)
Definition scenario : list turn :=
  [hello; say "session-1" "I need help"; say "session-1" "John";
   say "session-1" "not a number"; say "session-1" "not a number";
   say "session-1" "Lagos"; say "session-1" "rice and beans"].

(** The scenario followed by one more message. *)
Definition scenario_and_more : list turn := (scenario ++ [say "session-1" "thanks"])%list.

Definition no_observation : observation :=
  {| obs_session := ""; obs_message := ""; obs_before := PNone; obs_after := PNone;
     obs_record := ∅; obs_events := [];
     obs_response := {| reply := ""; reply_session_id := None |} |}.

(** The observation of the [i]-th request. *)
Definition obs_at (i : nat) (os : list observation) : observation :=
  default no_observation (os !! i).




(** The message as the age branch reads it: stripped and lower-cased. *)
Definition user_msg (chat_request : ChatRequest) : string :=
  Py.strip (Py.lower (original_message chat_request)).




(** A session that lost its [assistance_type] entry, in a store of its
    own: the subscript on line 274 raises [KeyError] on it. *)
Definition damaged_store : gmap string (gmap string pyval) :=
  {[ "session-9" :=
       dict [("step", PStr "asking_food_requirement");
             ("person_name", PStr "John");
             ("age", PInt 30);
             ("location", PStr "Lagos")] ]}.

(** A world in which the storage client raises. *)
Definition env_storage_down : env :=
  {| uuid4 := "session-1"; utcnow := "2024-01-01T00:00:00";
     supabase_configured := true; insert_result := InsertRaises;
     webhook_configured := true; post_ok := true |}.

(** A graph state with all four fields collected. *)
Definition collected_state : Graph.ConversationState :=
  {| Graph.messages := [Graph.HumanMessage "rice and beans"];
     Graph.intent := Some "immediate_food";
     Graph.person_name := Some "John";
     Graph.age := Some 25%Z;
     Graph.location := Some "Lagos";
     Graph.food_requirement := Some "rice and beans";
     Graph.session_id := Some "session-1";
     Graph.assistance_type := Some "immediate";
     Graph.fulfillment_triggered := false |}.

(** Whether an outside call is a notification. *)
Definition notified (evs : list event) : bool := existsb is_notify evs.

(** C6 as stated, for both dispatchers: a notification is sent only when
    storage is configured and the insert returned data. *)
Definition notify_needs_storage : Prop :=
  (forall e chat_request sessions,
      notified (chat_with_ai e chat_request sessions).1.2 = true ->
      supabase_configured e = true /\ insert_result e = InsertData)
  /\ (forall e state assistance_type,
        notified (calls (Graph.trigger_fulfillment e state assistance_type)).1 = true ->
        supabase_configured e = true /\ insert_result e = InsertData).

(** The number a pattern captures in a text, if the pattern matches. *)
Definition captured_number (pattern : Re.regex) (text : string) : option Z :=
  match Re.search true pattern text with
  | Some m => Some (Py.int_of_digits (Py.chars (group_1 m)))
  | None => None
  end.

(** The first candidate that is a number from 1 to 120. *)
Fixpoint first_accepted (candidates : list (option Z)) : option Z :=
  match candidates with
  | [] => None
  | Some n :: candidates' =>
      if in_age_range n then Some n else first_accepted candidates'
  | None :: candidates' => first_accepted candidates'
  end.

(** ** What a pattern matches, without the search order

    [Matches icase r pre rest cap pre' rest' cap']: the pattern [r] can
    take the matcher from the position [(pre, rest)] with group text
    [cap] to the position [(pre', rest')] with group text [cap']. *)

(** The upper bound of a repetition admits [n] characters. *)
Definition hi_ok (hi : option nat) (n : nat) : Prop :=
  match hi with Some h => n <= h | None => True end.

Fixpoint Matches (icase : bool) (r : regex)
    (pre rest : list ascii) (cap : option (list ascii))
    (pre' rest' : list ascii) (cap' : option (list ascii)) : Prop :=
  match r with
  | Eps => pre' = pre /\ rest' = rest /\ cap' = cap
  | Chr s =>
      exists c, rest = c :: rest' /\ cset_mem icase s c = true
                /\ pre' = c :: pre /\ cap' = cap
  | Bol => pre = [] /\ pre' = pre /\ rest' = rest /\ cap' = cap
  | Eol => (rest = [] \/ rest = [newline]) /\ pre' = pre /\ rest' = rest /\ cap' = cap
  | WordB =>
      xorb (word_before pre) (word_after rest) = true
      /\ pre' = pre /\ rest' = rest /\ cap' = cap
  | Seq r1 r2 =>
      exists p q c, Matches icase r1 pre rest cap p q c
                    /\ Matches icase r2 p q c pre' rest' cap'
  | Alt r1 r2 =>
      Matches icase r1 pre rest cap pre' rest' cap'
      \/ Matches icase r2 pre rest cap pre' rest' cap'
  | Opt r1 =>
      Matches icase r1 pre rest cap pre' rest' cap'
      \/ (pre' = pre /\ rest' = rest /\ cap' = cap)
  | Rep s lo hi =>
      exists cs, rest = (cs ++ rest')%list /\ pre' = (rev cs ++ pre)%list
                 /\ forallb (cset_mem icase s) cs = true
                 /\ lo <= length cs /\ hi_ok hi (length cs) /\ cap' = cap
  | Grp r1 =>
      exists c, Matches icase r1 pre rest cap pre' rest' c
                /\ cap' = Some (span pre pre')
  end.

(** ** The shape of the names [extract_name] finds *)

Definition ascii_letter (c : ascii) : bool :=
  Py.is_ascii_upper c || Py.is_ascii_lower c.

(** A word of the name patterns: two or more letters, in either case. *)
Definition word (w : list ascii) : Prop :=
  2 <= length w /\ forallb ascii_letter w = true.

(** One or more whitespace characters. *)
Definition blanks (ws : list ascii) : Prop :=
  1 <= length ws /\ forallb Py.isspace ws = true.

(** One word, or two words with whitespace between them. *)
Definition name_shape (g : list ascii) : Prop :=
  word g
  \/ exists w1 ws w2, g = (w1 ++ ws ++ w2)%list /\ word w1 /\ blanks ws /\ word w2.

Definition intro_phrases : list string :=
  ["i'm"; "im"; "i am"; "my name is"; "name is"; "called"; "this is"].

(** One of the introducing phrases, in any mix of cases. *)
Definition intro_phrase (p : list ascii) : Prop :=
  exists s, In s intro_phrases /\ map Py.lower_char p = Py.chars s.

(** (a) the text holds an introducing phrase, whitespace and a word. *)
Definition introduces_name (text : string) : Prop :=
  exists before p ws w rest,
    Py.chars text = (before ++ p ++ ws ++ w ++ rest)%list
    /\ intro_phrase p /\ blanks ws /\ word w.

(** (b) the text is itself one or two words, a final newline apart. *)
Definition bare_name (text : string) : Prop :=
  exists g, name_shape g
            /\ (Py.chars text = g \/ Py.chars text = (g ++ [newline])%list).





(** The graph state before the first message. *)
Definition graph_initial : Graph.ConversationState :=
  {| Graph.messages := [];
     Graph.intent := None;
     Graph.person_name := None;
     Graph.age := None;
     Graph.location := None;
     Graph.food_requirement := None;
     Graph.session_id := Some "session-1";
     Graph.assistance_type := None;
     Graph.fulfillment_triggered := false |}.

Definition with_message (state : Graph.ConversationState) (text : string)
  : Graph.ConversationState :=
  {| Graph.messages := (Graph.messages state ++ [Graph.HumanMessage text])%list;
     Graph.intent := Graph.intent state;
     Graph.person_name := Graph.person_name state;
     Graph.age := Graph.age state;
     Graph.location := Graph.location state;
     Graph.food_requirement := Graph.food_requirement state;
     Graph.session_id := Graph.session_id state;
     Graph.assistance_type := Graph.assistance_type state;
     Graph.fulfillment_triggered := Graph.fulfillment_triggered state |}.

(** One message through the graph: the router, then the node of the
    intent it chose, run once. *)
Definition graph_pass (e : env) (state : Graph.ConversationState) (text : string)
  : Graph.ConversationState :=
  let state := Graph.router_node (with_message state text) in
  (Graph.collect_user_info e state (default "immediate" (Graph.assistance_type state))).1.

(** The last thing the graph said. *)
Definition graph_said (state : Graph.ConversationState) : string :=
  match last (Graph.messages state) with
  | Some (Graph.AIMessage content) => content
  | _ => ""
  end.

Fixpoint graph_replies (e : env) (state : Graph.ConversationState)
    (texts : list string) : list string :=
  match texts with
  | [] => []
  | text :: texts' =>
      let state' := graph_pass e state text in
      graph_said state' :: graph_replies e state' texts'
  end.

(** The manual variant's replies to the same messages on a new session. *)
Definition manual_replies (e : env) (texts : list string) : list string :=
  map (fun o => reply (obs_response o))
      (run (map (fun text =>
                   {| turn_env := e;
                      turn_request := {| message := Some text;
                                         session_id := Some "session-1" |} |})
                texts) ∅).2.

(** C8 as stated: the two variants give the same replies to every
    sequence of messages. *)
Definition variants_agree : Prop :=
  forall e texts, graph_replies e graph_initial texts = manual_replies e texts.

(** The question for the first field that is still missing, in the
    order name, age, location, food requirement. *)
Definition next_question (state : Graph.ConversationState) : string :=
  if negb (Graph.truthy_str (Graph.person_name state)) then Graph.reply_ask_name
  else if bool_decide (Graph.age state = None)
  then Graph.reply_ask_age (default "" (Graph.person_name state))
  else if negb (Graph.truthy_str (Graph.location state)) then Graph.reply_ask_location
  else if negb (Graph.truthy_str (Graph.food_requirement state)) then Graph.reply_ask_food
  else Graph.reply_all_provided.

(** Whether the graph state lacks one of the four fields. *)
Definition something_missing (state : Graph.ConversationState) : bool :=
  negb (Graph.truthy_str (Graph.person_name state)
        && bool_decide (Graph.age state <> None)
        && Graph.truthy_str (Graph.location state)
        && Graph.truthy_str (Graph.food_requirement state)).

(** ** Vocabulary of the further properties

    What the properties beyond the specification's speak of: runs of
    one session out of many, the steps a session has done, the keys a
    request writes, the outside calls of the completing request, and
    the graph variant's passes and runs. *)

(** The request is for the session [sid]. *)
Definition addressed_to (sid : string) (t : turn) : bool :=
  bool_decide (effective_session_id (turn_env t) (turn_request t) = sid).

(** The observations of the requests for [sid]. *)
Definition observed_for (sid : string) (os : list observation) : list observation :=
  List.filter (fun o => bool_decide (obs_session o = sid)) os.



(** The keys a request can write, by the state it finds its session in. *)
Definition written (step : pyval) : list string :=
  if decide (step = PStr "start") then ["step"]
  else if decide (step = PStr "asking_name") then ["person_name"; "step"]
  else if decide (step = PStr "asking_age") then ["age"; "step"; "_age_attempts"]
  else if decide (step = PStr "asking_location") then ["location"; "step"]
  else if decide (step = PStr "asking_food_requirement") then ["food_requirement"; "step"]
  else if decide (step = PStr "completed") then []
  else ["step"].

(** A store whose one session carries a step the handler does not know. *)
Definition strange_store : gmap string (gmap string pyval) :=
  {[ "session-7" := dict [("step", PStr "asking_phone"); ("person_name", PStr "Ada")] ]}.

(** Every session of the store asks for immediate assistance. *)
Definition all_immediate (sessions : gmap string (gmap string pyval)) : Prop :=
  forall sid s, sessions !! sid = Some s ->
    s !! "assistance_type" = Some (PStr "immediate").

(** The insert returns data. *)
Definition insert_succeeds (e : env) : bool :=
  match insert_result e with InsertData => true | _ => false end.

(** The outside calls of the request that completes a session, spelled
    out: the storage helper, the row if a client exists, and, if the
    insert returned data, the notification with its POST when a webhook
    is configured. *)
Definition completion_calls (e : env) (sid name : string) (age : Z)
    (location food : string) : list event :=
  let row :=
    dict [("person_name", PStr name); ("age", PInt age); ("location", PStr location);
          ("food_request", PStr food); ("assistance_type", PStr "immediate");
          ("session_id", PStr sid); ("status", PStr "pending")] in
  let data :=
    dict [("person_name", PStr name); ("age", PInt age); ("location", PStr location);
          ("food_requirement", PStr food); ("assistance_type", PStr "immediate");
          ("session_id", PStr sid)] in
  let payload :=
    dict [("person_name", PStr name); ("age", PInt age); ("location", PStr location);
          ("food_request", PStr food); ("assistance_type", PStr "immediate")] in
  EvStoreCall sid ::
  (if supabase_configured e
   then EvInsert row ::
        (if insert_succeeds e
         then EvNotify data :: (if webhook_configured e then [EvPost payload] else [])
         else [])
   else []).

(** The webhook POST among the outside calls. *)
Definition is_post (ev : event) : bool :=
  match ev with EvPost _ => true | _ => false end.

Definition without_posts (evs : list event) : list event :=
  List.filter (fun ev => negb (is_post ev)) evs.

(** Two worlds that differ at most in the webhook: whether one is
    configured, and whether its POST succeeds. *)
Definition same_but_webhook (e1 e2 : env) : Prop :=
  uuid4 e1 = uuid4 e2
  /\ supabase_configured e1 = supabase_configured e2
  /\ insert_result e1 = insert_result e2.

(** A world in which the webhook fails. *)
Definition env_webhook_down : env :=
  {| uuid4 := "session-1"; utcnow := "2024-01-01T00:00:00";
     supabase_configured := true; insert_result := InsertData;
     webhook_configured := true; post_ok := false |}.

(** A world without a storage client. *)
Definition env_no_storage : env :=
  {| uuid4 := "session-1"; utcnow := "2024-01-01T00:00:00";
     supabase_configured := false; insert_result := InsertData;
     webhook_configured := true; post_ok := true |}.

(** The same requests in another world. *)
Definition in_world (e : env) (turns : list turn) : list turn :=
  map (fun t => {| turn_env := e; turn_request := turn_request t |}) turns.

(** What a request shows when there is no storage client: no outside
    call, or the storage helper alone and the confirmation with the
    note that the request was not saved. *)
Definition nothing_passed_on (o : observation) : Prop :=
  obs_events o = []
  \/ (obs_events o = [EvStoreCall (obs_session o)]
      /\ reply (obs_response o)
         = reply_confirmed (format (dget (obs_record o) "person_name"))
           ++ suffix_not_saved).



(** One to three decimal digits. *)
Definition digit_run (ds : list ascii) : Prop :=
  1 <= length ds <= 3 /\ forallb Py.isdecimal ds = true.

(** A pattern without the capture group. *)
Fixpoint groupless (r : regex) : bool :=
  match r with
  | Seq r1 r2 | Alt r1 r2 => groupless r1 && groupless r2
  | Opt r1 => groupless r1
  | Grp _ => false
  | _ => true
  end.

(** The group [(\d{1,3})]. *)
Definition is_digit_group (r : regex) : bool :=
  match r with
  | Grp (Rep CDigit 1 (Some 3)) => true
  | _ => false
  end.

(** A pattern that is a sequence with the group [(\d{1,3})] in it and
    no other group. *)
Fixpoint digit_capture (r : regex) : bool :=
  match r with
  | Seq r1 r2 =>
      (groupless r1 && digit_capture r2) || (is_digit_group r1 && groupless r2)
  | _ => is_digit_group r
  end.

(** The ages a user can give. *)
Definition ages : list Z := seqZ 1 120.

(** The decimal digits. *)
Definition digit_chars : list ascii := Py.chars "0123456789".

(** The texts the third age pattern matches: one to three digits, and
    possibly a final newline. *)
Definition plain_numbers : list (list ascii) :=
  let runs :=
    (flat_map (fun a => [[a]]) digit_chars
     ++ flat_map (fun a => flat_map (fun b => [[a; b]]) digit_chars) digit_chars
     ++ flat_map (fun a => flat_map (fun b => flat_map (fun c => [[a; b; c]]) digit_chars)
                                    digit_chars) digit_chars)%list in
  (runs ++ map (fun ds => ds ++ [newline])%list runs)%list.

(** A session that holds the age 0 and no food requirement. *)
Definition session_aged_zero : gmap string pyval :=
  dict [("person_name", PStr "Ada"); ("age", PInt 0); ("location", PStr "Lagos")].

(** A record handed to the notification. *)
Definition sample_data : gmap string pyval :=
  dict [("person_name", PStr "Ada"); ("age", PInt 30); ("location", PStr "Lagos");
        ("food_requirement", PStr "rice"); ("assistance_type", PStr "immediate");
        ("session_id", PStr "session-1")].

(** The outside calls of one message through the graph, as [graph_pass]
    reads it. *)
Definition graph_pass_calls (e : env) (state : Graph.ConversationState) (text : string)
  : list event :=
  let state := Graph.router_node (with_message state text) in
  (Graph.collect_user_info e state (default "immediate" (Graph.assistance_type state))).2.

(** A conversation with the graph, one pass per message: the final
    state and all outside calls. *)
Fixpoint graph_run (e : env) (state : Graph.ConversationState) (texts : list string)
  : Graph.ConversationState * list event :=
  match texts with
  | [] => (state, [])
  | text :: texts' =>
      let r := graph_run e (graph_pass e state text) texts' in
      (r.1, (graph_pass_calls e state text ++ r.2)%list)
  end.


(** The intents and the assistance type and node that go with each. *)
Definition routes : list (string * string) :=
  [("immediate_food", "immediate"); ("scheduled_food", "scheduled");
   ("ngo_referral", "ngo_referral")].

(** Two states hold the same four fields. *)
Definition same_fields (s1 s2 : Graph.ConversationState) : Prop :=
  Graph.person_name s1 = Graph.person_name s2 /\ Graph.age s1 = Graph.age s2
  /\ Graph.location s1 = Graph.location s2
  /\ Graph.food_requirement s1 = Graph.food_requirement s2.

(** The four fields after [collect_user_info] has read the last message:
    unchanged unless that message is the user's. *)
Definition read_fields (state : Graph.ConversationState)
  : option string * option Z * option string * option string :=
  match last (Graph.messages state) with
  | Some (Graph.HumanMessage content) =>
      Graph.extract_fields (Py.strip content) (Graph.person_name state) (Graph.age state)
                           (Graph.location state) (Graph.food_requirement state)
  | _ => (Graph.person_name state, Graph.age state, Graph.location state,
          Graph.food_requirement state)
  end.

(** A field is set: a non-empty string, or an age. *)
Definition name_set (state : Graph.ConversationState) : bool :=
  Graph.truthy_str (Graph.person_name state).
Definition age_set (state : Graph.ConversationState) : bool :=
  bool_decide (Graph.age state <> None).
Definition location_set (state : Graph.ConversationState) : bool :=
  Graph.truthy_str (Graph.location state).
Definition food_set (state : Graph.ConversationState) : bool :=
  Graph.truthy_str (Graph.food_requirement state).


(** The message holds one of the keywords, whatever the case of its
    letters. *)
Definition mentions (keywords : list string) (content : string) : Prop :=
  exists keyword before after,
    In keyword keywords
    /\ Py.chars (Py.lower content) = (before ++ Py.chars keyword ++ after)%list.

(** * Properties *)

(** ** Running the session monad *)


Section laws.

Context {St A B : Type}.

Implicit Types (st : mst St) (F : A -> M St B).

Lemma ret_bind (a : A) F st : (mret a ≫= F) st = F a st.
Proof. reflexivity. Qed.

Lemma ret_bind' (a : A) F st : (ret a ≫= F) st = F a st.
Proof. reflexivity. Qed.

Lemma raise_bind (x : exn) F st : (raise x ≫= F) st = (st, inl x).
Proof. reflexivity. Qed.

Lemma bind_assoc {C} (m : M St A) F (G : B -> M St C) st :
  ((m ≫= F) ≫= G) st = (m ≫= (fun a => F a ≫= G)) st.
Proof.
  unfold mbind, M_bind, bind. destruct (m st) as [st' [x|a]]; reflexivity.
Qed.

End laws.

Section ops.

Context {St B : Type}.

Implicit Types (st : mst St).

Lemma emit_bind (ev : event) (F : unit -> M St B) st :
  (emit ev ≫= F) st = F tt {| sess := sess st; out := out st ++ [ev] |}.
Proof. reflexivity. Qed.

Lemma when_bind (c : bool) (m : M St unit) (F : unit -> M St B) st :
  (when c m ≫= F) st = if c then (m ≫= F) st else F tt st.
Proof. destruct c; reflexivity. Qed.

End ops.

Section dict.

Context {B : Type}.

Implicit Types (st : mst (gmap string pyval)).

Lemma contains_bind key (F : bool -> M (gmap string pyval) B) st :
  (contains key ≫= F) st = F (bool_decide (is_Some (sess st !! key))) st.
Proof. reflexivity. Qed.

Lemma setitem_bind key v (F : unit -> M (gmap string pyval) B) st :
  (setitem key v ≫= F) st = F tt {| sess := <[key := v]> (sess st); out := out st |}.
Proof. reflexivity. Qed.

Lemma getitem_bind key (F : pyval -> M (gmap string pyval) B) st :
  (getitem key ≫= F) st =
  match sess st !! key with
  | Some v => F v st
  | None => (st, inl (KeyError key))
  end.
Proof.
  unfold mbind, M_bind, bind, getitem. destruct (sess st !! key); reflexivity.
Qed.

Lemma get_bind key (F : pyval -> M (gmap string pyval) B) st :
  (get key ≫= F) st = F (default PNone (sess st !! key)) st.
Proof. reflexivity. Qed.

Lemma snapshot_bind (F : gmap string pyval -> M (gmap string pyval) B) st :
  (snapshot ≫= F) st = F (sess st) st.
Proof. reflexivity. Qed.

End dict.

Lemma ensure_key_bind {B} key v (F : unit -> M (gmap string pyval) B) st :
  (contains key ≫= (fun has => when (negb has) (setitem key v) ≫= F)) st
  = F tt {| sess := ensure key v (sess st); out := out st |}.
Proof.
  rewrite contains_bind, when_bind. unfold ensure.
  destruct (sess st !! key) eqn:E.
  - rewrite bool_decide_true by eauto. destruct st; reflexivity.
  - rewrite bool_decide_false by (intros [? ?]; congruence). reflexivity.
Qed.

Lemma ensure_key_run key v st :
  (contains key ≫= (fun has => when (negb has) (setitem key v))) st
  = ({| sess := ensure key v (sess st); out := out st |}, inr tt).
Proof.
  rewrite contains_bind. unfold ensure, when.
  destruct (sess st !! key) eqn:E.
  - rewrite bool_decide_true by eauto. destruct st; reflexivity.
  - rewrite bool_decide_false by (intros [? ?]; congruence). reflexivity.
Qed.

Lemma bind_run {St A B} (m : M St A) (F : A -> M St B) st st' a :
  m st = (st', inr a) -> (m ≫= F) st = F a st'.
Proof. intros H. unfold mbind, M_bind, bind. rewrite H. reflexivity. Qed.

Lemma ensure_keys_eq s o :
  ensure_keys {| sess := s; out := o |} = ({| sess := ensured s; out := o |}, inr tt).
Proof.
  unfold ensure_keys.
  do 3 (rewrite ensure_key_bind; cbn [sess out]).
  rewrite ensure_key_run. reflexivity.
Qed.

Lemma ensured_step s : ensured s !! "step" = Some (step_of s).
Proof.
  unfold ensured, ensure, step_of.
  repeat match goal with |- context [match ?x !! ?k with _ => _ end] => destruct (x !! k) eqn:? end;
  simplify_map_eq; try done.
Qed.

Lemma process_eq e sid m0 m s o :
  process e sid m0 m {| sess := s; out := o |}
  = dispatch e sid m0 m (step_of s) {| sess := ensured s; out := o |}.
Proof.
  unfold process.
  rewrite (bind_run _ _ _ _ _ (ensure_keys_eq s o)).
  rewrite getitem_bind. cbn [sess]. rewrite ensured_step. reflexivity.
Qed.

Lemma store_in_supabase_run {St} e d sid (st : mst St) :
  store_in_supabase e d sid st
  = ({| sess := sess st; out := out st ++ store_calls e d sid |}, inr (stored e d)).
Proof.
  unfold store_in_supabase, store_calls, stored, storable.
  rewrite !emit_bind. cbn [sess out].
  destruct (supabase_configured e); cbn [negb andb]; [|reflexivity].
  destruct (truthy (dget d "person_name")); cbn [negb andb orb]; [|reflexivity].
  destruct (truthy (dget d "age")); cbn [negb andb orb]; [|reflexivity].
  destruct (truthy (dget d "location")); cbn [negb andb orb]; [|reflexivity].
  unfold try_except, supabase_insert, mbind, M_bind, bind, emit, mret, M_ret, ret, raise.
  cbn [sess out].
  destruct (insert_result e); cbn; rewrite <- ?app_assoc; reflexivity.
Qed.

Lemma trigger_fulfillment_notification_run {St} e data (st : mst St) :
  trigger_fulfillment_notification e data st
  = ({| sess := sess st; out := out st ++ notify_calls e data |},
     inr (negb (webhook_configured e) || post_ok e)).
Proof.
  unfold trigger_fulfillment_notification, notify_calls, notification_payload.
  rewrite emit_bind. cbn [sess out].
  destruct (webhook_configured e); cbn [negb orb]; [|reflexivity].
  unfold try_except, http_post, mbind, M_bind, bind, emit, mret, M_ret, ret, raise.
  cbn [sess out].
  destruct (post_ok e); cbn; rewrite <- ?app_assoc; reflexivity.
Qed.

Lemma on_start_eq sid m0 st :
  on_start sid m0 st =
  if nonblank m0
  then (upd st <["step" := PStr "asking_name"]>, inr (resp sid reply_ask_name))
  else (st, inr (resp sid reply_prompt)).
Proof. unfold on_start. destruct (nonblank m0); reflexivity. Qed.

Lemma on_asking_name_eq sid m0 st :
  on_asking_name sid m0 st =
  (upd st (fun s => <["step" := PStr "asking_age"]> (<["person_name" := PStr (chosen_name m0)]> s)),
   inr (resp sid (reply_ask_age (chosen_name m0)))).
Proof.
  unfold on_asking_name, chosen_name, upd.
  destruct (nonblank m0); [destruct (extract_name m0) as [n|]; [destruct (Py.nonempty n)|]|];
    rewrite !setitem_bind, getitem_bind; cbn [sess out]; simplify_map_eq; reflexivity.
Qed.

Lemma age_retry_eq sid numbers st :
  match numbers with n0 :: _ => in_age_range (int n0) = false | [] => True end ->
  age_retry sid numbers st =
  match sess st !! "_age_attempts" with
  | None => (upd st <["_age_attempts" := PInt 1]>, inr (resp sid reply_age_again))
  | Some (PInt n) =>
      if (2 <=? n + 1)%Z
      then (upd st (fun s => <["step" := PStr "asking_location"]>
                               (<["age" := PInt 25]> (<["_age_attempts" := PInt (n + 1)]> s))),
            inr (resp sid reply_ask_location))
      else (upd st <["_age_attempts" := PInt (n + 1)]>, inr (resp sid reply_age_again))
  | Some _ => (st, inl TypeError)
  end.
Proof.
  intros Hn. unfold age_retry, upd.
  rewrite contains_bind, when_bind.
  destruct (sess st !! "_age_attempts") as [v|] eqn:E.
  - rewrite bool_decide_true by eauto. cbn [negb].
    rewrite getitem_bind, E.
    destruct v as [|?|n]; try reflexivity.
    unfold add_int. rewrite ret_bind', setitem_bind, getitem_bind. cbn [sess out].
    simplify_map_eq. unfold ge_int. rewrite ret_bind'.
    destruct (2 <=? n + 1)%Z; [|reflexivity].
    destruct numbers as [|n0 ?]; [|rewrite Hn]; rewrite !setitem_bind; reflexivity.
  - rewrite bool_decide_false by (intros [? ?]; congruence). cbn [negb].
    rewrite setitem_bind, getitem_bind. cbn [sess out]. simplify_map_eq.
    unfold add_int. rewrite ret_bind', setitem_bind, getitem_bind. cbn [sess out].
    simplify_map_eq. unfold ge_int. rewrite ret_bind'. cbn.
    rewrite insert_insert_eq. reflexivity.
Qed.

Lemma on_asking_age_eq sid m st :
  on_asking_age sid m st =
  match accepted_age m with
  | Some a =>
      (upd st (fun s => <["step" := PStr "asking_location"]> (<["age" := PInt a]> s)),
       inr (resp sid reply_ask_location))
  | None =>
      match sess st !! "_age_attempts" with
      | None => (upd st <["_age_attempts" := PInt 1]>, inr (resp sid reply_age_again))
      | Some (PInt n) =>
          if (2 <=? n + 1)%Z
          then (upd st (fun s => <["step" := PStr "asking_location"]>
                                   (<["age" := PInt 25]> (<["_age_attempts" := PInt (n + 1)]> s))),
                inr (resp sid reply_ask_location))
          else (upd st <["_age_attempts" := PInt (n + 1)]>, inr (resp sid reply_age_again))
      | Some _ => (st, inl TypeError)
      end
  end.
Proof.
  unfold on_asking_age, accepted_age.
  destruct (extract_age m) as [a|]; [reflexivity|].
  destruct (Re.findall false (Re.plus Re.CDigit) m) as [|n0 ns] eqn:E.
  - apply age_retry_eq. exact I.
  - destruct (in_age_range (int n0)) eqn:R; [reflexivity|].
    apply age_retry_eq. exact R.
Qed.

Lemma on_asking_location_eq sid m0 st :
  on_asking_location sid m0 st =
  (upd st (fun s => <["step" := PStr "asking_food_requirement"]>
                     (<["location" := PStr (if nonblank m0 then Py.strip m0 else "Not specified")]> s)),
   inr (resp sid reply_ask_food)).
Proof. unfold on_asking_location. destruct (nonblank m0); reflexivity. Qed.

Lemma truthy_dget_Some s k : truthy (dget s k) = true -> s !! k = Some (dget s k).
Proof. unfold dget. destruct (s !! k); [reflexivity|discriminate]. Qed.

Lemma not_none_dget_Some s k : is_none (dget s k) = false -> s !! k = Some (dget s k).
Proof. unfold dget. destruct (s !! k); [reflexivity|discriminate]. Qed.

Ltac getitem_known :=
  rewrite getitem_bind; cbn [sess out];
  match goal with
  | H : ?s !! ?k = Some _ |- context [match ?s !! ?k with _ => _ end] => rewrite H
  end; cbv beta.

Lemma on_asking_food_requirement_eq e sid m0 st :
  on_asking_food_requirement e sid m0 st =
  let s1 := completed_session m0 (sess st) in
  if valid s1
  then match s1 !! "assistance_type" with
       | Some _ =>
           ({| sess := s1; out := out st ++ dispatch_calls e s1 sid |},
            inr (resp sid (reply_confirmed (format (dget s1 "person_name"))
                           ++ (if stored e s1 then suffix_saved else suffix_not_saved))))
       | None => ({| sess := s1; out := out st |}, inl (KeyError "assistance_type"))
       end
  else ({| sess := s1; out := out st |}, inr (resp sid reply_missing)).
Proof.
  unfold on_asking_food_requirement.
  rewrite !setitem_bind, !get_bind. cbn [sess out].
  fold (food_of m0). fold (completed_session m0 (sess st)).
  set (s1 := completed_session m0 (sess st)). cbn zeta.
  fold (dget s1 "person_name") (dget s1 "age") (dget s1 "location").
  unfold valid.
  destruct (truthy (dget s1 "person_name")) eqn:Hn; cbn [negb orb andb]; [|reflexivity].
  destruct (is_none (dget s1 "age")) eqn:Ha; cbn [negb orb andb]; [reflexivity|].
  destruct (truthy (dget s1 "location")) eqn:Hl; cbn [negb orb andb]; [|reflexivity].
  apply truthy_dget_Some in Hn, Hl. apply not_none_dget_Some in Ha.
  assert (Hf : s1 !! "food_requirement" = Some (dget s1 "food_requirement")).
  { unfold dget, s1, completed_session. simplify_map_eq. reflexivity. }
  do 4 getitem_known.
  rewrite getitem_bind. cbn [sess out].
  destruct (s1 !! "assistance_type") as [a|] eqn:Eat; [|reflexivity].
  rewrite snapshot_bind. cbn [sess].
  unfold mbind at 1, M_bind at 1, bind at 1. rewrite store_in_supabase_run. cbn [sess out].
  do 5 getitem_known.
  assert (Hd : dict [("person_name", dget s1 "person_name"); ("age", dget s1 "age");
                     ("location", dget s1 "location");
                     ("food_requirement", dget s1 "food_requirement");
                     ("assistance_type", a); ("session_id", PStr sid)]
               = fulfillment_data s1 sid).
  { unfold fulfillment_data. f_equal. f_equal. f_equal. f_equal. f_equal. f_equal. f_equal.
    unfold dget. rewrite Eat. reflexivity. }
  rewrite Hd. rewrite when_bind.
  unfold dispatch_calls.
  destruct (stored e s1).
  - unfold try_except, mbind, M_bind, bind.
    rewrite trigger_fulfillment_notification_run. cbn [sess out].
    unfold mret, M_ret, ret, getitem. cbn [sess]. rewrite Hn.
    unfold respond, resp, mret, M_ret, ret.
    rewrite <- app_assoc. reflexivity.
  - rewrite getitem_bind. cbn [sess out]. rewrite Hn. rewrite app_nil_r. reflexivity.
Qed.

Lemma on_completed_eq sid st :
  on_completed sid st = (st, inr (resp sid reply_already_processed)).
Proof. reflexivity. Qed.

Lemma on_unknown_eq sid st :
  on_unknown sid st = (upd st <["step" := PStr "asking_name"]>, inr (resp sid reply_recover)).
Proof. reflexivity. Qed.

Lemma dispatch_eq e sid m0 m step :
  dispatch e sid m0 m step =
  if decide (step = PStr "start") then on_start sid m0
  else if decide (step = PStr "asking_name") then on_asking_name sid m0
  else if decide (step = PStr "asking_age") then on_asking_age sid m
  else if decide (step = PStr "asking_location") then on_asking_location sid m0
  else if decide (step = PStr "asking_food_requirement") then on_asking_food_requirement e sid m0
  else if decide (step = PStr "completed") then on_completed sid
  else on_unknown sid.
Proof. reflexivity. Qed.

Lemma rank_Some v i : rank v = Some i -> i <= 5 /\ v = PStr (state_name i).
Proof.
  destruct v as [|s|]; try discriminate. cbn.
  repeat match goal with
         | |- context [String.eqb s ?x] =>
             destruct (String.eqb_spec s x) as [->|_];
             [cbn; intros [= <-]; split; [lia|reflexivity]|]
         end.
  discriminate.
Qed.

Lemma rank_state_name i : i <= 5 -> rank (PStr (state_name i)) = Some i.
Proof.
  intros H. do 6 (destruct i as [|i]; [reflexivity|]). lia.
Qed.

Lemma inv_new_session : inv 0 new_session.
Proof.
  split; try (intros; lia); try (eexists; reflexivity); reflexivity.
Qed.

Lemma ensured_inv i s : inv i s -> ensured s = s.
Proof.
  intros [? Hs [? Hn] [? Ha] [? Hl] _ _ _ _ _ _].
  unfold ensured, ensure. rewrite Hs, Hn, Ha, Hl. reflexivity.
Qed.

Lemma step_of_inv i s : inv i s -> step_of s = PStr (state_name i).
Proof. intros H. unfold step_of. rewrite (inv_step _ _ H). reflexivity. Qed.

Lemma nonblank_strip m0 : nonblank m0 = true -> Py.nonempty (Py.strip m0) = true.
Proof.
  unfold nonblank. intros [_ H]%andb_true_iff.
  destruct (Py.strip m0); [discriminate|reflexivity].
Qed.

Lemma chosen_name_nonempty m0 : Py.nonempty (chosen_name m0) = true.
Proof.
  unfold chosen_name. destruct (nonblank m0) eqn:E; [|reflexivity].
  destruct (extract_name m0) as [n|]; [destruct (Py.nonempty n) eqn:En; [exact En|]|];
    apply nonblank_strip, E.
Qed.

Lemma in_age_range_spec n : in_age_range n = true <-> (1 <= n <= 120)%Z.
Proof. unfold in_age_range. rewrite andb_true_iff, !Z.leb_le. reflexivity. Qed.

Lemma age_from_patterns_range ps text n :
  age_from_patterns ps text = Some n -> (1 <= n <= 120)%Z.
Proof.
  induction ps as [|p ps IH]; cbn; [discriminate|].
  destruct (Re.search true p text) as [m|]; [|exact IH].
  destruct (in_age_range _) eqn:E; [|exact IH].
  intros [= <-]. apply in_age_range_spec, E.
Qed.

Lemma accepted_age_range m a : accepted_age m = Some a -> (1 <= a <= 120)%Z.
Proof.
  unfold accepted_age. destruct (extract_age m) as [a'|] eqn:E.
  - intros [= <-]. eapply age_from_patterns_range, E.
  - destruct (Re.findall _ _ _) as [|n0 ?]; [discriminate|].
    destruct (in_age_range (int n0)) eqn:R; [|discriminate].
    intros [= <-]. apply in_age_range_spec, R.
Qed.

Lemma food_of_nonempty m0 : Py.nonempty (food_of m0) = true.
Proof. unfold food_of. destruct (Py.nonempty m0) eqn:E; [exact E|reflexivity]. Qed.

Lemma is_Some_insert (s : gmap string pyval) k k' v :
  is_Some (s !! k) -> is_Some (<[k' := v]> s !! k).
Proof.
  intros H. destruct (decide (k' = k)) as [->|Hne].
  - rewrite lookup_insert_eq. eauto.
  - rewrite lookup_insert_ne by exact Hne. exact H.
Qed.

Lemma name_ok_insert s k v : k <> "person_name" -> name_ok s -> name_ok (<[k := v]> s).
Proof. intros Hk (n & H & Hn). exists n. rewrite lookup_insert_ne by exact Hk. auto. Qed.

Lemma age_ok_insert s k v : k <> "age" -> age_ok s -> age_ok (<[k := v]> s).
Proof. intros Hk (n & H & Hn). exists n. rewrite lookup_insert_ne by exact Hk. auto. Qed.

Lemma location_ok_insert s k v : k <> "location" -> location_ok s -> location_ok (<[k := v]> s).
Proof. intros Hk (n & H & Hn). exists n. rewrite lookup_insert_ne by exact Hk. auto. Qed.

Lemma food_ok_insert s k v : k <> "food_requirement" -> food_ok s -> food_ok (<[k := v]> s).
Proof. intros Hk (n & H & Hn). exists n. rewrite lookup_insert_ne by exact Hk. auto. Qed.

Lemma attempts_ok_insert i s k v :
  k <> "_age_attempts" -> attempts_ok i s -> attempts_ok i (<[k := v]> s).
Proof. intros Hk. unfold attempts_ok. rewrite lookup_insert_ne by exact Hk. auto. Qed.

Lemma attempts_ok_mono i j s : i <= j -> attempts_ok i s -> attempts_ok j s.
Proof.
  intros Hij. unfold attempts_ok.
  destruct (s !! "_age_attempts") as [[| |[|[|[| |]|]|]]|]; auto; lia.
Qed.

Lemma name_ok_set s n : Py.nonempty n = true -> name_ok (<["person_name" := PStr n]> s).
Proof. intros H. exists n. rewrite lookup_insert_eq. auto. Qed.

Lemma age_ok_set s a : (1 <= a <= 120)%Z -> age_ok (<["age" := PInt a]> s).
Proof. intros H. exists a. rewrite lookup_insert_eq. auto. Qed.

Lemma location_ok_set s l : Py.nonempty l = true -> location_ok (<["location" := PStr l]> s).
Proof. intros H. exists l. rewrite lookup_insert_eq. auto. Qed.

Lemma food_ok_set s f : Py.nonempty f = true -> food_ok (<["food_requirement" := PStr f]> s).
Proof. intros H. exists f. rewrite lookup_insert_eq. auto. Qed.

Ltac inv_field :=
  repeat first
    [ apply is_Some_insert
    | apply name_ok_set | apply age_ok_set | apply location_ok_set | apply food_ok_set
    | apply name_ok_insert; [discriminate|]
    | apply age_ok_insert; [discriminate|]
    | apply location_ok_insert; [discriminate|]
    | apply food_ok_insert; [discriminate|]
    | apply attempts_ok_insert; [discriminate|] ].

Lemma dispatch_state_name e sid m0 m i :
  i <= 5 ->
  dispatch e sid m0 m (PStr (state_name i)) =
  match i with
  | 0 => on_start sid m0
  | 1 => on_asking_name sid m0
  | 2 => on_asking_age sid m
  | 3 => on_asking_location sid m0
  | 4 => on_asking_food_requirement e sid m0
  | _ => on_completed sid
  end.
Proof. intros H. do 6 (destruct i as [|i]; [reflexivity|]). lia. Qed.

Ltac inv_auto :=
  split; intros; try lia;
  try (inv_field;
       eauto using chosen_name_nonempty, accepted_age_range, food_of_nonempty with lia;
       fail);
  try (rewrite lookup_insert_eq; reflexivity).

Ltac facts_auto :=
  split;
  try (intros; (lia || congruence || reflexivity || auto); fail);
  try (cbn; discriminate).

Lemma process_inv e sid m0 m i s :
  inv i s ->
  exists j s' evs rsp,
    process e sid m0 m {| sess := s; out := [] |} = ({| sess := s'; out := evs |}, inr rsp)
    /\ step_facts e sid m0 i s j s' evs rsp.
Proof.
  intros H. rewrite process_eq, (ensured_inv _ _ H), (step_of_inv _ _ H).
  rewrite dispatch_state_name by apply H.
  destruct H as [Hi Hs Hn Ha Hl Ht Gn Ga Gl Gf Gt].
  destruct i as [|[|[|[|[|[|i]]]]]]; [| | | | | |lia].
  - (* start *)
    rewrite on_start_eq. destruct (nonblank m0) eqn:E.
    + exists 1, (<["step" := PStr "asking_name"]> s), [], (resp sid reply_ask_name).
      split; [reflexivity|]. facts_auto.
      inv_auto. inv_field. eapply attempts_ok_mono; [|exact Gt]. lia.
    + exists 0, s, [], (resp sid reply_prompt).
      split; [reflexivity|]. facts_auto. split; auto.
  - (* asking_name *)
    rewrite on_asking_name_eq. unfold upd. cbn [sess out].
    eexists 2, _, [], _. split; [reflexivity|]. facts_auto.
    + inv_auto. inv_field. eapply attempts_ok_mono; [|exact Gt]. lia.
    + intros _ _. cbn. unfold dget. simplify_map_eq. reflexivity.
  - (* asking_age *)
    rewrite on_asking_age_eq. unfold upd. cbn [sess out].
    destruct (accepted_age m) as [a|] eqn:Ea.
    { eexists 3, _, [], _. split; [reflexivity|]. facts_auto.
      inv_auto. inv_field. eapply attempts_ok_mono; [|exact Gt]. lia. }
    unfold attempts_ok in Gt.
    destruct (s !! "_age_attempts") as [[| |[|[|[| |]|]|]]|] eqn:Et; try done; try lia.
    + cbn. eexists 3, _, [], _. split; [reflexivity|]. facts_auto.
      inv_auto. unfold attempts_ok. simplify_map_eq. lia.
    + eexists 2, _, [], _. split; [reflexivity|]. facts_auto.
      * inv_auto.
        -- rewrite lookup_insert_ne by discriminate. exact Hs.
        -- unfold attempts_ok. simplify_map_eq. lia.
      * intros _. right. left. simplify_map_eq. auto.
  - (* asking_location *)
    rewrite on_asking_location_eq. unfold upd. cbn [sess out].
    eexists 4, _, [], _. split; [reflexivity|]. facts_auto.
    inv_auto.
    + inv_field. destruct (nonblank m0) eqn:E; [apply nonblank_strip, E|reflexivity].
    + inv_field. eapply attempts_ok_mono; [|exact Gt]. lia.
  - (* asking_food_requirement *)
    rewrite on_asking_food_requirement_eq. cbn [sess out]. cbv zeta.
    destruct (Gn ltac:(lia)) as (n & Hn' & Nn).
    destruct (Ga ltac:(lia)) as (a & Ha' & Na).
    destruct (Gl ltac:(lia)) as (l & Hl' & Nl).
    assert (Hv : valid (completed_session m0 s) = true).
    { unfold valid, dget, completed_session. simplify_map_eq. rewrite Nn, Nl. reflexivity. }
    rewrite Hv.
    destruct Ht as [t Ht].
    assert (Hty : completed_session m0 s !! "assistance_type" = Some t).
    { unfold completed_session. simplify_map_eq. reflexivity. }
    rewrite Hty. cbn [app].
    eexists 5, _, _, _. split; [reflexivity|]. facts_auto.
    unfold completed_session.
    inv_auto. inv_field. eapply attempts_ok_mono; [|exact Gt]. lia.
  - (* completed *)
    eexists 5, s, [], _. split; [reflexivity|]. facts_auto.
    split; auto.
Qed.

(** ** The session store *)

Lemma store_inv_empty : store_inv ∅.
Proof. intros sid s H. rewrite lookup_empty in H. discriminate. Qed.

Lemma store_inv_insert sessions sid i s :
  store_inv sessions -> inv i s -> store_inv (<[sid := s]> sessions).
Proof.
  intros Hs Hi sid' s'. destruct (decide (sid = sid')) as [->|Hne].
  - rewrite lookup_insert_eq. intros [= <-]. eauto.
  - rewrite lookup_insert_ne by exact Hne. apply Hs.
Qed.

Lemma store_inv_current sessions sid :
  store_inv sessions -> exists i, inv i (current sessions sid).
Proof.
  intros Hs. unfold current. destruct (sessions !! sid) as [s|] eqn:E.
  - eapply Hs, E.
  - exists 0. apply inv_new_session.
Qed.

Lemma state_of_current sessions sid i :
  inv i (current sessions sid) -> state_of sessions sid = PStr (state_name i).
Proof.
  unfold state_of, current. destruct (sessions !! sid) as [s|]; intros H.
  - eapply step_of_inv, H.
  - change (inv i new_session) in H. pose proof (inv_step _ _ H) as H'.
    change (new_session !! "step") with (Some (PStr "start")) in H'. congruence.
Qed.

Lemma nonempty_nonblank m0 : Py.nonempty m0 = false -> nonblank m0 = false.
Proof. unfold nonblank. intros ->. reflexivity. Qed.

Lemma chat_try_current e req sessions :
  let sid := effective_session_id e req in
  let m0 := original_message req in
  chat_try e req sessions =
  if bool_decide (sessions !! sid = None) && negb (Py.nonempty m0)
  then (<[sid := new_session]> sessions, [], inr (resp sid reply_greeting))
  else
    let '(st, r) := process e sid m0 (Py.strip (Py.lower m0))
                            {| sess := current sessions sid; out := [] |} in
    (<[sid := sess st]> sessions, out st, r).
Proof.
  cbv zeta. unfold chat_try, current.
  destruct (sessions !! effective_session_id e req) as [s|] eqn:E.
  - rewrite bool_decide_false by congruence. cbn [andb]. rewrite E. reflexivity.
  - rewrite bool_decide_true by reflexivity. cbn [andb].
    destruct (Py.nonempty (original_message req)); cbn [negb]; [|reflexivity].
    rewrite lookup_insert_eq. cbn [default].
    destruct (process _ _ _ _ _) as [st r]. rewrite insert_insert_eq. reflexivity.
Qed.

Lemma chat_with_ai_inv e req sessions i :
  let sid := effective_session_id e req in
  inv i (current sessions sid) ->
  exists j s' evs rsp,
    chat_try e req sessions = (<[sid := s']> sessions, evs, inr rsp)
    /\ chat_with_ai e req sessions = (<[sid := s']> sessions, evs, rsp)
    /\ step_facts e sid (original_message req) i (current sessions sid) j s' evs rsp.
Proof.
  cbv zeta. intros H. unfold chat_with_ai. rewrite chat_try_current. cbv zeta.
  destruct (bool_decide _ && negb _) eqn:G.
  - apply andb_true_iff in G as [G1 G2]. apply bool_decide_eq_true in G1.
    apply negb_true_iff in G2.
    assert (Hc : current sessions (effective_session_id e req) = new_session).
    { unfold current. rewrite G1. reflexivity. }
    assert (i = 0).
    { pose proof (inv_step _ _ H) as Hs. rewrite Hc in Hs.
      destruct i as [|[|[|[|[|[|i]]]]]]; try reflexivity; try discriminate.
      pose proof (inv_rank _ _ H). lia. }
    subst i. exists 0, new_session, [], (resp (effective_session_id e req) reply_greeting).
    split; [reflexivity|]. split; [reflexivity|]. rewrite Hc. facts_auto.
    intros _. left. auto using nonempty_nonblank.
  - destruct (process_inv e (effective_session_id e req) (original_message req)
                (Py.strip (Py.lower (original_message req))) i _ H)
      as (j & s' & evs & rsp & -> & F).
    exists j, s', evs, rsp. cbn [sess out]. auto.
Qed.

Lemma truthy_has_value v : truthy v = true -> is_none v = false.
Proof. destruct v; [discriminate|reflexivity..]. Qed.

Lemma valid_completed_complete m0 s :
  valid (completed_session m0 s) = true -> complete (completed_session m0 s) = true.
Proof.
  unfold valid, complete, has_value. intros [[H1 H2]%andb_true_iff H3]%andb_true_iff.
  rewrite (truthy_has_value _ H1), (truthy_has_value _ H3).
  apply negb_true_iff in H2. rewrite H2.
  unfold dget, completed_session. simplify_map_eq. reflexivity.
Qed.

Lemma step_of_completed_session m0 s :
  step_of (completed_session m0 s) = PStr "completed".
Proof. unfold step_of, completed_session. simplify_map_eq. reflexivity. Qed.

Lemma step_of_ensured s : step_of (ensured s) = step_of s.
Proof. unfold step_of at 1. rewrite ensured_step. reflexivity. Qed.

Lemma process_any e sid m0 m s :
  any_facts e sid s (process e sid m0 m {| sess := s; out := [] |}).1
                    (process e sid m0 m {| sess := s; out := [] |}).2.
Proof.
  rewrite process_eq, dispatch_eq.
  repeat case_decide.
  - rewrite on_start_eq. destruct (nonblank m0); split; cbn; try congruence;
      intros; simplify_eq; reflexivity.
  - rewrite on_asking_name_eq. split; cbn; try congruence; intros; simplify_eq; reflexivity.
  - rewrite on_asking_age_eq. cbn [sess out].
    destruct (accepted_age m);
      [|destruct (ensured s !! "_age_attempts") as [[| |n]|]; [| |destruct (2 <=? n + 1)%Z|]];
      split; cbn; try congruence; intros; simplify_eq; reflexivity.
  - rewrite on_asking_location_eq. split; cbn; try congruence; intros; simplify_eq; reflexivity.
  - rewrite on_asking_food_requirement_eq. cbn [sess out]. cbv zeta.
    destruct (valid _) eqn:Hv;
      [destruct (completed_session m0 (ensured s) !! "assistance_type")|];
      split; cbn [fst snd sess out]; try congruence;
      try (intros; simplify_eq; reflexivity).
    intros _. rewrite step_of_completed_session.
    auto using valid_completed_complete.
  - rewrite on_completed_eq.
    split; cbn; try congruence; try (intros; simplify_eq; reflexivity). auto.
  - rewrite on_unknown_eq. split; cbn; try congruence; intros; simplify_eq; reflexivity.
Qed.

Lemma state_of_step_of sessions sid :
  state_of sessions sid = step_of (current sessions sid).
Proof. unfold state_of, current. destruct (sessions !! sid); reflexivity. Qed.

Lemma state_of_insert sessions sid s :
  state_of (<[sid := s]> sessions) sid = step_of s.
Proof. unfold state_of. rewrite lookup_insert_eq. reflexivity. Qed.

Lemma state_of_insert_ne sessions sid sid' s :
  sid <> sid' -> state_of (<[sid := s]> sessions) sid' = state_of sessions sid'.
Proof. intros H. unfold state_of. rewrite lookup_insert_ne by exact H. reflexivity. Qed.

Lemma chat_try_any e req sessions :
  request_facts e req sessions (chat_try e req sessions).1.1
                (chat_try e req sessions).1.2 (chat_try e req sessions).2.
Proof.
  rewrite chat_try_current. cbv zeta.
  set (sid := effective_session_id e req).
  destruct (bool_decide _ && negb _) eqn:G.
  - apply andb_true_iff in G as [G1%bool_decide_eq_true _].
    split; cbn [fst snd].
    + eauto.
    + intros rsp [= <-]. reflexivity.
    + congruence.
    + unfold state_of. fold sid. rewrite G1. discriminate.
  - pose proof (process_any e sid (original_message req)
                  (Py.strip (Py.lower (original_message req))) (current sessions sid)) as F.
    destruct (process _ _ _ _ _) as [st r]. cbn [fst snd] in *.
    destruct F as [F1 F2 F3].
    split; cbn [fst snd].
    + eauto.
    + exact F1.
    + rewrite state_of_insert, lookup_insert_eq, state_of_step_of. cbn [default]. exact F2.
    + rewrite state_of_insert, state_of_step_of. intros Hc.
      destruct (F3 Hc) as [-> ->]. cbn [sess out].
      rewrite step_of_ensured. auto.
Qed.

Lemma chat_with_ai_eq e req sessions :
  chat_with_ai e req sessions =
  ((chat_try e req sessions).1.1, (chat_try e req sessions).1.2,
   match (chat_try e req sessions).2 with
   | inr response => response
   | inl _ => resp (effective_session_id e req) reply_error
   end).
Proof. unfold chat_with_ai. destruct (chat_try e req sessions) as [[? ?] ?]. reflexivity. Qed.

(** ** Sequences of requests *)

Lemma observe_eq t sessions :
  observe t sessions =
  let sid := effective_session_id (turn_env t) (turn_request t) in
  let r := chat_with_ai (turn_env t) (turn_request t) sessions in
  (r.1.1,
   {| obs_session := sid;
      obs_message := original_message (turn_request t);
      obs_before := state_of sessions sid;
      obs_after := state_of r.1.1 sid;
      obs_record := default ∅ (r.1.1 !! sid);
      obs_events := r.1.2;
      obs_response := r.2 |}).
Proof.
  unfold observe. destruct (chat_with_ai _ _ _) as [[? ?] ?]. reflexivity.
Qed.

Lemma run_cons t turns sessions :
  run (t :: turns) sessions =
  ((run turns (observe t sessions).1).1,
   (observe t sessions).2 :: (run turns (observe t sessions).1).2).
Proof.
  cbn [run]. destruct (observe t sessions) as [s1 o]. cbn [fst snd].
  destruct (run turns s1) as [s2 os]. reflexivity.
Qed.

Lemma observe_good t sessions :
  store_inv sessions ->
  store_inv (observe t sessions).1 /\ good_obs (observe t sessions).2.
Proof.
  intros Hs. rewrite observe_eq. cbv zeta. cbn [fst snd].
  set (sid := effective_session_id (turn_env t) (turn_request t)).
  destruct (store_inv_current sessions sid Hs) as [i Hi].
  destruct (chat_with_ai_inv (turn_env t) (turn_request t) sessions i Hi)
    as (j & s' & evs & rsp & _ & -> & F).
  cbn [fst snd]. fold sid. split.
  - eapply store_inv_insert; [exact Hs|apply F].
  - exists (turn_env t), i, j, (current sessions sid). cbn.
    rewrite lookup_insert_eq, state_of_insert. cbn [default].
    split; [apply state_of_current, Hi|].
    split; [eapply step_of_inv, F|]. exact F.
Qed.

Lemma run_good turns sessions :
  store_inv sessions ->
  store_inv (run turns sessions).1 /\ Forall good_obs (run turns sessions).2.
Proof.
  revert sessions. induction turns as [|t turns IH]; intros sessions Hs.
  - split; [exact Hs|constructor].
  - rewrite run_cons. cbn [fst snd].
    destruct (observe_good t sessions Hs) as [Hs' Ho].
    destruct (IH _ Hs') as [Hs'' Hos]. split; [exact Hs''|constructor; assumption].
Qed.

Lemma calls_for_cons kind sid o os :
  calls_for kind sid (o :: os) =
  ((if bool_decide (obs_session o = sid) then List.filter kind (obs_events o) else [])
   ++ calls_for kind sid os)%list.
Proof.
  unfold calls_for. cbn [List.filter]. destruct (bool_decide _); [|reflexivity].
  cbn [map concat]. apply List.filter_app.
Qed.

Lemma dispatch_calls_once kind e s sid :
  kind = is_store_call \/ kind = is_insert \/ kind = is_notify ->
  length (List.filter kind (dispatch_calls e s sid)) <= 1.
Proof.
  unfold dispatch_calls, store_calls, notify_calls.
  intros [-> | [-> | ->]];
    destruct (storable e s), (stored e s), (webhook_configured e); cbn; lia.
Qed.

Lemma observe_facts t sessions :
  let e := turn_env t in
  let req := turn_request t in
  let o := (observe t sessions).2 in
  obs_session o = effective_session_id e req
  /\ obs_before o = state_of sessions (obs_session o)
  /\ obs_after o = state_of (observe t sessions).1 (obs_session o)
  /\ obs_record o = default ∅ ((observe t sessions).1 !! obs_session o)
  /\ obs_response o = (chat_with_ai e req sessions).2
  /\ request_facts e req sessions (observe t sessions).1 (obs_events o)
                   (chat_try e req sessions).2.
Proof.
  cbv zeta. rewrite observe_eq. cbv zeta. cbn [fst snd obs_session obs_before obs_after
    obs_record obs_events obs_response].
  do 5 (split; [reflexivity|]).
  rewrite chat_with_ai_eq. cbn [fst snd]. apply chat_try_any.
Qed.

Lemma observe_other t sessions sid :
  obs_session (observe t sessions).2 <> sid ->
  state_of (observe t sessions).1 sid = state_of sessions sid.
Proof.
  destruct (observe_facts t sessions) as (Hs & _ & _ & _ & _ & F). cbv zeta in *.
  intros Hne. destruct (rf_store _ _ _ _ _ _ F) as [s' ->].
  apply state_of_insert_ne. rewrite <- Hs. exact Hne.
Qed.

(** A completed session stays completed, whoever the request is for. *)
Lemma observe_completed t sessions sid :
  state_of sessions sid = PStr "completed" ->
  state_of (observe t sessions).1 sid = PStr "completed".
Proof.
  intros Hc. destruct (decide (obs_session (observe t sessions).2 = sid)) as [E|E].
  - destruct (observe_facts t sessions) as (Hs & _ & _ & _ & _ & F). cbv zeta in *.
    rewrite Hs in E. rewrite <- E in Hc |- *. apply (rf_completed _ _ _ _ _ _ F Hc).
  - rewrite observe_other by exact E. exact Hc.
Qed.

Lemma observe_quiet t sessions :
  obs_before (observe t sessions).2 = PStr "completed" ->
  obs_events (observe t sessions).2 = []
  /\ obs_response (observe t sessions).2
     = resp (obs_session (observe t sessions).2) reply_already_processed
  /\ obs_after (observe t sessions).2 = PStr "completed".
Proof.
  destruct (observe_facts t sessions) as (Hs & Hb & Ha & _ & Hr & F). cbv zeta in *.
  rewrite Hb, Hs. intros Hc. destruct (rf_completed _ _ _ _ _ _ F Hc) as (E1 & E2 & E3).
  split; [exact E1|]. split.
  - rewrite Hr, chat_with_ai_eq. cbn [snd]. rewrite E2. reflexivity.
  - rewrite Ha, ?Hs. exact E3.
Qed.

Lemma run_completed_quiet turns sessions sid :
  state_of sessions sid = PStr "completed" ->
  Forall (fun o => obs_session o = sid ->
                   obs_events o = []
                   /\ obs_response o = resp sid reply_already_processed
                   /\ obs_before o = PStr "completed"
                   /\ obs_after o = PStr "completed")
         (run turns sessions).2.
Proof.
  revert sessions. induction turns as [|t turns IH]; intros sessions Hc.
  - constructor.
  - rewrite run_cons. cbn [snd]. constructor.
    + intros E. destruct (observe_facts t sessions) as (_ & Hb & _). cbv zeta in Hb.
      assert (Hb' : obs_before (observe t sessions).2 = PStr "completed")
        by (rewrite Hb, E; exact Hc).
      destruct (observe_quiet t sessions Hb') as (E1 & E2 & E3).
      rewrite E in E2. auto.
    + apply IH. apply observe_completed, Hc.
Qed.

Lemma run_Forall (P : observation -> Prop) :
  (forall t sessions, P (observe t sessions).2) ->
  forall turns sessions, Forall P (run turns sessions).2.
Proof.
  intros HP turns. induction turns as [|t turns IH]; intros sessions.
  - constructor.
  - rewrite run_cons. constructor; [apply HP|apply IH].
Qed.

Lemma observe_dispatched t sessions :
  dispatched (observe t sessions).2 = true ->
  obs_before (observe t sessions).2 = PStr "asking_food_requirement"
  /\ obs_after (observe t sessions).2 = PStr "completed"
  /\ complete (obs_record (observe t sessions).2) = true
  /\ obs_events (observe t sessions).2
     = dispatch_calls (turn_env t) (obs_record (observe t sessions).2)
                      (obs_session (observe t sessions).2).
Proof.
  destruct (observe_facts t sessions) as (Hs & Hb & Ha & Hr & _ & F). cbv zeta in *.
  unfold dispatched. intros Hd.
  assert (Hne : obs_events (observe t sessions).2 <> [])
    by (destruct (obs_events _); [discriminate|congruence]).
  destruct (rf_calls _ _ _ _ _ _ F Hne) as (E1 & E2 & E3 & E4 & _).
  rewrite Hb, Ha, Hr, Hs. auto.
Qed.

Lemma calls_bound kind turns sessions sid :
  kind = is_store_call \/ kind = is_insert \/ kind = is_notify ->
  length (calls_for kind sid (run turns sessions).2) <= allowance sessions sid.
Proof.
  intros Hk. revert sessions. induction turns as [|t turns IH]; intros sessions.
  - cbn. lia.
  - rewrite run_cons. cbn [snd]. rewrite calls_for_cons, length_app.
    specialize (IH (observe t sessions).1). unfold allowance in *.
    case_bool_decide as E.
    + destruct (dispatched (observe t sessions).2) eqn:D.
      * destruct (observe_dispatched t sessions D) as (Hb & Ha & _ & He).
        rewrite He. pose proof (dispatch_calls_once kind (turn_env t)
          (obs_record (observe t sessions).2) (obs_session (observe t sessions).2) Hk).
        destruct (observe_facts t sessions) as (_ & Hb' & Ha' & _). cbv zeta in *.
        rewrite Hb', E in Hb. rewrite Ha', E in Ha.
        rewrite decide_True in IH by exact Ha.
        rewrite decide_False by congruence. lia.
      * unfold dispatched in D. destruct (obs_events _); [|discriminate]. cbn.
        repeat case_decide; try lia.
        exfalso. eauto using observe_completed.
    + cbn. repeat case_decide; try lia.
      exfalso. eauto using observe_completed.
Qed.

Lemma run_quiet_after turns sessions os1 o os2 :
  (run turns sessions).2 = (os1 ++ o :: os2)%list ->
  obs_after o = PStr "completed" ->
  Forall (fun o' => obs_session o' = obs_session o ->
                    obs_events o' = []
                    /\ obs_response o' = resp (obs_session o) reply_already_processed
                    /\ obs_after o' = PStr "completed") os2.
Proof.
  revert sessions os1. induction turns as [|t turns IH]; intros sessions os1 E Hc.
  - destruct os1; discriminate.
  - rewrite run_cons in E. cbn [snd] in E. destruct os1 as [|o1 os1].
    + injection E as <- <-.
      destruct (observe_facts t sessions) as (_ & _ & Ha & _). cbv zeta in Ha.
      rewrite Ha in Hc.
      eapply Forall_impl; [apply (run_completed_quiet turns _ _ Hc)|].
      cbn. intros o' H Ho'. destruct (H Ho') as (? & ? & ? & ?). auto.
    + injection E as _ E. eapply IH; eassumption.
Qed.

Lemma run_length turns sessions : length (run turns sessions).2 = length turns.
Proof.
  revert sessions. induction turns as [|t turns IH]; intros sessions; [reflexivity|].
  rewrite run_cons. cbn [snd length]. rewrite IH. reflexivity.
Qed.

Lemma obs_at_lookup i os : i < length os -> os !! i = Some (obs_at i os).
Proof.
  intros H. destruct (lookup_lt_is_Some_2 os i H) as [o Ho].
  unfold obs_at. rewrite Ho. reflexivity.
Qed.

Lemma obs_at_In i os : i < length os -> In (obs_at i os) os.
Proof.
  intros H. apply list_elem_of_In. eapply list_elem_of_lookup_2, obs_at_lookup, H.
Qed.

(** C1. In every conversation, from any session store: for each session
    the storage helper is entered, the row inserted and the notification
    sent at most once; a request makes outside calls only when it moves
    its session from asking_food_requirement to completed with name, age,
    location and food requirement all set; and after a request that left
    its session completed, no later request for that session makes any
    outside call. *)
Theorem fulfillment_at_most_once (turns : list turn)
    (sessions : gmap string (gmap string pyval)) :
  let os := (run turns sessions).2 in
  (forall sid,
      length (calls_for is_store_call sid os) <= 1
      /\ length (calls_for is_insert sid os) <= 1
      /\ length (calls_for is_notify sid os) <= 1)
  /\ (forall o, In o os -> dispatched o = true ->
        obs_before o = PStr "asking_food_requirement"
        /\ obs_after o = PStr "completed"
        /\ complete (obs_record o) = true)
  /\ (forall os1 o os2 o',
        os = (os1 ++ o :: os2)%list -> obs_after o = PStr "completed" ->
        In o' os2 -> obs_session o' = obs_session o -> dispatched o' = false).
Proof.
  cbv zeta. split; [|split].
  - intros sid.
    pose proof (calls_bound is_store_call turns sessions sid) as H1.
    pose proof (calls_bound is_insert turns sessions sid) as H2.
    pose proof (calls_bound is_notify turns sessions sid) as H3.
    unfold allowance in *. case_decide; (split; [|split]); auto with lia.
  - intros o Hin Hd.
    pose proof (run_Forall
      (fun o => dispatched o = true ->
                obs_before o = PStr "asking_food_requirement"
                /\ obs_after o = PStr "completed"
                /\ complete (obs_record o) = true)
      (fun t s D => match observe_dispatched t s D with
                    | conj B (conj A (conj C _)) => conj B (conj A C)
                    end) turns sessions) as F.
    rewrite List.Forall_forall in F. exact (F o Hin Hd).
  - intros os1 o os2 o' E Hc Hin Hs.
    pose proof (run_quiet_after turns sessions os1 o os2 E Hc) as F.
    rewrite List.Forall_forall in F. destruct (F o' Hin Hs) as (Hev & _).
    unfold dispatched. rewrite Hev. reflexivity.
Qed.

Lemma fulfillment_at_most_once_witness :
  let os := (run scenario_and_more ∅).2 in
  (dispatched (obs_at 6 os) = true
   /\ obs_before (obs_at 6 os) = PStr "asking_food_requirement"
   /\ obs_after (obs_at 6 os) = PStr "completed"
   /\ complete (obs_record (obs_at 6 os)) = true)
  /\ (obs_session (obs_at 7 os) = obs_session (obs_at 6 os)
      /\ dispatched (obs_at 7 os) = false)
  /\ length (calls_for is_store_call "session-1" os) <= 1.
Proof.
  cbv zeta.
  assert (Hlen : length (run scenario_and_more ∅).2 = 8) by apply run_length.
  destruct (fulfillment_at_most_once scenario_and_more ∅) as (H1 & H2 & H3).
  assert (Hd : dispatched (obs_at 6 (run scenario_and_more ∅).2) = true)
    by (vm_compute; reflexivity).
  assert (Hs : obs_session (obs_at 7 (run scenario_and_more ∅).2)
               = obs_session (obs_at 6 (run scenario_and_more ∅).2))
    by (vm_compute; reflexivity).
  assert (H6 : 6 < length (run scenario_and_more ∅).2) by (rewrite Hlen; lia).
  assert (H7 : 7 < length (run scenario_and_more ∅).2) by (rewrite Hlen; lia).
  destruct (H2 _ (obs_at_In 6 _ H6) Hd) as (B & A & C).
  split; [exact (conj Hd (conj B (conj A C)))|].
  split; [|exact (proj1 (H1 "session-1"))]. split; [exact Hs|].
  apply (H3 (take 6 (run scenario_and_more ∅).2) (obs_at 6 (run scenario_and_more ∅).2)
            (drop 7 (run scenario_and_more ∅).2)).
  - symmetry. apply take_drop_middle, obs_at_lookup, H6.
  - exact A.
  - apply list_elem_of_In. apply (list_elem_of_lookup_2 _ 0).
    rewrite lookup_drop. apply obs_at_lookup, H7.
  - exact Hs.
Defined.

(** C7. Once a session is completed, every later request for it, whatever
    its message, gets the same "already processed" reply, makes no outside
    call and leaves the session completed. *)
Theorem completed_session_is_idempotent (turns : list turn)
    (sessions : gmap string (gmap string pyval)) (sid : string) :
  state_of sessions sid = PStr "completed" ->
  Forall (fun o => obs_session o = sid ->
            obs_events o = []
            /\ obs_response o
               = {| reply := reply_already_processed; reply_session_id := Some sid |}
            /\ obs_after o = PStr "completed")
         (run turns sessions).2.
Proof.
  intros Hc. eapply Forall_impl; [apply (run_completed_quiet turns sessions sid Hc)|].
  cbn. intros o H Ho. destruct (H Ho) as (? & ? & ? & ?). auto.
Qed.

Lemma completed_session_is_idempotent_witness :
  state_of (run scenario ∅).1 "session-1" = PStr "completed"
  /\ Forall (fun o => obs_session o = "session-1" ->
               obs_events o = []
               /\ obs_response o
                  = {| reply := reply_already_processed;
                       reply_session_id := Some "session-1" |}
               /\ obs_after o = PStr "completed")
            (run [say "session-1" ""; say "session-1" "one more request, please"]
                 (run scenario ∅).1).2.
Proof.
  assert (H : state_of (run scenario ∅).1 "session-1" = PStr "completed")
    by (vm_compute; reflexivity).
  split; [exact H|].
  exact (completed_session_is_idempotent _ _ _ H).
Defined.

Lemma state_name_inj i j : i <= 5 -> j <= 5 -> state_name i = state_name j -> i = j.
Proof.
  intros Hi Hj.
  destruct i as [|[|[|[|[|[|i]]]]]]; try lia;
    destruct j as [|[|[|[|[|[|j]]]]]]; try lia; cbn; congruence.
Qed.

Lemma inv_state i s k :
  inv i s -> k <= 5 -> step_of s = PStr (state_name k) -> i = k.
Proof.
  intros H Hk E. rewrite (step_of_inv _ _ H) in E.
  injection E as E. eapply state_name_inj; eauto using inv_rank.
Qed.

Lemma name_ok_has_value s : name_ok s -> has_value s "person_name" = true.
Proof. intros (n & H & _). unfold has_value, dget. rewrite H. reflexivity. Qed.

Lemma age_ok_has_value s : age_ok s -> has_value s "age" = true.
Proof. intros (n & H & _). unfold has_value, dget. rewrite H. reflexivity. Qed.

Lemma location_ok_has_value s : location_ok s -> has_value s "location" = true.
Proof. intros (n & H & _). unfold has_value, dget. rewrite H. reflexivity. Qed.

Lemma food_ok_has_value s : food_ok s -> has_value s "food_requirement" = true.
Proof. intros (n & H & _). unfold has_value, dget. rewrite H. reflexivity. Qed.

Lemma inv_food_state s i :
  inv i s -> 4 <= i ->
  has_value s "person_name" = true /\ has_value s "age" = true
  /\ has_value s "location" = true.
Proof.
  intros H Hi.
  split; [apply name_ok_has_value, (inv_name _ _ H); lia|].
  split; [apply age_ok_has_value, (inv_age _ _ H); lia|].
  apply location_ok_has_value, (inv_location _ _ H); lia.
Qed.

Lemma inv_complete s : inv 5 s -> complete s = true.
Proof.
  intros H. destruct (inv_food_state s 5 H) as (H1 & H2 & H3); [lia|].
  unfold complete. rewrite H1, H2, H3, (food_ok_has_value s); [reflexivity|].
  apply (inv_food _ _ H). lia.
Qed.

(** C10. In every conversation that starts from an empty store: a
    session that is in asking_food_requirement has name, age and location
    set; the "some information is missing" reply is never given; and a
    session that becomes completed has all four fields set. *)
Theorem food_state_has_all_fields (turns : list turn) :
  let sessions := (run turns ∅).1 in
  let os := (run turns ∅).2 in
  (forall sid s, sessions !! sid = Some s ->
      step_of s = PStr "asking_food_requirement" ->
      has_value s "person_name" = true /\ has_value s "age" = true
      /\ has_value s "location" = true)
  /\ (forall o, In o os -> obs_after o = PStr "asking_food_requirement" ->
        has_value (obs_record o) "person_name" = true
        /\ has_value (obs_record o) "age" = true
        /\ has_value (obs_record o) "location" = true)
  /\ (forall o, In o os -> reply (obs_response o) <> reply_missing)
  /\ (forall o, In o os -> obs_after o = PStr "completed" ->
        complete (obs_record o) = true).
Proof.
  cbv zeta. destruct (run_good turns ∅ store_inv_empty) as [Hs Hos].
  rewrite List.Forall_forall in Hos.
  split; [|split; [|split]].
  - intros sid s E Hst. destruct (Hs sid s E) as [i Hi].
    assert (i = 4) by (eapply (inv_state i s 4); eauto). subst i.
    apply (inv_food_state s 4 Hi). lia.
  - intros o Hin Ha. destruct (Hos o Hin) as (e & i & j & s & _ & Hj & F).
    pose proof (sf_inv _ _ _ _ _ _ _ _ _ F) as Hi.
    rewrite Ha in Hj. injection Hj as Hj.
    assert (j = 4) by (symmetry; eapply (state_name_inj 4 j); eauto using inv_rank).
    subst j. apply (inv_food_state _ 4 Hi). lia.
  - intros o Hin. destruct (Hos o Hin) as (e & i & j & s & _ & _ & F).
    apply (sf_not_missing _ _ _ _ _ _ _ _ _ F).
  - intros o Hin Ha. destruct (Hos o Hin) as (e & i & j & s & _ & Hj & F).
    pose proof (sf_inv _ _ _ _ _ _ _ _ _ F) as Hi.
    rewrite Ha in Hj. injection Hj as Hj.
    assert (j = 5) by (symmetry; eapply (state_name_inj 5 j); eauto using inv_rank).
    subst j. apply inv_complete, Hi.
Qed.

Lemma lookup_default_Some (sessions : gmap string (gmap string pyval)) sid :
  bool_decide (is_Some (sessions !! sid)) = true ->
  sessions !! sid = Some (default ∅ (sessions !! sid)).
Proof.
  intros [s H]%bool_decide_eq_true. rewrite H. reflexivity.
Qed.

Lemma food_state_has_all_fields_witness :
  let sessions := (run (take 6 scenario) ∅).1 in
  let os := (run scenario ∅).2 in
  (step_of (default ∅ (sessions !! "session-1")) = PStr "asking_food_requirement"
   /\ has_value (default ∅ (sessions !! "session-1")) "person_name" = true
   /\ has_value (default ∅ (sessions !! "session-1")) "age" = true
   /\ has_value (default ∅ (sessions !! "session-1")) "location" = true)
  /\ (obs_after (obs_at 5 os) = PStr "asking_food_requirement"
      /\ has_value (obs_record (obs_at 5 os)) "location" = true)
  /\ (obs_after (obs_at 6 os) = PStr "completed"
      /\ complete (obs_record (obs_at 6 os)) = true
      /\ reply (obs_response (obs_at 6 os)) <> reply_missing).
Proof.
  cbv zeta.
  assert (Hlen : length (run scenario ∅).2 = 7) by apply run_length.
  assert (H5 : 5 < length (run scenario ∅).2) by (rewrite Hlen; lia).
  assert (H6 : 6 < length (run scenario ∅).2) by (rewrite Hlen; lia).
  destruct (food_state_has_all_fields (take 6 scenario)) as (A & _ & _ & _).
  destruct (food_state_has_all_fields scenario) as (_ & B & C & D).
  assert (E1 : (run (take 6 scenario) ∅).1 !! "session-1"
               = Some (default ∅ ((run (take 6 scenario) ∅).1 !! "session-1")))
    by (apply lookup_default_Some; vm_compute; reflexivity).
  assert (E2 : step_of (default ∅ ((run (take 6 scenario) ∅).1 !! "session-1"))
               = PStr "asking_food_requirement") by (vm_compute; reflexivity).
  assert (E3 : obs_after (obs_at 5 (run scenario ∅).2) = PStr "asking_food_requirement")
    by (vm_compute; reflexivity).
  assert (E4 : obs_after (obs_at 6 (run scenario ∅).2) = PStr "completed")
    by (vm_compute; reflexivity).
  split; [exact (conj E2 (A _ _ E1 E2))|]. split.
  - split; [exact E3|]. exact (proj2 (proj2 (B _ (obs_at_In 5 _ H5) E3))).
  - split; [exact E4|]. split; [exact (D _ (obs_at_In 6 _ H6) E4)|].
    exact (C _ (obs_at_In 6 _ H6)).
Defined.



Lemma current_insert sessions sid s :
  current (<[sid := s]> sessions) sid = s.
Proof. unfold current. rewrite lookup_insert_eq. reflexivity. Qed.

Lemma current_insert_ne sessions sid sid' s :
  sid <> sid' -> current (<[sid := s]> sessions) sid' = current sessions sid'.
Proof. intros H. unfold current. rewrite lookup_insert_ne by exact H. reflexivity. Qed.

(** One request: the store afterwards, and what it shows, in terms of
    the invariant. *)
Lemma observe_inv t sessions :
  store_inv sessions ->
  exists i j s',
    inv i (current sessions (obs_session (observe t sessions).2))
    /\ (observe t sessions).1 = <[obs_session (observe t sessions).2 := s']> sessions
    /\ obs_before (observe t sessions).2 = PStr (state_name i)
    /\ obs_after (observe t sessions).2 = PStr (state_name j)
    /\ step_facts (turn_env t) (obs_session (observe t sessions).2)
                  (obs_message (observe t sessions).2) i
                  (current sessions (obs_session (observe t sessions).2)) j s'
                  (obs_events (observe t sessions).2)
                  (obs_response (observe t sessions).2).
Proof.
  intros Hs. rewrite observe_eq. cbv zeta. cbn [fst snd obs_session obs_message obs_before
    obs_after obs_events obs_response].
  set (sid := effective_session_id (turn_env t) (turn_request t)).
  destruct (store_inv_current sessions sid Hs) as [i Hi].
  destruct (chat_with_ai_inv (turn_env t) (turn_request t) sessions i Hi)
    as (j & s' & evs & rsp & _ & -> & F).
  cbn [fst snd]. fold sid. exists i, j, s'.
  rewrite state_of_insert.
  split; [exact Hi|]. split; [reflexivity|].
  split; [apply state_of_current, Hi|].
  split; [eapply step_of_inv, F|]. exact F.
Qed.








Lemma chat_with_ai_asking_age e req sessions :
  let sid := effective_session_id e req in
  let s := current sessions sid in
  store_inv sessions ->
  state_of sessions sid = PStr "asking_age" ->
  inv 2 s
  /\ chat_with_ai e req sessions =
     let '(st, r) := on_asking_age sid (user_msg req) {| sess := s; out := [] |} in
     (<[sid := sess st]> sessions, out st,
      match r with inr rsp => rsp | inl _ => resp sid reply_error end).
Proof.
  cbv zeta. intros Hs Hst.
  set (sid := effective_session_id e req) in *.
  destruct (store_inv_current sessions sid Hs) as [i Hi].
  assert (i = 2).
  { eapply (inv_state i _ 2); eauto. rewrite <- state_of_step_of. exact Hst. }
  subst i. split; [exact Hi|].
  unfold chat_with_ai. rewrite chat_try_current. cbv zeta. fold sid.
  assert (Hex : sessions !! sid <> None).
  { intros E. unfold state_of in Hst. rewrite E in Hst. discriminate. }
  rewrite bool_decide_false by exact Hex. cbn [andb].
  rewrite process_eq, (ensured_inv _ _ Hi), (step_of_inv _ _ Hi).
  rewrite (dispatch_state_name _ _ _ _ 2) by lia.
  fold (user_msg req).
  destruct (on_asking_age sid (user_msg req) _) as [st r]. reflexivity.
Qed.




(** From an empty store the [try] block never raises. *)
Lemma chat_try_returns turns e req :
  exists rsp, (chat_try e req (run turns ∅).1).2 = inr rsp.
Proof.
  destruct (run_good turns ∅ store_inv_empty) as [Hs _].
  destruct (store_inv_current _ (effective_session_id e req) Hs) as [i Hi].
  destruct (chat_with_ai_inv e req _ i Hi) as (j & s' & evs & rsp & -> & _).
  eauto.
Qed.

(** C9. The endpoint answers every request with a response that carries
    the session identifier; when the handler's [try] block raises, the
    response is the apology, and what the block had written to the
    session stays written; otherwise it is the block's own response. *)
Theorem faults_become_apologies (e : env) (chat_request : ChatRequest)
    (sessions : gmap string (gmap string pyval)) :
  let r := Main.chat e chat_request sessions in
  let body := chat_try e chat_request sessions in
  r = chat_with_ai e chat_request sessions
  /\ reply_session_id r.2 = Some (effective_session_id e chat_request)
  /\ (forall x, body.2 = inl x ->
        reply r.2 = reply_error /\ r.1.1 = body.1.1 /\ r.1.2 = body.1.2)
  /\ (forall response, body.2 = inr response -> r.2 = response).
Proof.
  cbv zeta.
  assert (E : Main.chat e chat_request sessions = chat_with_ai e chat_request sessions).
  { unfold Main.chat, Main.await_handler.
    destruct (chat_with_ai e chat_request sessions) as [[? ?] ?]. reflexivity. }
  rewrite E, chat_with_ai_eq. cbn [fst snd].
  pose proof (chat_try_any e chat_request sessions) as F.
  split; [reflexivity|]. split; [|split].
  - destruct (chat_try e chat_request sessions).2 as [x|rsp] eqn:Er.
    + reflexivity.
    + apply (rf_session _ _ _ _ _ _ F). reflexivity.
  - intros x ->. auto.
  - intros rsp ->. reflexivity.
Qed.

Lemma faults_become_apologies_witness :
  let chat_request := {| message := Some "rice"; session_id := Some "session-9" |} in
  let r := Main.chat env_ok chat_request damaged_store in
  let body := chat_try env_ok chat_request damaged_store in
  body.2 = inl (KeyError "assistance_type")
  /\ reply r.2 = reply_error /\ r.1.1 = body.1.1 /\ r.1.2 = body.1.2.
Proof.
  cbv zeta.
  assert (H : (chat_try env_ok {| message := Some "rice"; session_id := Some "session-9" |}
                 damaged_store).2 = inl (KeyError "assistance_type"))
    by (vm_compute; reflexivity).
  split; [exact H|].
  exact (proj1 (proj2 (proj2 (faults_become_apologies env_ok
           {| message := Some "rice"; session_id := Some "session-9" |} damaged_store)))
           _ H).
Defined.

(** ** The dispatchers *)

Lemma stored_true e d :
  stored e d = true -> supabase_configured e = true /\ insert_result e = InsertData.
Proof.
  unfold stored, storable. destruct (supabase_configured e); [|discriminate].
  destruct (insert_result e); rewrite ?andb_false_r; try discriminate. auto.
Qed.

Lemma notified_dispatch_calls e s sid :
  notified (dispatch_calls e s sid) = stored e s.
Proof.
  unfold dispatch_calls, store_calls, notify_calls, notified.
  destruct (storable e s), (stored e s), (webhook_configured e); reflexivity.
Qed.

(** What the graph variant's dispatcher amounts to. *)
Lemma trigger_fulfillment_calls e state assistance_type :
  exists row data,
    calls (Graph.trigger_fulfillment e state assistance_type)
    = ((if supabase_configured e then [EvInsert row] else []) ++ notify_calls e data,
       inr tt)%list.
Proof.
  unfold calls, Graph.trigger_fulfillment.
  unfold mbind, M_bind, bind, try_except, emit, mret, M_ret, ret, raise.
  eexists _, _.
  destruct (supabase_configured e); cbn [sess out].
  - destruct (insert_result e); cbn [sess out];
      rewrite trigger_fulfillment_notification_run; cbn [sess out app]; reflexivity.
  - rewrite trigger_fulfillment_notification_run. cbn [sess out app]. reflexivity.
Qed.

Lemma notified_app evs1 evs2 : notified (evs1 ++ evs2) = notified evs1 || notified evs2.
Proof. apply existsb_app. Qed.

(** C6, amended. In the chat handler a notification is sent only when
    the storage call reported success, that is, storage is configured and
    the insert returned data; whenever the handler reaches the
    dispatcher its [try] block returns normally, with the confirmation
    followed by the success suffix when storage succeeded and by the
    degraded-service suffix when it did not.  The graph variant's
    dispatcher also returns normally, but sends its notification
    whatever became of the storage call. *)
Theorem notification_follows_storage :
  (forall e chat_request sessions,
      let r := chat_with_ai e chat_request sessions in
      let sid := effective_session_id e chat_request in
      let record := default ∅ (r.1.1 !! sid) in
      (notified r.1.2 = true ->
       supabase_configured e = true /\ insert_result e = InsertData)
      /\ (r.1.2 <> [] ->
          notified r.1.2 = stored e record
          /\ (chat_try e chat_request sessions).2 = inr r.2
          /\ reply r.2 = reply_confirmed (format (dget record "person_name"))
                         ++ (if stored e record then suffix_saved else suffix_not_saved)))
  /\ (forall e state assistance_type,
        let r := calls (Graph.trigger_fulfillment e state assistance_type) in
        notified r.1 = true /\ r.2 = inr tt).
Proof.
  split.
  - intros e req sessions. cbv zeta. rewrite chat_with_ai_eq. cbn [fst snd].
    pose proof (chat_try_any e req sessions) as F.
    assert (G : (chat_try e req sessions).1.2 <> [] ->
                notified (chat_try e req sessions).1.2
                = stored e (default ∅ ((chat_try e req sessions).1.1
                                        !! effective_session_id e req))
                /\ (chat_try e req sessions).2
                   = inr (resp (effective_session_id e req)
                            (reply_confirmed
                               (format (dget (default ∅ ((chat_try e req sessions).1.1
                                                 !! effective_session_id e req))
                                             "person_name"))
                             ++ (if stored e (default ∅ ((chat_try e req sessions).1.1
                                                 !! effective_session_id e req))
                                 then suffix_saved else suffix_not_saved)))).
    { intros Hne. destruct (rf_calls _ _ _ _ _ _ F Hne) as (_ & _ & _ & He & Hr).
      split; [|exact Hr]. rewrite He at 1. apply notified_dispatch_calls. }
    split.
    + intros Hn.
      assert (Hne : (chat_try e req sessions).1.2 <> [])
        by (intros E; rewrite E in Hn; discriminate).
      destruct (G Hne) as [E _]. rewrite E in Hn. apply (stored_true _ _ Hn).
    + intros Hne. destruct (G Hne) as [E Hr]. rewrite Hr. auto.
  - intros e state assistance_type. cbv zeta.
    destruct (trigger_fulfillment_calls e state assistance_type) as (row & data & ->).
    cbn [fst snd]. split; [|reflexivity].
    rewrite notified_app. unfold notify_calls. cbn. apply orb_true_r.
Qed.

(** C6 as stated fails for the graph variant: with the storage client
    raising, its dispatcher still sends the notification. *)
Lemma notify_needs_storage_counterexample : ~ notify_needs_storage.
Proof.
  intros [_ H].
  destruct (H env_storage_down collected_state "immediate") as [_ E].
  - vm_compute. reflexivity.
  - discriminate.
Qed.

Lemma notification_follows_storage_witness :
  let chat_request := turn_request (say "session-1" "rice and beans") in
  let sessions := (run (take 6 scenario) ∅).1 in
  let r := chat_with_ai env_storage_down chat_request sessions in
  let record := default ∅ (r.1.1 !! "session-1") in
  r.1.2 <> []
  /\ notified r.1.2 = false
  /\ (chat_try env_storage_down chat_request sessions).2 = inr r.2
  /\ reply r.2 = reply_confirmed (format (dget record "person_name"))
                 ++ (if stored env_storage_down record then suffix_saved
                     else suffix_not_saved).
Proof.
  cbv zeta.
  assert (H : (chat_with_ai env_storage_down
                 (turn_request (say "session-1" "rice and beans"))
                 (run (take 6 scenario) ∅).1).1.2 <> [])
    by (vm_compute; discriminate).
  assert (N : notified (chat_with_ai env_storage_down
                 (turn_request (say "session-1" "rice and beans"))
                 (run (take 6 scenario) ∅).1).1.2 = false)
    by (vm_compute; reflexivity).
  split; [exact H|]. split; [exact N|].
  exact (proj2 (proj2 (proj1 notification_follows_storage env_storage_down
                         (turn_request (say "session-1" "rice and beans"))
                         (run (take 6 scenario) ∅).1) H)).
Defined.

Lemma age_from_patterns_first_accepted ps text :
  age_from_patterns ps text
  = first_accepted (map (fun p => captured_number p text) ps).
Proof.
  induction ps as [|p ps IH]; [reflexivity|].
  cbn [age_from_patterns map first_accepted]. unfold captured_number at 1.
  destruct (Re.search true p text); [|exact IH].
  destruct (in_age_range _); [reflexivity|exact IH].
Qed.

(** C3. The three examples; a result is always a number from 1 to 120;
    and the result is the number captured by the first of the three
    patterns, in order, whose capture lies in that range: a pattern that
    does not match, or captures a number outside the range, passes the
    text on to the next pattern. *)
Theorem extract_age_spec :
  extract_age "I am 45 years old" = Some 45%Z
  /\ extract_age "I am 200 years old" = None
  /\ extract_age "no idea" = None
  /\ (forall text n, extract_age text = Some n -> (1 <= n <= 120)%Z)
  /\ (forall text,
        extract_age text
        = first_accepted (map (fun p => captured_number p text) age_patterns))
  /\ (forall p ps text,
        (forall n, captured_number p text = Some n -> ~ (1 <= n <= 120)%Z) ->
        age_from_patterns (p :: ps) text = age_from_patterns ps text).
Proof.
  split; [vm_compute; reflexivity|]. split; [vm_compute; reflexivity|].
  split; [vm_compute; reflexivity|]. split; [|split].
  - intros text n. apply age_from_patterns_range.
  - intros text. apply age_from_patterns_first_accepted.
  - intros p ps text H. rewrite !age_from_patterns_first_accepted.
    cbn [map first_accepted]. destruct (captured_number p text) as [n|]; [|reflexivity].
    destruct (in_age_range n) eqn:E; [|reflexivity].
    exfalso. apply (H n eq_refl). apply in_age_range_spec, E.
Qed.

Lemma extract_age_spec_witness :
  (extract_age "I am 45 years old" = Some 45%Z /\ (1 <= 45 <= 120)%Z)
  /\ (captured_number (nth 0 age_patterns Re.Eps) "5 I am 200" = Some 200%Z
      /\ age_from_patterns age_patterns "5 I am 200"
         = age_from_patterns (tl age_patterns) "5 I am 200"
      /\ extract_age "5 I am 200" = Some 5%Z).
Proof.
  destruct extract_age_spec as (E & _ & _ & R & _ & F).
  split; [exact (conj E (R _ _ E))|].
  assert (C : captured_number (nth 0 age_patterns Re.Eps) "5 I am 200" = Some 200%Z)
    by (vm_compute; reflexivity).
  split; [exact C|]. split; [|vm_compute; reflexivity].
  apply (F (nth 0 age_patterns Re.Eps) (tl age_patterns) "5 I am 200").
  intros n Hn. rewrite C in Hn. injection Hn as <-. lia.
Defined.

Section engine.

Context (icase : bool).

Lemma rep_sound s rest : forall lo hi pre k m,
  rep icase s lo hi pre rest k = Some m ->
  exists cs rest',
    rest = (cs ++ rest')%list /\ forallb (cset_mem icase s) cs = true
    /\ lo <= length cs /\ hi_ok hi (length cs)
    /\ k (rev cs ++ pre)%list rest' = Some m.
Proof.
  induction rest as [|c rest IH]; intros lo hi pre k m H; cbn [rep] in H.
  - destruct lo; [|discriminate]. exists [], []. cbn.
    destruct hi; cbn; repeat split; auto with lia.
  - assert (Hstop : match lo with 0 => k pre (c :: rest) | S _ => None end = Some m ->
                    exists cs rest', c :: rest = (cs ++ rest')%list
                      /\ forallb (cset_mem icase s) cs = true
                      /\ lo <= length cs /\ hi_ok hi (length cs)
                      /\ k (rev cs ++ pre)%list rest' = Some m).
    { destruct lo; [|discriminate]. intros Hk. exists [], (c :: rest). cbn.
      destruct hi; cbn; repeat split; auto with lia. }
    destruct (cset_mem icase s c && hi_allows hi) eqn:E; [|auto].
    apply andb_true_iff in E as [Ec Eh].
    destruct (rep icase s (Nat.pred lo) (hi_pred hi) (c :: pre) rest k) as [m'|] eqn:R;
      [|auto].
    injection H as ->.
    destruct (IH _ _ _ _ _ R) as (cs & rest' & -> & Hcs & Hlo & Hhi & Hk).
    exists (c :: cs), rest'. cbn [app forallb length rev]. rewrite Ec, Hcs.
    rewrite <- app_assoc. cbn [app].
    repeat split; auto with lia.
    destruct hi as [[|h]|]; cbn in *; try discriminate; auto with lia.
Qed.


Lemma go_sound r : forall pre rest cap k m,
  go icase r pre rest cap k = Some m ->
  exists pre' rest' cap',
    Matches icase r pre rest cap pre' rest' cap' /\ k pre' rest' cap' = Some m.
Proof.
  induction r as [|s| | | |r1 IH1 r2 IH2|r1 IH1 r2 IH2|r1 IH1|s lo hi|r1 IH1];
    intros pre rest cap k m H; cbn [go] in H; cbn [Matches].
  - eauto 10.
  - destruct rest as [|c rest]; [discriminate|].
    destruct (cset_mem icase s c) eqn:E; [|discriminate]. eauto 10.
  - destruct pre; [|discriminate]. eauto 10.
  - destruct rest as [|c [|c' rest]]; try discriminate; [eauto 10|].
    destruct (Ascii.eqb_spec c newline) as [->|]; [|discriminate]. eauto 10.
  - destruct (xorb _ _) eqn:E; [|discriminate]. eauto 10.
  - destruct (IH1 _ _ _ _ _ H) as (p & q & c & M1 & H2).
    destruct (IH2 _ _ _ _ _ H2) as (p' & q' & c' & M2 & Hk). eauto 10.
  - destruct (go icase r1 pre rest cap k) as [m1|] eqn:E1.
    + injection H as ->. destruct (IH1 _ _ _ _ _ E1) as (p & q & c & M1 & Hk). eauto 10.
    + destruct (IH2 _ _ _ _ _ H) as (p & q & c & M2 & Hk). eauto 10.
  - destruct (go icase r1 pre rest cap k) as [m1|] eqn:E1.
    + injection H as ->. destruct (IH1 _ _ _ _ _ E1) as (p & q & c & M1 & Hk). eauto 10.
    + eauto 10.
  - destruct (rep_sound _ _ _ _ _ _ _ H) as (cs & rest' & -> & Hcs & Hlo & Hhi & Hk).
    eauto 12.
  - destruct (IH1 _ _ _ _ _ H) as (p & q & c & M1 & Hk). eauto 10.
Qed.


(** A match consumes a piece of the text in front of the position. *)
Lemma Matches_consumes r : forall pre rest cap pre' rest' cap',
  Matches icase r pre rest cap pre' rest' cap' ->
  exists cs, rest = (cs ++ rest')%list /\ pre' = (rev cs ++ pre)%list.
Proof.
  induction r as [|s| | | |r1 IH1 r2 IH2|r1 IH1 r2 IH2|r1 IH1|s lo hi|r1 IH1];
    intros pre rest cap pre' rest' cap' M; cbn [Matches] in M.
  - destruct M as (-> & -> & ->). exists []. auto.
  - destruct M as (c & -> & E & -> & ->). exists [c]. auto.
  - destruct M as (_ & -> & -> & ->). exists []. auto.
  - destruct M as (_ & -> & -> & ->). exists []. auto.
  - destruct M as (_ & -> & -> & ->). exists []. auto.
  - destruct M as (p & q & c & M1 & M2).
    destruct (IH1 _ _ _ _ _ _ M1) as (cs1 & -> & ->).
    destruct (IH2 _ _ _ _ _ _ M2) as (cs2 & -> & ->).
    exists (cs1 ++ cs2)%list. rewrite rev_app_distr, <- !app_assoc. auto.
  - destruct M as [M|M]; eauto.
  - destruct M as [M|(-> & -> & ->)]; [eauto|]. exists []. auto.
  - destruct M as (cs & -> & -> & _). eauto.
  - destruct M as (c & M & _). eauto.
Qed.

Lemma span_app cs pre : span pre (rev cs ++ pre)%list = cs.
Proof.
  unfold span. rewrite length_app, length_rev.
  replace (length cs + length pre - length pre) with (length (rev cs))
    by (rewrite length_rev; lia).
  rewrite firstn_app, Nat.sub_diag, firstn_all. cbn [firstn].
  rewrite app_nil_r. apply rev_involutive.
Qed.

Lemma search_from_sound r rest : forall pre m,
  search_from icase r pre rest = Some m ->
  exists skipped rest0 pre' cap',
    rest = (skipped ++ rest0)%list
    /\ Matches icase r (rev skipped ++ pre)%list rest0 None pre' (after m) cap'
    /\ group1 m = cap'
    /\ group0 m = span (rev skipped ++ pre)%list pre'.
Proof.
  induction rest as [|c rest IH]; intros pre m H; cbn [search_from] in H.
  - unfold match_at in H.
    destruct (go icase r pre [] None _) as [[[p q] c]|] eqn:G; [|discriminate].
    injection H as <-.
    destruct (go_sound _ _ _ _ _ _ G) as (p' & q' & c' & M & [= -> -> ->]).
    exists [], [], p, c. cbn. auto.
  - unfold match_at in H.
    destruct (go icase r pre (c :: rest) None _) as [[[p q] c0]|] eqn:G.
    + injection H as <-.
      destruct (go_sound _ _ _ _ _ _ G) as (p' & q' & c' & M & [= -> -> ->]).
      exists [], (c :: rest), p, c0. cbn. auto.
    + destruct (IH _ _ H) as (sk & rest0 & p' & c' & -> & M & E1 & E0).
      exists (c :: sk), rest0, p', c'. cbn [rev app]. rewrite <- app_assoc. auto.
Qed.


End engine.

Lemma letter_not_space c : ascii_letter c = true -> Py.isspace c = false.
Proof.
  destruct c as [[] [] [] [] [] [] [] []]; vm_compute; congruence.
Qed.

Lemma upper_range_icase c : cset_mem true (CRng "A" "Z") c = ascii_letter c.
Proof. destruct c as [[] [] [] [] [] [] [] []]; vm_compute; reflexivity. Qed.

Lemma lower_range_icase c : cset_mem true (CRng "a" "z") c = ascii_letter c.
Proof. destruct c as [[] [] [] [] [] [] [] []]; vm_compute; reflexivity. Qed.

Lemma forallb_ext_eq {A} (f g : A -> bool) l :
  (forall x, f x = g x) -> forallb f l = forallb g l.
Proof. intros H. induction l as [|x l IH]; cbn; [reflexivity|]. rewrite H, IH. reflexivity. Qed.

Lemma chars_str l : Py.chars (Py.str l) = l.
Proof. apply list_ascii_of_string_of_list_ascii. Qed.

Lemma str_chars s : Py.str (Py.chars s) = s.
Proof. apply string_of_list_ascii_of_string. Qed.

(** Splitting *)

Lemma split_chars_word w : forall cur l,
  forallb ascii_letter w = true ->
  Py.split_chars cur (w ++ l)%list = Py.split_chars (rev w ++ cur)%list l.
Proof.
  induction w as [|c w IH]; intros cur l H; [reflexivity|].
  cbn [forallb] in H. apply andb_true_iff in H as [Hc Hw].
  cbn [app Py.split_chars rev]. rewrite (letter_not_space _ Hc), IH by exact Hw.
  rewrite <- app_assoc. reflexivity.
Qed.

Lemma split_chars_blanks_nil ws : forall l,
  forallb Py.isspace ws = true ->
  Py.split_chars [] (ws ++ l)%list = Py.split_chars [] l.
Proof.
  induction ws as [|c ws IH]; intros l H; [reflexivity|].
  cbn [forallb] in H. apply andb_true_iff in H as [Hc Hw].
  cbn [app Py.split_chars]. rewrite Hc. apply IH, Hw.
Qed.

Lemma split_chars_blanks ws cur l :
  blanks ws -> cur <> [] ->
  Py.split_chars cur (ws ++ l)%list = rev cur :: Py.split_chars [] l.
Proof.
  intros [Hlen H] Hcur. destruct ws as [|c ws]; [cbn in Hlen; lia|].
  cbn [forallb] in H. apply andb_true_iff in H as [Hc Hw].
  cbn [app Py.split_chars]. rewrite Hc. destruct cur; [congruence|].
  rewrite split_chars_blanks_nil by exact Hw. reflexivity.
Qed.

Lemma word_nonempty w : word w -> w <> [].
Proof. intros [H _] ->. cbn in H. lia. Qed.

Lemma split_chars_one w : word w -> Py.split_chars [] w = [w].
Proof.
  intros Hw. pose proof (word_nonempty _ Hw) as Hne. destruct Hw as [_ Hl].
  rewrite <- (app_nil_r w) at 1. rewrite split_chars_word by exact Hl.
  cbn [Py.split_chars]. rewrite app_nil_r.
  destruct (rev w) eqn:E; [|rewrite <- E, rev_involutive; reflexivity].
  apply (f_equal (@rev ascii)) in E. rewrite rev_involutive in E. contradiction.
Qed.

Lemma name_shape_words g : name_shape g -> length (Py.split_chars [] g) <= 2.
Proof.
  intros [Hw|(w1 & ws & w2 & -> & H1 & Hs & H2)].
  - rewrite split_chars_one by exact Hw. cbn. lia.
  - rewrite split_chars_word by apply H1. rewrite app_nil_r.
    rewrite split_chars_blanks; [|exact Hs|].
    + rewrite split_chars_one by exact H2. cbn. lia.
    + intros E. apply (f_equal (@rev ascii)) in E. rewrite rev_involutive in E.
      apply (word_nonempty _ H1). exact E.
Qed.

(** Stripping *)

Lemma lstrip_letter c l : ascii_letter c = true -> Py.lstrip_chars (c :: l) = c :: l.
Proof. intros H. cbn. rewrite (letter_not_space _ H). reflexivity. Qed.

Lemma word_first w : word w -> exists c w', w = c :: w' /\ ascii_letter c = true.
Proof.
  intros [Hlen H]. destruct w as [|c w']; [cbn in Hlen; lia|].
  cbn in H. apply andb_true_iff in H as [Hc _]. eauto.
Qed.

Lemma word_last w : word w -> exists c w', w = (w' ++ [c])%list /\ ascii_letter c = true.
Proof.
  intros Hw. pose proof (word_nonempty _ Hw) as Hne. destruct Hw as [_ H].
  destruct (exists_last Hne) as (w' & c & ->).
  rewrite forallb_app in H. apply andb_true_iff in H as [_ H].
  cbn in H. rewrite andb_true_r in H. eauto.
Qed.

Lemma name_shape_ends g :
  name_shape g ->
  (exists c g', g = c :: g' /\ ascii_letter c = true)
  /\ (exists c g', g = (g' ++ [c])%list /\ ascii_letter c = true).
Proof.
  intros [Hw|(w1 & ws & w2 & -> & H1 & Hs & H2)].
  - split; [apply word_first, Hw|apply word_last, Hw].
  - split.
    + destruct (word_first _ H1) as (c & w' & -> & Hc). eauto.
    + destruct (word_last _ H2) as (c & w' & -> & Hc).
      exists c, (w1 ++ ws ++ w')%list. rewrite <- !app_assoc. auto.
Qed.

Lemma strip_chars_name g : name_shape g -> Py.strip_chars g = g.
Proof.
  intros H. destruct (name_shape_ends _ H) as [(c & g' & E1 & Hc) (d & g'' & E2 & Hd)].
  unfold Py.strip_chars. rewrite E1, lstrip_letter by exact Hc. rewrite <- E1.
  rewrite E2, rev_app_distr. cbn [rev app]. rewrite lstrip_letter by exact Hd.
  cbn [rev]. rewrite rev_involutive. reflexivity.
Qed.

Lemma name_shape_accepted g :
  name_shape g ->
  Py.strip (Py.str g) = Py.str g
  /\ Nat.leb (length (Py.split (Py.strip (Py.str g)))) 3 = true.
Proof.
  intros H.
  assert (E : Py.strip (Py.str g) = Py.str g).
  { unfold Py.strip. rewrite chars_str, strip_chars_name by exact H. reflexivity. }
  split; [exact E|]. rewrite E. unfold Py.split. rewrite length_map, chars_str.
  apply Nat.leb_le. pose proof (name_shape_words _ H). lia.
Qed.

(** ** What the name patterns match *)

Lemma Matches_seq_cons icase r rs pre rest cap pre' rest' cap' :
  Matches icase (seq (r :: rs)) pre rest cap pre' rest' cap'
  <-> exists p q c, Matches icase r pre rest cap p q c
                    /\ Matches icase (seq rs) p q c pre' rest' cap'.
Proof.
  destruct rs as [|r' rs]; [|reflexivity]. cbn [seq Matches]. split.
  - intros M. exists pre', rest', cap'. auto.
  - intros (p & q & c & M & -> & -> & ->). exact M.
Qed.

Lemma Matches_lits pat : forall pre rest cap pre' rest' cap',
  Matches true (seq (map (fun c => Chr (CLit c)) pat)) pre rest cap pre' rest' cap'
  <-> (exists p, rest = (p ++ rest')%list /\ pre' = (rev p ++ pre)%list
                 /\ map Py.lower_char p = map Py.lower_char pat)
      /\ cap' = cap.
Proof.
  induction pat as [|x pat IH]; intros pre rest cap pre' rest' cap'.
  - cbn [map seq Matches]. split.
    + intros (-> & -> & ->). split; [|reflexivity]. exists []. auto.
    + intros [(p & -> & -> & E) ->]. destruct p; [auto|discriminate].
  - cbn [map]. rewrite Matches_seq_cons. cbn [Matches cset_mem]. split.
    + intros (p & q & c & (ch & -> & E & -> & ->) & M).
      apply IH in M as [(p' & -> & -> & E') ->]. split; [|reflexivity].
      exists (ch :: p'). cbn [app rev map]. rewrite <- app_assoc.
      apply Ascii.eqb_eq in E. rewrite E, E'. auto.
    + intros [(p & -> & -> & E) ->]. destruct p as [|ch p]; [discriminate|].
      cbn [map] in E. injection E as E1 E2.
      exists (ch :: pre), (p ++ rest')%list, cap. split.
      * exists ch. rewrite E1, Ascii.eqb_refl. auto.
      * apply IH. split; [|reflexivity]. exists p. cbn [rev]. rewrite <- app_assoc. auto.
Qed.

Lemma Matches_lit s pre rest cap pre' rest' cap' :
  Matches true (lit s) pre rest cap pre' rest' cap'
  <-> (exists p, rest = (p ++ rest')%list /\ pre' = (rev p ++ pre)%list
                 /\ map Py.lower_char p = map Py.lower_char (Py.chars s))
      /\ cap' = cap.
Proof. apply Matches_lits. Qed.

(** [i'?m] matches what [i'm] or [im] match. *)
Lemma Matches_im pre rest cap pre' rest' cap' :
  Matches true (seq [lit "i"; Opt (lit "'"); lit "m"]) pre rest cap pre' rest' cap'
  <-> Matches true (lit "i'm") pre rest cap pre' rest' cap'
      \/ Matches true (lit "im") pre rest cap pre' rest' cap'.
Proof.
  cbn [seq lit map Py.chars list_ascii_of_string Matches]. split.
  - intros (p & q & c & M1 & p2 & q2 & c2 & [M2|(-> & -> & ->)] & M3).
    + left. eauto 10.
    + right. eauto 10.
  - intros [(p & q & c & M1 & p2 & q2 & c2 & M2 & M3)|(p & q & c & M1 & M3)].
    + eauto 12.
    + exists p, q, c. split; [exact M1|]. exists p, q, c. auto.
Qed.

Lemma intro_phrase_intro s p :
  In s intro_phrases -> map Py.lower_char p = map Py.lower_char (Py.chars s) ->
  intro_phrase p.
Proof.
  intros Hin E. exists s. split; [exact Hin|]. rewrite E.
  cbn in Hin. repeat (destruct Hin as [<-|Hin]; [reflexivity|]). contradiction.
Qed.

Lemma Matches_name_intro pre rest cap pre' rest' cap' :
  Matches true name_intro pre rest cap pre' rest' cap'
  <-> (exists p, rest = (p ++ rest')%list /\ pre' = (rev p ++ pre)%list
                 /\ intro_phrase p)
      /\ cap' = cap.
Proof.
  unfold name_intro. cbn [alts]. cbn [Matches]. rewrite Matches_im, !Matches_lit. split.
  - intros [[H|H]|[H|[H|[H|[H|H]]]]];
      destruct H as [(p & -> & -> & E) ->]; (split; [|reflexivity]);
      exists p; (split; [reflexivity|]); (split; [reflexivity|]);
      (eapply intro_phrase_intro; [|exact E]); cbn; auto 10.
  - intros [(p & -> & -> & s & Hin & E) ->].
    assert (E' : map Py.lower_char p = map Py.lower_char (Py.chars s)).
    { rewrite E. cbn in Hin.
      repeat (destruct Hin as [<-|Hin]; [reflexivity|]). contradiction. }
    cbn in Hin.
    destruct Hin as [<-|[<-|[<-|[<-|[<-|[<-|[<-|[]]]]]]]].
    + left. left. eauto.
    + left. right. eauto.
    + right. left. eauto.
    + right. right. left. eauto.
    + right. right. right. left. eauto.
    + right. right. right. right. left. eauto.
    + right. right. right. right. right. eauto.
Qed.

Lemma forallb_upper cs :
  forallb (cset_mem true (CRng "a" "z")) cs = forallb ascii_letter cs.
Proof. apply forallb_ext_eq, lower_range_icase. Qed.

Lemma word_cons c cs :
  word (c :: cs) <-> ascii_letter c = true /\ forallb ascii_letter cs = true
                     /\ 1 <= length cs.
Proof.
  unfold word. cbn [length forallb]. rewrite andb_true_iff. split.
  - intros (? & ? & ?). auto with lia.
  - intros (? & ? & ?). auto with lia.
Qed.

Lemma Matches_word pre rest cap pre' rest' cap' :
  Matches true (Seq (Chr (CRng "A" "Z")) (Rep (CRng "a" "z") 1 None))
          pre rest cap pre' rest' cap'
  <-> (exists w, rest = (w ++ rest')%list /\ pre' = (rev w ++ pre)%list /\ word w)
      /\ cap' = cap.
Proof.
  cbn [Matches]. split.
  - intros (p & q & c & (ch & -> & E & -> & ->) & cs & -> & -> & Hcs & Hlo & _ & ->).
    split; [|reflexivity]. exists (ch :: cs). cbn [app rev]. rewrite <- app_assoc.
    rewrite upper_range_icase in E. rewrite forallb_upper in Hcs.
    rewrite word_cons. auto.
  - intros [(w & -> & -> & Hw) ->]. destruct (word_first _ Hw) as (ch & cs & -> & _).
    apply word_cons in Hw as (Hc & Hcs & Hlen).
    exists (ch :: pre), (cs ++ rest')%list, cap. split.
    + exists ch. rewrite upper_range_icase. auto.
    + exists cs. cbn [rev]. rewrite <- app_assoc, forallb_upper. cbn [hi_ok].
      repeat split; auto.
Qed.

Lemma Matches_seq_assoc icase r1 r2 r3 pre rest cap pre' rest' cap' :
  Matches icase (Seq r1 (Seq r2 r3)) pre rest cap pre' rest' cap'
  <-> Matches icase (Seq (Seq r1 r2) r3) pre rest cap pre' rest' cap'.
Proof.
  cbn [Matches]. split.
  - intros (p & q & c & M1 & p2 & q2 & c2 & M2 & M3). eauto 12.
  - intros (p & q & c & (p2 & q2 & c2 & M1 & M2) & M3). eauto 12.
Qed.

Lemma Matches_blanks pre rest cap pre' rest' cap' :
  Matches true (plus CSpace) pre rest cap pre' rest' cap'
  <-> (exists ws, rest = (ws ++ rest')%list /\ pre' = (rev ws ++ pre)%list /\ blanks ws)
      /\ cap' = cap.
Proof.
  unfold plus, blanks. cbn [Matches cset_mem hi_ok]. split.
  - intros (ws & -> & -> & H & Hlen & _ & ->). eauto 10.
  - intros [(ws & -> & -> & Hlen & H) ->]. eauto 10.
Qed.

Lemma Matches_name_words pre rest cap pre' rest' cap' :
  Matches true name_words pre rest cap pre' rest' cap'
  <-> (exists g, rest = (g ++ rest')%list /\ pre' = (rev g ++ pre)%list /\ name_shape g)
      /\ cap' = cap.
Proof.
  unfold name_words. cbn [seq]. rewrite Matches_seq_assoc.
  change (Matches true
            (Seq (Seq (Chr (CRng "A" "Z")) (plus (CRng "a" "z")))
                 (Opt (Seq (plus CSpace) (Seq (Chr (CRng "A" "Z")) (plus (CRng "a" "z"))))))
            pre rest cap pre' rest' cap')
    with (exists p q c,
             Matches true (Seq (Chr (CRng "A" "Z")) (Rep (CRng "a" "z") 1 None))
                     pre rest cap p q c
             /\ ((exists p2 q2 c2,
                     Matches true (plus CSpace) p q c p2 q2 c2
                     /\ Matches true (Seq (Chr (CRng "A" "Z")) (Rep (CRng "a" "z") 1 None))
                                p2 q2 c2 pre' rest' cap')
                 \/ (pre' = p /\ rest' = q /\ cap' = c))).
  split.
  - intros (p & q & c & M1 & [(p2 & q2 & c2 & M2 & M3)|(-> & -> & ->)]).
    + apply Matches_word in M1 as [(w1 & -> & -> & H1) ->].
      apply Matches_blanks in M2 as [(ws & -> & -> & Hs) ->].
      apply Matches_word in M3 as [(w2 & -> & -> & H2) ->].
      split; [|reflexivity]. exists (w1 ++ ws ++ w2)%list.
      rewrite !rev_app_distr, <- !app_assoc.
      split; [reflexivity|]. split; [reflexivity|]. right. eauto 10.
    + apply Matches_word in M1 as [(w1 & -> & -> & H1) ->].
      split; [|reflexivity]. exists w1. unfold name_shape. auto.
  - intros [(g & -> & -> & [Hw|(w1 & ws & w2 & -> & H1 & Hs & H2)]) ->].
    + exists (rev g ++ pre)%list, rest', cap. split; [|auto].
      apply Matches_word. eauto 10.
    + exists (rev w1 ++ pre)%list, (ws ++ w2 ++ rest')%list, cap. split.
      * apply Matches_word. split; [|reflexivity]. exists w1.
        rewrite <- !app_assoc. auto.
      * left. exists (rev ws ++ rev w1 ++ pre)%list, (w2 ++ rest')%list, cap. split.
        -- apply Matches_blanks. eauto 10.
        -- apply Matches_word. split; [|reflexivity]. exists w2.
           rewrite !rev_app_distr, <- !app_assoc. auto.
Qed.

Lemma Matches_name_pattern_1 pre rest pre' rest' cap' :
  Matches true (nth 0 name_patterns Eps) pre rest None pre' rest' cap'
  <-> exists p ws g,
        rest = (p ++ ws ++ g ++ rest')%list
        /\ pre' = (rev (p ++ ws ++ g) ++ pre)%list
        /\ intro_phrase p /\ blanks ws /\ name_shape g /\ cap' = Some g.
Proof.
  cbn [nth name_patterns seq].
  change (Matches true (Seq name_intro (Seq (plus CSpace) (Grp name_words)))
                  pre rest None pre' rest' cap')
    with (exists p q c,
             Matches true name_intro pre rest None p q c
             /\ exists p2 q2 c2,
                 Matches true (plus CSpace) p q c p2 q2 c2
                 /\ exists c3, Matches true name_words p2 q2 c2 pre' rest' c3
                               /\ cap' = Some (span p2 pre')).
  split.
  - intros (p & q & c & M1 & p2 & q2 & c2 & M2 & c3 & M3 & ->).
    apply Matches_name_intro in M1 as [(ph & -> & -> & Hp) ->].
    apply Matches_blanks in M2 as [(ws & -> & -> & Hs) ->].
    apply Matches_name_words in M3 as [(g & -> & -> & Hg) ->].
    exists ph, ws, g. rewrite span_app, !rev_app_distr, <- !app_assoc. auto 10.
  - intros (ph & ws & g & -> & -> & Hp & Hs & Hg & ->).
    exists (rev ph ++ pre)%list, (ws ++ g ++ rest')%list, None. split.
    { apply Matches_name_intro. eauto 10. }
    exists (rev ws ++ rev ph ++ pre)%list, (g ++ rest')%list, None. split.
    { apply Matches_blanks. eauto 10. }
    exists None. split.
    + apply Matches_name_words. split; [|reflexivity]. exists g.
      rewrite !rev_app_distr, <- !app_assoc. auto.
    + rewrite !rev_app_distr, <- !app_assoc. rewrite span_app. reflexivity.
Qed.

Lemma Matches_name_pattern_2 pre rest pre' rest' cap' :
  Matches true (nth 1 name_patterns Eps) pre rest None pre' rest' cap'
  <-> exists g,
        pre = [] /\ rest = (g ++ rest')%list /\ pre' = rev g
        /\ (rest' = [] \/ rest' = [newline]) /\ name_shape g /\ cap' = Some g.
Proof.
  cbn [nth name_patterns seq].
  change (Matches true (Seq Bol (Seq (Grp name_words) Eol)) pre rest None pre' rest' cap')
    with (exists p q c,
             (pre = [] /\ p = pre /\ q = rest /\ c = None)
             /\ exists p2 q2 c2,
                 (exists c3, Matches true name_words p q c p2 q2 c3
                             /\ c2 = Some (span p p2))
                 /\ (q2 = [] \/ q2 = [newline]) /\ pre' = p2 /\ rest' = q2 /\ cap' = c2).
  split.
  - intros (p & q & c & (-> & -> & -> & ->) & p2 & q2 & c2 & (c3 & M & ->) & He
            & -> & -> & ->).
    apply Matches_name_words in M as [(g & -> & -> & Hg) ->].
    exists g. rewrite span_app, app_nil_r. auto 10.
  - intros (g & -> & -> & -> & He & Hg & ->).
    exists [], (g ++ rest')%list, None. split; [auto|].
    exists (rev g), rest', (Some g). split; [|auto].
    exists None. split.
    + apply Matches_name_words. split; [|reflexivity]. exists g.
      rewrite app_nil_r. auto.
    + rewrite <- (app_nil_r (rev g)), span_app. reflexivity.
Qed.

(** ** The searches of [extract_name] *)

Lemma search_name_1_sound text m :
  search true (nth 0 name_patterns Eps) text = Some m ->
  exists g, group1 m = Some g /\ name_shape g /\ introduces_name text.
Proof.
  unfold search. intros H.
  destruct (search_from_sound _ _ _ _ _ H) as (sk & rest0 & pre' & cap' & E & M & E1 & _).
  apply Matches_name_pattern_1 in M as (p & ws & g & -> & _ & Hp & Hs & Hg & ->).
  exists g. split; [exact E1|]. split; [exact Hg|].
  destruct Hg as [Hw|(w1 & ws' & w2 & -> & H1 & Hs' & H2)].
  - exists sk, p, ws, g, (after m). auto.
  - exists sk, p, ws, w1, (ws' ++ w2 ++ after m)%list. rewrite E, <- !app_assoc. auto.
Qed.


Lemma search_name_2_sound text m :
  search true (nth 1 name_patterns Eps) text = Some m ->
  exists g, group1 m = Some g /\ name_shape g /\ bare_name text.
Proof.
  unfold search. intros H.
  destruct (search_from_sound _ _ _ _ _ H) as (sk & rest0 & pre' & cap' & E & M & E1 & _).
  apply Matches_name_pattern_2 in M as (g & Hsk & -> & _ & He & Hg & ->).
  rewrite app_nil_r in Hsk. apply (f_equal (@rev ascii)) in Hsk.
  rewrite rev_involutive in Hsk. cbn in Hsk. subst sk. cbn [app] in E.
  exists g. split; [exact E1|]. split; [exact Hg|].
  exists g. split; [exact Hg|]. rewrite E.
  destruct He as [->| ->]; [left; apply app_nil_r|right; reflexivity].
Qed.


Lemma group_1_Some m g : group1 m = Some g -> group_1 m = Py.str g.
Proof. unfold group_1. intros ->. reflexivity. Qed.

(** What the loop over the two patterns returns. *)
Lemma name_from_patterns_eq text :
  name_from_patterns name_patterns text =
  match search true (nth 0 name_patterns Eps) text with
  | Some m => Some (group_1 m)
  | None =>
      match search true (nth 1 name_patterns Eps) text with
      | Some m => Some (group_1 m)
      | None => None
      end
  end.
Proof.
  cbn [name_from_patterns name_patterns nth].
  destruct (search true _ text) as [m|] eqn:E1.
  - destruct (search_name_1_sound _ _ E1) as (g & Eg & Hg & _).
    rewrite (group_1_Some _ _ Eg).
    destruct (name_shape_accepted _ Hg) as [-> ->]. reflexivity.
  - destruct (search true (seq [Bol; Grp name_words; Eol]) text) as [m|] eqn:E2;
      [|reflexivity].
    destruct (search_name_2_sound _ _ E2) as (g & Eg & Hg & _).
    rewrite (group_1_Some _ _ Eg).
    destruct (name_shape_accepted _ Hg) as [-> ->]. reflexivity.
Qed.





(** ** The two variants side by side *)

Lemma graph_name_loop ps text : Graph.name_loop ps text = name_from_patterns ps text.
Proof.
  induction ps as [|p ps IH]; [reflexivity|]. cbn [Graph.name_loop name_from_patterns].
  rewrite IH. reflexivity.
Qed.

Lemma graph_age_loop ps text : Graph.age_loop ps text = age_from_patterns ps text.
Proof.
  induction ps as [|p ps IH]; [reflexivity|]. cbn [Graph.age_loop age_from_patterns].
  rewrite IH. reflexivity.
Qed.

Lemma name_from_patterns_nonempty text name :
  name_from_patterns name_patterns text = Some name -> Py.nonempty name = true.
Proof.
  rewrite name_from_patterns_eq. intros H.
  assert (exists g, name = Py.str g /\ name_shape g) as (g & -> & Hg).
  { destruct (search true (nth 0 name_patterns Eps) text) as [m|] eqn:E1.
    - destruct (search_name_1_sound _ _ E1) as (g & Eg & Hg & _).
      rewrite (group_1_Some _ _ Eg) in H. injection H as <-. eauto.
    - destruct (search true (nth 1 name_patterns Eps) text) as [m|] eqn:E2;
        [|discriminate].
      destruct (search_name_2_sound _ _ E2) as (g & Eg & Hg & _).
      rewrite (group_1_Some _ _ Eg) in H. injection H as <-. eauto. }
  destruct (name_shape_ends _ Hg) as [(c & g' & -> & _) _]. reflexivity.
Qed.

(** The graph variant reads name and age with the manual variant's
    extractors. *)
Lemma graph_extracts_like_manual text age location food :
  let r := Graph.extract_fields text None age location food in
  r.1.1.1 = extract_name text
  /\ (age = None -> r.1.1.2 = extract_age text).
Proof.
  cbv zeta. unfold Graph.extract_fields. cbn [fst snd Graph.truthy_str negb].
  split.
  - change Graph.name_patterns with name_patterns.
    rewrite graph_name_loop. unfold extract_name.
    destruct (name_from_patterns name_patterns text) as [name|] eqn:E.
    + cbn [Graph.truthy_str]. rewrite (name_from_patterns_nonempty _ _ E). reflexivity.
    + cbn [Graph.truthy_str negb andb].
      destruct (Nat.leb _ _ && _); reflexivity.
  - intros ->. change Graph.age_patterns with age_patterns.
    rewrite graph_age_loop. reflexivity.
Qed.

Lemma collect_asks_next e state assistance_type :
  something_missing state = true ->
  let r := Graph.collect_user_info e state assistance_type in
  graph_said r.1 = next_question r.1 /\ r.2 = [].
Proof.
  unfold something_missing. intros H. apply negb_true_iff in H.
  cbv zeta. unfold Graph.collect_user_info. rewrite H.
  destruct (match last (Graph.messages state) with
            | Some (Graph.HumanMessage content) => _
            | _ => _
            end) as [[[n a] l] f].
  cbn [fst snd]. split; [|reflexivity].
  unfold graph_said, Graph.with_reply, next_question. cbn [Graph.messages Graph.person_name
    Graph.age Graph.location Graph.food_requirement].
  rewrite last_snoc. reflexivity.
Qed.

Lemma manual_asks_question turns :
  Forall (fun o =>
            forall j, obs_after o <> obs_before o -> rank (obs_after o) = Some j -> j <= 4 ->
                      reply (obs_response o) = question j (obs_record o))
         (run turns ∅).2.
Proof.
  destruct (run_good turns ∅ store_inv_empty) as [_ Hos].
  eapply Forall_impl; [exact Hos|]. cbn.
  intros o (e & i & k & s & Hb & Ha & F) j Hne Hj Hle.
  pose proof (inv_rank _ _ (sf_inv _ _ _ _ _ _ _ _ _ F)) as Hk.
  rewrite Ha, rank_state_name in Hj by exact Hk. injection Hj as <-.
  destruct (sf_next _ _ _ _ _ _ _ _ _ F) as [->|E].
  - rewrite Hb, Ha in Hne. congruence.
  - apply (sf_question _ _ _ _ _ _ _ _ _ F E Hle).
Qed.

(** C8, amended. The graph variant reads name and age with the same
    extractors as the manual variant; when a field is missing its reply
    is the question for the first missing field in the order name, age,
    location, food requirement; and the manual variant, when a message
    moves a session on, asks the question of the state it moved to, in
    the same words.  (The replies to a given conversation differ: the
    graph variant fills every field it can from each message.) *)
Theorem variants_share_questions :
  (forall text age location food,
      let r := Graph.extract_fields text None age location food in
      r.1.1.1 = extract_name text /\ (age = None -> r.1.1.2 = extract_age text))
  /\ (forall e state assistance_type,
        something_missing state = true ->
        let r := Graph.collect_user_info e state assistance_type in
        graph_said r.1 = next_question r.1 /\ r.2 = [])
  /\ (forall turns o j,
        In o (run turns ∅).2 ->
        obs_after o <> obs_before o -> rank (obs_after o) = Some j -> j <= 4 ->
        reply (obs_response o)
        = match j with
          | 1 => Graph.reply_ask_name
          | 2 => Graph.reply_ask_age (format (dget (obs_record o) "person_name"))
          | 3 => Graph.reply_ask_location
          | _ => Graph.reply_ask_food
          end).
Proof.
  split; [exact graph_extracts_like_manual|]. split; [exact collect_asks_next|].
  intros turns o j Hin Hne Hj Hle.
  pose proof (manual_asks_question turns) as F. rewrite List.Forall_forall in F.
  rewrite (F o Hin j Hne Hj Hle).
  assert (Hcases : j = 0 \/ j = 1 \/ j = 2 \/ j = 3 \/ j = 4) by lia.
  destruct Hcases as [E|[E|[E|[E|E]]]]; rewrite E in *; try reflexivity.
  exfalso. clear E.
  destruct (run_good turns ∅ store_inv_empty) as [_ Hos].
  rewrite List.Forall_forall in Hos.
  destruct (Hos o Hin) as (e & i & k & s & Hb & Ha & G).
  pose proof (inv_rank _ _ (sf_inv _ _ _ _ _ _ _ _ _ G)) as Hk.
  rewrite Ha, rank_state_name in Hj by exact Hk. injection Hj as Hj. rewrite Hj in *.
  destruct (sf_next _ _ _ _ _ _ _ _ _ G) as [E|E]; [|discriminate]. rewrite <- E in *.
  rewrite Hb, Ha in Hne. congruence.
Qed.

(** C8 as stated fails: to the first message "I need help" the manual
    variant answers by asking for the name, while the graph variant takes
    the message as name and location and asks for the age. *)
Lemma variants_agree_counterexample : ~ variants_agree.
Proof.
  intros H. specialize (H env_ok ["I need help"]). vm_compute in H. discriminate.
Qed.

Lemma variants_share_questions_witness :
  (something_missing (Graph.router_node (with_message graph_initial "I need help")) = true
   /\ graph_said (graph_pass env_ok graph_initial "I need help")
      = next_question (graph_pass env_ok graph_initial "I need help"))
  /\ (obs_after (obs_at 2 (run scenario ∅).2) <> obs_before (obs_at 2 (run scenario ∅).2)
      /\ rank (obs_after (obs_at 2 (run scenario ∅).2)) = Some 2
      /\ reply (obs_response (obs_at 2 (run scenario ∅).2))
         = Graph.reply_ask_age
             (format (dget (obs_record (obs_at 2 (run scenario ∅).2)) "person_name"))).
Proof.
  destruct variants_share_questions as (_ & G & M).
  assert (H1 : something_missing
                 (Graph.router_node (with_message graph_initial "I need help")) = true)
    by (vm_compute; reflexivity).
  split.
  - split; [exact H1|]. exact (proj1 (G env_ok _ _ H1)).
  - assert (Hlen : 2 < length (run scenario ∅).2) by (rewrite run_length; cbn; lia).
    assert (Hne : obs_after (obs_at 2 (run scenario ∅).2)
                  <> obs_before (obs_at 2 (run scenario ∅).2))
      by (vm_compute; discriminate).
    assert (Hr : rank (obs_after (obs_at 2 (run scenario ∅).2)) = Some 2)
      by (vm_compute; reflexivity).
    split; [exact Hne|]. split; [exact Hr|].
    exact (M scenario _ 2 (obs_at_In 2 _ Hlen) Hne Hr ltac:(lia)).
Defined.

(** * Further properties of the code

    Properties read off the code itself, beyond the statements of the
    specification. *)

(** ** One session at a time: what a request reads and writes *)

Lemma chat_try_local e req sessions1 sessions2 :
  let sid := effective_session_id e req in
  sessions1 !! sid = sessions2 !! sid ->
  exists s' evs r,
    chat_try e req sessions1 = (<[sid := s']> sessions1, evs, r)
    /\ chat_try e req sessions2 = (<[sid := s']> sessions2, evs, r).
Proof.
  cbv zeta. intros H. rewrite !chat_try_current. cbv zeta.
  unfold current. rewrite <- H.
  destruct (bool_decide _ && negb _); [eauto|].
  destruct (process _ _ _ _ _) as [st r]. eauto.
Qed.

Lemma observe_local t sessions1 sessions2 :
  let sid := effective_session_id (turn_env t) (turn_request t) in
  sessions1 !! sid = sessions2 !! sid ->
  (observe t sessions1).2 = (observe t sessions2).2
  /\ exists s', (observe t sessions1).1 = <[sid := s']> sessions1
                /\ (observe t sessions2).1 = <[sid := s']> sessions2.
Proof.
  cbv zeta. intros H.
  destruct (chat_try_local (turn_env t) (turn_request t) _ _ H) as (s' & evs & r & E1 & E2).
  rewrite !observe_eq. cbv zeta. rewrite !chat_with_ai_eq, E1, E2. cbn [fst snd].
  unfold state_of. rewrite !lookup_insert_eq, H. eauto.
Qed.

Lemma run_local turns : forall sessions1 sessions2 sid,
  sessions1 !! sid = sessions2 !! sid ->
  observed_for sid (run turns sessions1).2
  = (run (List.filter (addressed_to sid) turns) sessions2).2
  /\ (run turns sessions1).1 !! sid
     = (run (List.filter (addressed_to sid) turns) sessions2).1 !! sid.
Proof.
  induction turns as [|t turns IH]; intros sessions1 sessions2 sid H.
  - split; [reflexivity|exact H].
  - rewrite run_cons. cbn [fst snd List.filter]. unfold observed_for. cbn [List.filter].
    fold (observed_for sid (run turns (observe t sessions1).1).2).
    assert (Hs : obs_session (observe t sessions1).2
                 = effective_session_id (turn_env t) (turn_request t))
      by (rewrite observe_eq; reflexivity).
    rewrite Hs. fold (addressed_to sid t).
    destruct (addressed_to sid t) eqn:E; unfold addressed_to in E.
    + apply bool_decide_eq_true in E. subst sid.
      destruct (observe_local t _ _ H) as (Ho & s' & E1 & E2).
      rewrite run_cons. cbn [fst snd].
      assert (H' : (observe t sessions1).1 !! effective_session_id (turn_env t) (turn_request t)
                   = (observe t sessions2).1 !! effective_session_id (turn_env t) (turn_request t))
        by (rewrite E1, E2, !lookup_insert_eq; reflexivity).
      destruct (IH _ _ _ H') as [IH1 IH2].
      rewrite IH1, IH2, Ho. split; reflexivity.
    + apply bool_decide_eq_false in E. apply IH.
      destruct (observe_local t sessions1 sessions1 eq_refl) as (_ & s' & E1 & _).
      rewrite E1, lookup_insert_ne by exact E. exact H.
Qed.

(** X1. In any conversation, from any session store, what a session is
    shown and what it stores depend on its own requests only: the
    observations of the requests for a session are those of the same
    requests run without the other sessions' requests, its record at the
    end is the same, and a session no request is for is left as it was. *)
Theorem sessions_do_not_interfere (turns : list turn)
    (sessions : gmap string (gmap string pyval)) (sid : string) :
  let own := List.filter (addressed_to sid) turns in
  observed_for sid (run turns sessions).2 = (run own sessions).2
  /\ (run turns sessions).1 !! sid = (run own sessions).1 !! sid
  /\ (own = [] -> (run turns sessions).1 !! sid = sessions !! sid).
Proof.
  cbv zeta. destruct (run_local turns sessions sessions sid eq_refl) as [H1 H2].
  split; [exact H1|]. split; [exact H2|].
  intros E. rewrite H2, E. reflexivity.
Qed.

(** ** Progress *)






(** ** What a request leaves alone *)

Ltac not_written H :=
  repeat (apply not_elem_of_cons in H as [? H]).

Ltac frame_auto :=
  unfold upd, completed_session; cbn [fst snd sess out];
  rewrite ?lookup_insert_ne by congruence; try reflexivity.

Lemma process_frame e sid m0 m s k :
  k ∉ written (step_of s) ->
  sess (process e sid m0 m {| sess := s; out := [] |}).1 !! k = ensured s !! k.
Proof.
  unfold written. rewrite process_eq, dispatch_eq.
  repeat case_decide; intros Hk; not_written Hk.
  - rewrite on_start_eq. destruct (nonblank m0); frame_auto.
  - rewrite on_asking_name_eq. frame_auto.
  - rewrite on_asking_age_eq. cbn [sess out].
    destruct (accepted_age m);
      [|destruct (ensured s !! "_age_attempts") as [[| |n]|]; [| |destruct (2 <=? n + 1)%Z|]];
      frame_auto.
  - rewrite on_asking_location_eq. frame_auto.
  - rewrite on_asking_food_requirement_eq. cbn [sess out]. cbv zeta.
    destruct (valid _);
      [destruct (completed_session m0 (ensured s) !! "assistance_type")|];
      frame_auto.
  - rewrite on_completed_eq. frame_auto.
  - rewrite on_unknown_eq. frame_auto.
Qed.

Lemma ensured_new_session : ensured new_session = new_session.
Proof. apply (ensured_inv 0), inv_new_session. Qed.

Lemma chat_try_frame e req sessions k :
  let sid := effective_session_id e req in
  k ∉ written (state_of sessions sid) ->
  current (chat_try e req sessions).1.1 sid !! k = ensured (current sessions sid) !! k.
Proof.
  cbv zeta. rewrite chat_try_current. cbv zeta.
  set (sid := effective_session_id e req).
  destruct (bool_decide _ && negb _) eqn:G.
  - apply andb_true_iff in G as [G1%bool_decide_eq_true _]. intros _.
    cbn [fst snd]. rewrite current_insert. unfold current. rewrite G1. cbn [default].
    rewrite ensured_new_session. reflexivity.
  - rewrite state_of_step_of. intros Hk.
    pose proof (process_frame e sid (original_message req)
                  (Py.strip (Py.lower (original_message req))) _ k Hk) as F.
    destruct (process _ _ _ _ _) as [st r]. cbn [fst snd] in *.
    rewrite current_insert. exact F.
Qed.

Lemma observe_keeps t sessions k :
  store_inv sessions ->
  k ∉ written (obs_before (observe t sessions).2) ->
  current (observe t sessions).1 (obs_session (observe t sessions).2) !! k
  = current sessions (obs_session (observe t sessions).2) !! k.
Proof.
  intros Hs. rewrite observe_eq. cbv zeta.
  cbn [fst snd obs_session obs_before]. rewrite chat_with_ai_eq. cbn [fst snd].
  intros Hk. rewrite (chat_try_frame _ _ _ _ Hk).
  destruct (store_inv_current sessions
              (effective_session_id (turn_env t) (turn_request t)) Hs) as [i Hi].
  rewrite (ensured_inv _ _ Hi). reflexivity.
Qed.

Lemma run_keeps turns : forall sessions sid i k,
  store_inv sessions ->
  inv i (current sessions sid) ->
  (forall j, i <= j -> j <= 5 -> k ∉ written (PStr (state_name j))) ->
  current (run turns sessions).1 sid !! k = current sessions sid !! k.
Proof.
  induction turns as [|t turns IH]; intros sessions sid i k Hs Hi Hk.
  - reflexivity.
  - rewrite run_cons. cbn [fst snd].
    destruct (observe_good t sessions Hs) as [Hs' _].
    destruct (observe_inv t sessions Hs) as (i' & j & s' & Hi' & Hst & Hb & Ha & F).
    destruct (decide (obs_session (observe t sessions).2 = sid)) as [E|E].
    + pose proof (observe_keeps t sessions k Hs) as K. rewrite E in *.
      assert (i' = i).
      { eapply (inv_state i' _ i); eauto using inv_rank. eapply step_of_inv, Hi. }
      subst i'.
      assert (Hj : inv j (current (observe t sessions).1 sid)).
      { rewrite Hst, current_insert. apply F. }
      rewrite (IH _ sid j k Hs' Hj).
      * apply K. rewrite Hb. apply Hk; [lia|apply Hi].
      * intros j' ? ?. apply Hk; [|assumption].
        destruct (sf_next _ _ _ _ _ _ _ _ _ F); subst; lia.
    + assert (Hc : current (observe t sessions).1 sid = current sessions sid).
      { rewrite Hst. apply current_insert_ne, E. }
      rewrite (IH _ sid i k Hs'); [rewrite Hc; reflexivity|rewrite Hc; exact Hi|exact Hk].
Qed.

Ltac not_in_written :=
  let j := fresh "j" in
  let H := fresh "Hin" in
  intros j ? ?;
  destruct j as [|[|[|[|[|[|j]]]]]]; try lia;
  unfold written, state_name; cbn [nth states];
  repeat (rewrite decide_False by discriminate);
  rewrite ?decide_True by reflexivity;
  intros H; rewrite ?elem_of_cons, elem_of_nil in H;
  repeat destruct H as [H|H]; (discriminate || contradiction).

(** X3. From an empty store, whatever requests follow: the name is not
    changed once the session has passed asking_name, the age once it has
    passed asking_age, the location once it has passed asking_location,
    and the food requirement once it is completed. *)
Theorem collected_fields_are_kept (turns1 turns2 : list turn) (sid : string) (i : nat) :
  let sessions := (run turns1 ∅).1 in
  let s := current sessions sid in
  let s' := current (run turns2 sessions).1 sid in
  rank (step_of s) = Some i ->
  (2 <= i -> s' !! "person_name" = s !! "person_name")
  /\ (3 <= i -> s' !! "age" = s !! "age")
  /\ (4 <= i -> s' !! "location" = s !! "location")
  /\ (5 <= i -> s' !! "food_requirement" = s !! "food_requirement").
Proof.
  cbv zeta. intros Hr.
  destruct (run_good turns1 ∅ store_inv_empty) as [Hs _].
  destruct (store_inv_current _ sid Hs) as [i' Hi].
  assert (i' = i).
  { rewrite (step_of_inv _ _ Hi), rank_state_name in Hr by apply Hi. congruence. }
  subst i'.
  repeat split; intros Hle;
    apply (run_keeps turns2 _ sid i _ Hs Hi); not_in_written.
Qed.

Lemma collected_fields_are_kept_witness :
  let s := current (run (take 3 scenario) ∅).1 "session-1" in
  let s' := current (run (drop 3 scenario) (run (take 3 scenario) ∅).1).1 "session-1" in
  s !! "person_name" = Some (PStr "John")
  /\ step_of s' = PStr "completed"
  /\ s' !! "person_name" = s !! "person_name".
Proof.
  cbv zeta.
  assert (H : rank (step_of (current (run (take 3 scenario) ∅).1 "session-1")) = Some 2)
    by (vm_compute; reflexivity).
  split; [vm_compute; reflexivity|]. split; [vm_compute; reflexivity|].
  exact (proj1 (collected_fields_are_kept (take 3 scenario) (drop 3 scenario)
                  "session-1" 2 H) (le_n 2)).
Defined.

(** ** The state after a request on any session *)

Lemma rank_None_unknown v :
  rank v = None ->
  v <> PStr "start" /\ v <> PStr "asking_name" /\ v <> PStr "asking_age"
  /\ v <> PStr "asking_location" /\ v <> PStr "asking_food_requirement"
  /\ v <> PStr "completed".
Proof.
  intros H. repeat split; intros ->; discriminate.
Qed.

Ltac known_state i :=
  exists i; unfold upd, completed_session, step_of; cbn [fst snd sess out];
  rewrite ?lookup_insert_eq; reflexivity.

Lemma process_known e sid m0 m s :
  exists i, rank (step_of (sess (process e sid m0 m {| sess := s; out := [] |}).1)) = Some i.
Proof.
  rewrite process_eq, dispatch_eq.
  repeat case_decide.
  - rewrite on_start_eq. destruct (nonblank m0); [known_state 1|].
    exists 0. cbn [fst sess]. rewrite step_of_ensured. rewrite H. reflexivity.
  - rewrite on_asking_name_eq. known_state 2.
  - rewrite on_asking_age_eq. cbn [sess out].
    destruct (accepted_age m);
      [|destruct (ensured s !! "_age_attempts") as [[| |n]|] eqn:Et;
        [| |destruct (2 <=? n + 1)%Z|]];
      try (known_state 3);
      exists 2; unfold upd, step_of; cbn [fst snd sess out];
      rewrite ?lookup_insert_ne by discriminate;
      fold (step_of (ensured s)); rewrite step_of_ensured, H1; reflexivity.
  - rewrite on_asking_location_eq. known_state 4.
  - rewrite on_asking_food_requirement_eq. cbn [sess out]. cbv zeta.
    destruct (valid _);
      [destruct (completed_session m0 (ensured s) !! "assistance_type")|];
      known_state 5.
  - rewrite on_completed_eq. exists 5. cbn [fst sess].
    rewrite step_of_ensured. rewrite H4. reflexivity.
  - rewrite on_unknown_eq. known_state 1.
Qed.

Lemma process_unknown e sid m0 m s :
  rank (step_of s) = None ->
  process e sid m0 m {| sess := s; out := [] |}
  = ({| sess := <["step" := PStr "asking_name"]> (ensured s); out := [] |},
     inr (resp sid reply_recover)).
Proof.
  intros H. destruct (rank_None_unknown _ H) as (? & ? & ? & ? & ? & ?).
  rewrite process_eq, dispatch_eq.
  repeat (rewrite decide_False by assumption). reflexivity.
Qed.

(** X6. On any session store, a request leaves its session in one of the
    six states; and a session whose step is none of them is given the
    keys it lacks, moved to asking_name and asked for the name, with no
    outside call and every other entry kept. *)
Theorem a_request_leaves_a_known_state (e : env) (chat_request : ChatRequest)
    (sessions : gmap string (gmap string pyval)) :
  let sid := effective_session_id e chat_request in
  let r := chat_with_ai e chat_request sessions in
  (exists i, rank (state_of r.1.1 sid) = Some i)
  /\ (rank (state_of sessions sid) = None ->
      r = (<[sid := <["step" := PStr "asking_name"]> (ensured (current sessions sid))]> sessions,
           [], resp sid reply_recover)).
Proof.
  cbv zeta. rewrite chat_with_ai_eq, chat_try_current. cbv zeta.
  set (sid := effective_session_id e chat_request).
  destruct (bool_decide _ && negb _) eqn:G.
  - apply andb_true_iff in G as [G1%bool_decide_eq_true _]. cbn [fst snd]. split.
    + exists 0. rewrite state_of_insert. reflexivity.
    + unfold state_of. rewrite G1. discriminate.
  - split.
    + pose proof (process_known e sid (original_message chat_request)
                    (Py.strip (Py.lower (original_message chat_request)))
                    (current sessions sid)) as K.
      destruct (process _ _ _ _ _) as [st r]. cbn [fst snd] in *.
      rewrite state_of_insert. exact K.
    + rewrite state_of_step_of. intros H. rewrite (process_unknown _ _ _ _ _ H).
      reflexivity.
Qed.

Lemma a_request_leaves_a_known_state_witness :
  let chat_request := {| message := Some "hello"; session_id := Some "session-7" |} in
  let r := chat_with_ai env_ok chat_request strange_store in
  rank (state_of strange_store "session-7") = None
  /\ reply r.2 = reply_recover
  /\ state_of r.1.1 "session-7" = PStr "asking_name"
  /\ current r.1.1 "session-7" !! "person_name" = Some (PStr "Ada").
Proof.
  cbv zeta.
  assert (H : rank (state_of strange_store
                      (effective_session_id env_ok
                         {| message := Some "hello"; session_id := Some "session-7" |}))
              = None) by (vm_compute; reflexivity).
  split; [exact H|].
  rewrite (proj2 (a_request_leaves_a_known_state env_ok
                    {| message := Some "hello"; session_id := Some "session-7" |}
                    strange_store) H).
  cbn [fst snd]. split; [reflexivity|]. split; vm_compute; reflexivity.
Defined.

(** ** The request that completes a session *)

Lemma assistance_type_not_written v : "assistance_type" ∉ written v.
Proof.
  unfold written. repeat case_decide;
    intros Hin; rewrite ?elem_of_cons, elem_of_nil in Hin;
    repeat destruct Hin as [Hin|Hin]; (discriminate || contradiction).
Qed.

Lemma ensured_other s k :
  k <> "step" -> k <> "person_name" -> k <> "age" -> k <> "location" ->
  ensured s !! k = s !! k.
Proof.
  intros. unfold ensured, ensure.
  repeat match goal with
         | |- context [match ?x !! ?k with _ => _ end] => destruct (x !! k)
         end;
    rewrite ?lookup_insert_ne by congruence; reflexivity.
Qed.

Lemma observe_immediate t sessions :
  all_immediate sessions -> all_immediate (observe t sessions).1.
Proof.
  intros Hs. rewrite observe_eq. cbv zeta. cbn [fst]. rewrite chat_with_ai_eq. cbn [fst].
  set (e := turn_env t). set (req := turn_request t).
  pose proof (chat_try_frame e req sessions "assistance_type"
                (assistance_type_not_written _)) as F.
  destruct (rf_store _ _ _ _ _ _ (chat_try_any e req sessions)) as [s' E].
  rewrite E in F |- *. rewrite current_insert in F.
  rewrite ensured_other in F by discriminate.
  intros sid s. destruct (decide (effective_session_id e req = sid)) as [<-|Hne].
  - rewrite lookup_insert_eq. intros [= <-]. rewrite F.
    unfold current. destruct (sessions !! effective_session_id e req) eqn:G.
    + eapply Hs, G.
    + reflexivity.
  - rewrite lookup_insert_ne by exact Hne. apply Hs.
Qed.

Lemma run_immediate turns sessions :
  all_immediate sessions -> all_immediate (run turns sessions).1.
Proof.
  revert sessions. induction turns as [|t turns IH]; intros sessions Hs; [exact Hs|].
  rewrite run_cons. cbn [fst]. apply IH, observe_immediate, Hs.
Qed.

Lemma all_immediate_empty : all_immediate ∅.
Proof. intros sid s H. rewrite lookup_empty in H. discriminate. Qed.

Lemma all_immediate_current sessions sid :
  all_immediate sessions ->
  current sessions sid !! "assistance_type" = Some (PStr "immediate").
Proof.
  intros Hs. unfold current. destruct (sessions !! sid) eqn:G; [eapply Hs, G|reflexivity].
Qed.

Lemma dispatch_calls_spelled e s sid name age location food :
  s !! "person_name" = Some (PStr name) -> Py.nonempty name = true ->
  s !! "age" = Some (PInt age) -> (1 <= age <= 120)%Z ->
  s !! "location" = Some (PStr location) -> Py.nonempty location = true ->
  s !! "food_requirement" = Some (PStr food) ->
  s !! "assistance_type" = Some (PStr "immediate") ->
  dispatch_calls e s sid = completion_calls e sid name age location food
  /\ stored e s = supabase_configured e && insert_succeeds e.
Proof.
  intros Hn Nn Ha Na Hl Nl Hf Ht.
  assert (Hst : storable e s = supabase_configured e).
  { unfold storable, dget. rewrite Hn, Ha, Hl. cbn [from_option id truthy]. rewrite Nn, Nl.
    assert (negb (age =? 0)%Z = true) as -> by (apply negb_true_iff, Z.eqb_neq; lia).
    rewrite !andb_true_r. reflexivity. }
  unfold dispatch_calls, store_calls, stored, notify_calls, completion_calls, insert_succeeds.
  rewrite Hst.
  unfold supabase_row, fulfillment_data, notification_payload, dget, dict.
  rewrite Hn, Ha, Hl, Hf, Ht. cbn [from_option id].
  destruct (supabase_configured e); cbn [andb app]; [|auto].
  destruct (insert_result e); auto.
Qed.

(** X4. From an empty store, the request that finds its session in
    asking_food_requirement: the session holds a non-empty name, an age
    from 1 to 120 and a non-empty location; the outside calls are the
    storage helper, then (with a storage client) the insert of the row
    made of these values, the food requirement, assistance type
    immediate, the session identifier and status pending, then (if the
    insert returned data) the notification with the same values and its
    POST when a webhook is configured; the reply is the confirmation
    with the saved suffix exactly when a client exists and the insert
    returned data; and the session only gains the food requirement and
    the step completed. *)
Theorem completion_request (turns : list turn) (e : env) (chat_request : ChatRequest) :
  let sessions := (run turns ∅).1 in
  let sid := effective_session_id e chat_request in
  let s := current sessions sid in
  let food := food_of (original_message chat_request) in
  let r := chat_with_ai e chat_request sessions in
  state_of sessions sid = PStr "asking_food_requirement" ->
  exists name age location,
    s !! "person_name" = Some (PStr name) /\ Py.nonempty name = true
    /\ s !! "age" = Some (PInt age) /\ (1 <= age <= 120)%Z
    /\ s !! "location" = Some (PStr location) /\ Py.nonempty location = true
    /\ r.1.2 = completion_calls e sid name age location food
    /\ reply r.2 = reply_confirmed name
                    ++ (if supabase_configured e && insert_succeeds e
                        then suffix_saved else suffix_not_saved)
    /\ current r.1.1 sid
       = <["step" := PStr "completed"]> (<["food_requirement" := PStr food]> s).
Proof.
  cbv zeta. intros Hst.
  destruct (run_good turns ∅ store_inv_empty) as [Hs _].
  pose proof (run_immediate turns ∅ all_immediate_empty) as Him.
  set (sessions := (run turns ∅).1) in *.
  set (sid := effective_session_id e chat_request) in *.
  destruct (store_inv_current sessions sid Hs) as [i Hi].
  assert (i = 4).
  { eapply (inv_state i _ 4); eauto. rewrite <- state_of_step_of. exact Hst. }
  subst i.
  destruct (inv_name _ _ Hi ltac:(lia)) as (name & Hn & Nn).
  destruct (inv_age _ _ Hi ltac:(lia)) as (age & Ha & Na).
  destruct (inv_location _ _ Hi ltac:(lia)) as (location & Hl & Nl).
  pose proof (all_immediate_current sessions sid Him) as Ht.
  exists name, age, location.
  do 6 (split; [assumption|]).
  rewrite chat_with_ai_eq, chat_try_current. cbv zeta. fold sid.
  assert (Hex : sessions !! sid <> None).
  { intros E. unfold state_of in Hst. rewrite E in Hst. discriminate. }
  rewrite bool_decide_false by exact Hex. cbn [andb].
  rewrite process_eq, (ensured_inv _ _ Hi), (step_of_inv _ _ Hi).
  rewrite (dispatch_state_name _ _ _ _ 4) by lia.
  rewrite on_asking_food_requirement_eq. cbn [sess out]. cbv zeta.
  set (m0 := original_message chat_request).
  set (s := current sessions sid) in *.
  assert (Hn' : completed_session m0 s !! "person_name" = Some (PStr name))
    by (unfold completed_session; rewrite !lookup_insert_ne by discriminate; exact Hn).
  assert (Ha' : completed_session m0 s !! "age" = Some (PInt age))
    by (unfold completed_session; rewrite !lookup_insert_ne by discriminate; exact Ha).
  assert (Hl' : completed_session m0 s !! "location" = Some (PStr location))
    by (unfold completed_session; rewrite !lookup_insert_ne by discriminate; exact Hl).
  assert (Ht' : completed_session m0 s !! "assistance_type" = Some (PStr "immediate"))
    by (unfold completed_session; rewrite !lookup_insert_ne by discriminate; exact Ht).
  assert (Hf' : completed_session m0 s !! "food_requirement" = Some (PStr (food_of m0))).
  { unfold completed_session. rewrite lookup_insert_ne by discriminate.
    apply lookup_insert_eq. }
  assert (Hv : valid (completed_session m0 s) = true).
  { unfold valid, dget. rewrite Hn', Ha', Hl'. cbn. rewrite Nn, Nl. reflexivity. }
  rewrite Hv, Ht'. cbn [fst snd sess out app].
  destruct (dispatch_calls_spelled e _ sid name age location (food_of m0)
              Hn' Nn Ha' Na Hl' Nl Hf' Ht') as [-> ->].
  rewrite current_insert. unfold dget. rewrite Hn'. cbn [default format reply resp].
  auto.
Qed.

Lemma completion_request_witness :
  let sessions := (run (take 6 scenario) ∅).1 in
  let chat_request := {| message := Some "rice and beans"; session_id := Some "session-1" |} in
  let r := chat_with_ai env_ok chat_request sessions in
  state_of sessions "session-1" = PStr "asking_food_requirement"
  /\ exists name age location,
       current sessions "session-1" !! "person_name" = Some (PStr name)
       /\ Py.nonempty name = true
       /\ current sessions "session-1" !! "age" = Some (PInt age) /\ (1 <= age <= 120)%Z
       /\ current sessions "session-1" !! "location" = Some (PStr location)
       /\ Py.nonempty location = true
       /\ r.1.2 = completion_calls env_ok "session-1" name age location "rice and beans"
       /\ reply r.2 = reply_confirmed name ++ suffix_saved
       /\ current r.1.1 "session-1"
          = <["step" := PStr "completed"]>
              (<["food_requirement" := PStr "rice and beans"]>
                 (current sessions "session-1")).
Proof.
  cbv zeta.
  assert (H : state_of (run (take 6 scenario) ∅).1
                (effective_session_id env_ok
                   {| message := Some "rice and beans"; session_id := Some "session-1" |})
              = PStr "asking_food_requirement") by (vm_compute; reflexivity).
  split; [exact H|].
  exact (completion_request (take 6 scenario) env_ok
           {| message := Some "rice and beans"; session_id := Some "session-1" |} H).
Defined.

(** ** The webhook and the reply *)

Lemma stored_same e1 e2 s :
  same_but_webhook e1 e2 -> stored e1 s = stored e2 s.
Proof.
  intros (_ & H1 & H2). unfold stored, storable. rewrite H1, H2. reflexivity.
Qed.

Lemma dispatch_calls_same e1 e2 s sid :
  same_but_webhook e1 e2 ->
  without_posts (dispatch_calls e1 s sid) = without_posts (dispatch_calls e2 s sid).
Proof.
  intros H. pose proof (stored_same e1 e2 s H) as Hst. destruct H as (_ & H1 & H2).
  unfold dispatch_calls, store_calls, notify_calls, storable. rewrite Hst, H1.
  unfold without_posts. rewrite !List.filter_app. f_equal.
  destruct (stored e2 s); [|reflexivity].
  destruct (webhook_configured e1), (webhook_configured e2); reflexivity.
Qed.

Lemma process_same e1 e2 sid m0 m s :
  same_but_webhook e1 e2 ->
  let p1 := process e1 sid m0 m {| sess := s; out := [] |} in
  let p2 := process e2 sid m0 m {| sess := s; out := [] |} in
  sess p1.1 = sess p2.1 /\ p1.2 = p2.2
  /\ without_posts (out p1.1) = without_posts (out p2.1).
Proof.
  intros H. cbv zeta. rewrite !process_eq, !dispatch_eq.
  repeat case_decide; try (split; [|split]; reflexivity).
  rewrite !on_asking_food_requirement_eq. cbn [sess out]. cbv zeta.
  destruct (valid _); [|split; [|split]; reflexivity].
  destruct (completed_session m0 (ensured s) !! "assistance_type");
    [|split; [|split]; reflexivity].
  cbn [fst snd sess out app]. rewrite (stored_same e1 e2 _ H).
  split; [reflexivity|]. split; [reflexivity|]. apply dispatch_calls_same, H.
Qed.

(** X5. Whether a webhook is configured and whether its POST succeeds
    has no influence on the response, on the session store or on the
    other outside calls of a request: the user is told that the request
    was saved also when the notification failed. *)
Theorem webhook_outcome_is_not_reported (e1 e2 : env) (chat_request : ChatRequest)
    (sessions : gmap string (gmap string pyval)) :
  same_but_webhook e1 e2 ->
  let r1 := chat_with_ai e1 chat_request sessions in
  let r2 := chat_with_ai e2 chat_request sessions in
  r1.2 = r2.2 /\ r1.1.1 = r2.1.1 /\ without_posts r1.1.2 = without_posts r2.1.2.
Proof.
  intros H. cbv zeta.
  assert (Hsid : effective_session_id e1 chat_request = effective_session_id e2 chat_request).
  { unfold effective_session_id. destruct H as (-> & _). reflexivity. }
  rewrite !chat_with_ai_eq, !chat_try_current. cbv zeta. rewrite Hsid.
  set (sid := effective_session_id e2 chat_request).
  destruct (bool_decide _ && negb _); [split; [|split]; reflexivity|].
  pose proof (process_same e1 e2 sid (original_message chat_request)
                (Py.strip (Py.lower (original_message chat_request)))
                (current sessions sid) H) as P.
  cbv zeta in P.
  destruct (process e1 _ _ _ _) as [st1 r1], (process e2 _ _ _ _) as [st2 r2].
  cbn [fst snd] in *. destruct P as (-> & -> & ->). split; [|split]; reflexivity.
Qed.

Lemma webhook_outcome_is_not_reported_witness :
  let sessions := (run (take 6 scenario) ∅).1 in
  let chat_request := {| message := Some "rice and beans"; session_id := Some "session-1" |} in
  let r1 := chat_with_ai env_ok chat_request sessions in
  let r2 := chat_with_ai env_webhook_down chat_request sessions in
  same_but_webhook env_ok env_webhook_down
  /\ existsb is_post r2.1.2 = true
  /\ r1.2 = r2.2 /\ r1.1.1 = r2.1.1 /\ without_posts r1.1.2 = without_posts r2.1.2.
Proof.
  cbv zeta.
  assert (H : same_but_webhook env_ok env_webhook_down) by (repeat split).
  split; [exact H|]. split; [vm_compute; reflexivity|].
  exact (webhook_outcome_is_not_reported env_ok env_webhook_down
           {| message := Some "rice and beans"; session_id := Some "session-1" |}
           (run (take 6 scenario) ∅).1 H).
Defined.

(** ** Without a storage client *)

Lemma supabase_unset url key create :
  SupabaseClient.is_set url = false \/ SupabaseClient.is_set key = false
  \/ create = SupabaseClient.CreateRaises ->
  SupabaseClient.supabase url key create = false.
Proof.
  unfold SupabaseClient.supabase. intros [->|[->| ->]];
    rewrite ?andb_false_r; try reflexivity.
  destruct (_ && _); reflexivity.
Qed.

Lemma observe_no_storage t sessions :
  supabase_configured (turn_env t) = false ->
  nothing_passed_on (observe t sessions).2.
Proof.
  intros Hc. unfold nothing_passed_on.
  destruct (dispatched (observe t sessions).2) eqn:D.
  - right. destruct (observe_dispatched t sessions D) as (_ & _ & _ & He).
    assert (Hst : forall s, stored (turn_env t) s = false)
      by (intros s; unfold stored, storable; rewrite Hc; reflexivity).
    assert (Hd : forall s sid, dispatch_calls (turn_env t) s sid = [EvStoreCall sid]).
    { intros s sid. unfold dispatch_calls, store_calls, storable. rewrite Hst, Hc.
      reflexivity. }
    rewrite Hd in He. split; [exact He|].
    destruct (observe_facts t sessions) as (Hs & _ & _ & Hr & Hrsp & F). cbv zeta in *.
    assert (Hne : obs_events (observe t sessions).2 <> []) by (rewrite He; discriminate).
    destruct (rf_calls _ _ _ _ _ _ F Hne) as (_ & _ & _ & _ & E).
    rewrite Hrsp, chat_with_ai_eq. cbn [snd]. rewrite E. cbn [reply resp].
    rewrite Hst, Hr, Hs. reflexivity.
  - left. unfold dispatched in D. destruct (obs_events _); [reflexivity|discriminate].
Qed.

(** X10. When [supabase_client.py] leaves no client (URL or key unset or
    empty, or [create_client] raising), on any session store: no request
    inserts a row or sends a notification; a request either makes no
    outside call, or enters the storage helper only and answers with the
    confirmation followed by the note that the request was not saved. *)
Theorem without_storage_nothing_is_passed_on (url key : option string)
    (create : SupabaseClient.create_outcome) (turns : list turn)
    (sessions : gmap string (gmap string pyval)) :
  SupabaseClient.is_set url = false \/ SupabaseClient.is_set key = false
  \/ create = SupabaseClient.CreateRaises ->
  (forall t, In t turns ->
     supabase_configured (turn_env t) = SupabaseClient.supabase url key create) ->
  Forall nothing_passed_on (run turns sessions).2.
Proof.
  intros Hu%supabase_unset. rewrite Hu. clear Hu.
  revert sessions. induction turns as [|t turns IH]; intros sessions Ht.
  - constructor.
  - rewrite run_cons. cbn [snd]. constructor.
    + apply observe_no_storage, Ht. left. reflexivity.
    + apply IH. intros t' Hin. apply Ht. right. exact Hin.
Qed.

Lemma without_storage_nothing_is_passed_on_witness :
  let os := (run (in_world env_no_storage scenario) ∅).2 in
  obs_events (obs_at 6 os) = [EvStoreCall "session-1"]
  /\ Forall nothing_passed_on os.
Proof.
  cbv zeta. split; [vm_compute; reflexivity|].
  apply (without_storage_nothing_is_passed_on None (Some "key")
           SupabaseClient.ClientCreated).
  - left. reflexivity.
  - intros t Ht. apply in_map_iff in Ht as (t' & <- & _). reflexivity.
Defined.

(** ** Blank messages and requests without a session identifier *)

Lemma lstrip_chars_suffix l : exists p, l = (p ++ Py.lstrip_chars l)%list.
Proof.
  induction l as [|c l [p IH]]; [exists []; reflexivity|].
  cbn [Py.lstrip_chars]. destruct (Py.isspace c).
  - exists (c :: p). cbn [app]. rewrite <- IH. reflexivity.
  - exists []. reflexivity.
Qed.

Lemma lstrip_chars_fixed l :
  match l with c :: _ => Py.isspace c = false | [] => True end ->
  Py.lstrip_chars l = l.
Proof. destruct l as [|c l]; [reflexivity|]. cbn. intros ->. reflexivity. Qed.

Lemma lstrip_chars_first l :
  match Py.lstrip_chars l with c :: _ => Py.isspace c = false | [] => True end.
Proof.
  induction l as [|c l IH]; [exact I|]. cbn [Py.lstrip_chars].
  destruct (Py.isspace c) eqn:E; [exact IH|exact E].
Qed.

Lemma strip_chars_idempotent l : Py.strip_chars (Py.strip_chars l) = Py.strip_chars l.
Proof.
  unfold Py.strip_chars.
  set (a := Py.lstrip_chars l).
  set (b := Py.lstrip_chars (rev a)).
  assert (Hb : Py.lstrip_chars b = b) by apply lstrip_chars_fixed, lstrip_chars_first.
  assert (Hrb : Py.lstrip_chars (rev b) = rev b).
  { apply lstrip_chars_fixed.
    destruct (rev b) as [|c r] eqn:E; [exact I|].
    destruct (lstrip_chars_suffix (rev a)) as [p Hp]. fold b in Hp.
    apply (f_equal (@rev ascii)) in Hp. rewrite rev_involutive, rev_app_distr, E in Hp.
    pose proof (lstrip_chars_first l) as Hf. fold a in Hf. rewrite Hp in Hf. exact Hf. }
  rewrite Hrb, rev_involutive, Hb. reflexivity.
Qed.

Lemma strip_idempotent s : Py.strip (Py.strip s) = Py.strip s.
Proof.
  unfold Py.strip. rewrite chars_str, strip_chars_idempotent. reflexivity.
Qed.

Lemma nonblank_original req :
  nonblank (original_message req) = Py.nonempty (original_message req).
Proof.
  unfold nonblank, original_message. rewrite strip_idempotent.
  destruct (Py.strip _); reflexivity.
Qed.

(** X7. A request without a session identifier (absent or empty), when
    the generated identifier is not in use: a new session is stored
    under the generated identifier, which the response carries; a blank
    message gets the greeting and leaves the new session in start, any
    other message gets the question for the name and leaves it in
    asking_name; no outside call is made and no other session changes. *)
Theorem a_request_without_session_id_starts_a_session (e : env)
    (chat_request : ChatRequest) (sessions : gmap string (gmap string pyval)) :
  session_id chat_request = None \/ session_id chat_request = Some "" ->
  sessions !! uuid4 e = None ->
  let r := chat_with_ai e chat_request sessions in
  let blank := negb (Py.nonempty (original_message chat_request)) in
  r.1.2 = []
  /\ r.2 = resp (uuid4 e) (if blank then reply_greeting else reply_ask_name)
  /\ r.1.1 = <[uuid4 e := if blank then new_session
                         else <["step" := PStr "asking_name"]> new_session]> sessions.
Proof.
  intros Hid Hnew. cbv zeta.
  assert (Hsid : effective_session_id e chat_request = uuid4 e).
  { unfold effective_session_id. destruct Hid as [->| ->]; reflexivity. }
  rewrite chat_with_ai_eq, chat_try_current. cbv zeta. rewrite Hsid.
  rewrite bool_decide_true by exact Hnew. cbn [andb].
  destruct (Py.nonempty (original_message chat_request)) eqn:E; cbn [negb fst snd].
  - unfold current. rewrite Hnew. cbn [default from_option id].
    rewrite process_eq, ensured_new_session.
    change (step_of new_session) with (PStr (state_name 0)).
    rewrite (dispatch_state_name _ _ _ _ 0) by lia.
    rewrite on_start_eq, nonblank_original, E. cbn. auto.
  - auto.
Qed.

Lemma a_request_without_session_id_starts_a_session_witness :
  let sessions := (run (take 3 scenario) ∅).1 in
  let e := {| uuid4 := "session-2"; utcnow := "2024-01-01T00:00:00";
              supabase_configured := true; insert_result := InsertData;
              webhook_configured := true; post_ok := true |} in
  let r := chat_with_ai e {| message := Some "John"; session_id := None |} sessions in
  state_of sessions "session-1" = PStr "asking_age"
  /\ r.2 = resp "session-2" reply_ask_name
  /\ state_of r.1.1 "session-1" = PStr "asking_age".
Proof.
  cbv zeta.
  set (e := {| uuid4 := "session-2"; utcnow := "2024-01-01T00:00:00";
               supabase_configured := true; insert_result := InsertData;
               webhook_configured := true; post_ok := true |}).
  assert (Hnew : (run (take 3 scenario) ∅).1 !! uuid4 e = None)
    by (vm_compute; reflexivity).
  destruct (a_request_without_session_id_starts_a_session e
              {| message := Some "John"; session_id := None |}
              (run (take 3 scenario) ∅).1 (or_introl eq_refl) Hnew) as (_ & Hr & Hs).
  split; [vm_compute; reflexivity|]. split.
  - rewrite Hr. reflexivity.
  - rewrite Hs. rewrite state_of_insert_ne by discriminate. vm_compute. reflexivity.
Defined.

Lemma chat_with_ai_dispatch e req sessions i :
  let sid := effective_session_id e req in
  let m0 := original_message req in
  inv i (current sessions sid) ->
  sessions !! sid <> None ->
  chat_with_ai e req sessions =
  let '(st, r) := dispatch e sid m0 (Py.strip (Py.lower m0)) (PStr (state_name i))
                           {| sess := current sessions sid; out := [] |} in
  (<[sid := sess st]> sessions, out st,
   match r with inr rsp => rsp | inl _ => resp sid reply_error end).
Proof.
  cbv zeta. intros Hi Hex.
  unfold chat_with_ai. rewrite chat_try_current. cbv zeta.
  rewrite bool_decide_false by exact Hex. cbn [andb].
  rewrite process_eq, (ensured_inv _ _ Hi), (step_of_inv _ _ Hi).
  destruct (dispatch _ _ _ _ _ _) as [st r]. reflexivity.
Qed.

Lemma state_of_not_start sessions sid v :
  state_of sessions sid = v -> v <> PStr "start" -> sessions !! sid <> None.
Proof. unfold state_of. intros H Hv E. rewrite E in H. congruence. Qed.

(** X8. From an empty store, a message that is absent, empty or all
    whitespace: in start it changes nothing (greeting for a new session,
    prompt for an existing one); in asking_name it records the name
    "User"; in asking_location the location "Not specified"; in
    asking_food_requirement the food requirement "General food
    assistance", and the request is dispatched all the same. *)
Theorem blank_messages_get_defaults (turns : list turn) (e : env)
    (chat_request : ChatRequest) :
  let sessions := (run turns ∅).1 in
  let sid := effective_session_id e chat_request in
  let s := current sessions sid in
  let r := chat_with_ai e chat_request sessions in
  let s' := current r.1.1 sid in
  original_message chat_request = "" ->
  (state_of sessions sid = PStr "start" ->
   s' = s /\ r.1.2 = []
   /\ r.2 = resp sid (if bool_decide (sessions !! sid = None)
                      then reply_greeting else reply_prompt))
  /\ (state_of sessions sid = PStr "asking_name" ->
      s' = <["step" := PStr "asking_age"]> (<["person_name" := PStr "User"]> s)
      /\ r.2 = resp sid (reply_ask_age "User"))
  /\ (state_of sessions sid = PStr "asking_location" ->
      s' = <["step" := PStr "asking_food_requirement"]>
             (<["location" := PStr "Not specified"]> s)
      /\ r.2 = resp sid reply_ask_food)
  /\ (state_of sessions sid = PStr "asking_food_requirement" ->
      s' = <["step" := PStr "completed"]>
             (<["food_requirement" := PStr "General food assistance"]> s)
      /\ r.1.2 <> []).
Proof.
  cbv zeta. intros Hm.
  destruct (run_good turns ∅ store_inv_empty) as [Hs _].
  set (sessions := (run turns ∅).1) in *.
  set (sid := effective_session_id e chat_request) in *.
  destruct (store_inv_current sessions sid Hs) as [i Hi].
  assert (Hi' : forall k, k <= 5 -> state_of sessions sid = PStr (state_name k) -> i = k).
  { intros k Hk E. eapply (inv_state i _ k); eauto. rewrite <- state_of_step_of. exact E. }
  assert (Hb : nonblank "" = false) by reflexivity.
  split; [|split; [|split]]; intros Hst.
  - assert (i = 0) by (apply Hi'; [lia|exact Hst]). subst i.
    rewrite chat_with_ai_eq, chat_try_current. cbv zeta. fold sid. rewrite Hm.
    cbn [Py.nonempty negb]. rewrite andb_true_r.
    case_bool_decide as E; cbn [fst snd].
    + rewrite current_insert. unfold current. rewrite E. auto.
    + rewrite process_eq, (ensured_inv _ _ Hi), (step_of_inv _ _ Hi).
      rewrite (dispatch_state_name _ _ _ _ 0) by lia.
      rewrite on_start_eq, Hb. cbn [fst snd sess out]. rewrite current_insert. auto.
  - assert (i = 1) by (apply Hi'; [lia|exact Hst]). subst i.
    rewrite (chat_with_ai_dispatch e chat_request sessions 1 Hi)
      by (eapply state_of_not_start; [exact Hst|discriminate]).
    fold sid. rewrite Hm, (dispatch_state_name _ _ _ _ 1) by lia.
    rewrite on_asking_name_eq. unfold chosen_name. rewrite Hb.
    cbn [fst snd sess out upd]. rewrite current_insert. auto.
  - assert (i = 3) by (apply Hi'; [lia|exact Hst]). subst i.
    rewrite (chat_with_ai_dispatch e chat_request sessions 3 Hi)
      by (eapply state_of_not_start; [exact Hst|discriminate]).
    fold sid. rewrite Hm, (dispatch_state_name _ _ _ _ 3) by lia.
    rewrite on_asking_location_eq, Hb.
    cbn [fst snd sess out upd]. rewrite current_insert. auto.
  - assert (i = 4) by (apply Hi'; [lia|exact Hst]). subst i.
    rewrite (chat_with_ai_dispatch e chat_request sessions 4 Hi)
      by (eapply state_of_not_start; [exact Hst|discriminate]).
    fold sid. rewrite Hm, (dispatch_state_name _ _ _ _ 4) by lia.
    rewrite on_asking_food_requirement_eq. cbn [sess out]. cbv zeta.
    destruct (inv_name _ _ Hi ltac:(lia)) as (name & Hn & Nn).
    destruct (inv_age _ _ Hi ltac:(lia)) as (age & Ha & Na).
    destruct (inv_location _ _ Hi ltac:(lia)) as (location & Hl & Nl).
    destruct (inv_has_type _ _ Hi) as [t Ht].
    set (s := current sessions sid) in *.
    assert (Hv : valid (completed_session "" s) = true).
    { unfold valid, dget, completed_session.
      rewrite !lookup_insert_ne by discriminate. rewrite Hn, Ha, Hl. cbn.
      rewrite Nn, Nl. reflexivity. }
    assert (Ht' : completed_session "" s !! "assistance_type" = Some t)
      by (unfold completed_session; rewrite !lookup_insert_ne by discriminate; exact Ht).
    rewrite Hv, Ht'. cbn [fst snd sess out app]. rewrite current_insert.
    split; [reflexivity|]. unfold dispatch_calls, store_calls. discriminate.
Qed.

Lemma blank_messages_get_defaults_witness :
  let sessions := (run (take 2 scenario) ∅).1 in
  let chat_request := {| message := Some "   "; session_id := Some "session-1" |} in
  let r := chat_with_ai env_ok chat_request sessions in
  state_of sessions "session-1" = PStr "asking_name"
  /\ current r.1.1 "session-1"
     = <["step" := PStr "asking_age"]>
         (<["person_name" := PStr "User"]> (current sessions "session-1"))
  /\ r.2 = resp "session-1" (reply_ask_age "User").
Proof.
  cbv zeta.
  assert (H : state_of (run (take 2 scenario) ∅).1
                (effective_session_id env_ok
                   {| message := Some "   "; session_id := Some "session-1" |})
              = PStr "asking_name") by (vm_compute; reflexivity).
  split; [exact H|].
  exact (proj1 (proj2 (blank_messages_get_defaults (take 2 scenario) env_ok
                         {| message := Some "   "; session_id := Some "session-1" |}
                         eq_refl)) H).
Defined.

(** ** A whole conversation *)








(** ** The age patterns capture digits of the text *)

Lemma Matches_groupless icase r : forall pre rest cap pre' rest' cap',
  groupless r = true ->
  Matches icase r pre rest cap pre' rest' cap' -> cap' = cap.
Proof.
  induction r as [|s| | | |r1 IH1 r2 IH2|r1 IH1 r2 IH2|r1 IH1|s lo hi|r1 IH1];
    intros pre rest cap pre' rest' cap' G M; cbn [Matches groupless] in *.
  - apply M.
  - destruct M as (c & _ & _ & _ & ->). reflexivity.
  - apply M.
  - apply M.
  - apply M.
  - apply andb_true_iff in G as [G1 G2]. destruct M as (p & q & c & M1 & M2).
    rewrite (IH2 _ _ _ _ _ _ G2 M2). eapply IH1; eassumption.
  - apply andb_true_iff in G as [G1 G2]. destruct M as [M|M]; eauto.
  - destruct M as [M|(_ & _ & ->)]; eauto.
  - destruct M as (cs & _ & _ & _ & _ & _ & ->). reflexivity.
  - discriminate.
Qed.

Lemma Matches_digit_group icase r pre rest cap pre' rest' cap' :
  is_digit_group r = true ->
  Matches icase r pre rest cap pre' rest' cap' ->
  exists ds, rest = (ds ++ rest')%list /\ cap' = Some ds /\ digit_run ds.
Proof.
  intros G M.
  destruct r as [|?| | | |? ?|? ?|?|? ? ?|r]; try discriminate.
  destruct r as [|?| | | |? ?|? ?|?|s lo hi|?]; try discriminate.
  destruct s; try discriminate.
  destruct lo as [|[|lo]]; try discriminate.
  destruct hi as [[|[|[|[|hi]]]]|]; try discriminate.
  cbn [Matches] in M. destruct M as (c & (ds & -> & -> & Hd & Hlo & Hhi & _) & ->).
  exists ds. rewrite span_app. cbn in Hhi. repeat split; auto.
Qed.

Lemma Matches_digit_capture icase r : forall pre rest cap pre' rest' cap',
  digit_capture r = true ->
  Matches icase r pre rest cap pre' rest' cap' ->
  exists before ds after,
    rest = (before ++ ds ++ after)%list /\ cap' = Some ds /\ digit_run ds.
Proof.
  induction r as [|s| | | |r1 IH1 r2 IH2|r1 IH1 r2 IH2|r1 IH1|s lo hi|r1 IH1];
    intros pre rest cap pre' rest' cap' G M; try discriminate.
  - cbn [digit_capture] in G. cbn [Matches] in M. destruct M as (p & q & c & M1 & M2).
    apply orb_true_iff in G as [[G1 G2]%andb_true_iff|[G1 G2]%andb_true_iff].
    + destruct (Matches_consumes _ _ _ _ _ _ _ _ M1) as (cs1 & -> & _).
      destruct (IH2 _ _ _ _ _ _ G2 M2) as (b & ds & a & -> & -> & Hd).
      exists (cs1 ++ b)%list, ds, a. rewrite <- app_assoc. auto.
    + destruct (Matches_digit_group _ _ _ _ _ _ _ _ G1 M1) as (ds & -> & -> & Hd).
      rewrite (Matches_groupless _ _ _ _ _ _ _ _ G2 M2).
      exists [], ds, q. auto.
  - destruct (Matches_digit_group _ _ _ _ _ _ _ _ G M) as (ds & -> & -> & Hd).
    exists [], ds, rest'. auto.
Qed.

Lemma age_from_patterns_digits ps text n :
  forallb digit_capture ps = true ->
  age_from_patterns ps text = Some n ->
  exists before ds after,
    Py.chars text = (before ++ ds ++ after)%list
    /\ digit_run ds /\ n = Py.int_of_digits ds.
Proof.
  induction ps as [|p ps IH]; cbn [forallb age_from_patterns]; [discriminate|].
  intros [Hp Hps]%andb_true_iff.
  destruct (search true p text) as [m|] eqn:E; [|exact (IH Hps)].
  destruct (in_age_range _); [|exact (IH Hps)].
  intros [= <-]. unfold search in E.
  destruct (search_from_sound _ _ _ _ _ E) as (sk & rest0 & pre' & cap' & Et & M & E1 & _).
  destruct (Matches_digit_capture _ _ _ _ _ _ _ _ Hp M) as (b & ds & a & -> & -> & Hd).
  exists (sk ++ b)%list, ds, a. rewrite Et, <- app_assoc.
  unfold group_1. rewrite E1. cbn [default from_option id]. rewrite chars_str. auto.
Qed.

(** X11. The number [extract_age] returns is written in the text: it is
    the value of one to three consecutive decimal digits of the text.
    (So a text without a digit gives no age.) *)
Theorem extract_age_reads_digits (text : string) (n : Z) :
  extract_age text = Some n ->
  exists before ds after,
    Py.chars text = (before ++ ds ++ after)%list
    /\ digit_run ds /\ n = Py.int_of_digits ds.
Proof. apply age_from_patterns_digits. reflexivity. Qed.

Lemma extract_age_reads_digits_witness :
  exists before ds after,
    Py.chars "I am 45 years old" = (before ++ ds ++ after)%list
    /\ digit_run ds /\ 45%Z = Py.int_of_digits ds.
Proof.
  apply (extract_age_reads_digits "I am 45 years old" 45).
  vm_compute. reflexivity.
Defined.

(** ** A plain number as the answer *)

Lemma plain_ages_extracted :
  forallb (fun n => bool_decide
                      (extract_age (Py.strip (Py.lower (Py.strip (pretty n)))) = Some n
                       /\ extract_age (pretty n) = Some n)) ages = true.
Proof. vm_compute. reflexivity. Qed.

Lemma plain_age_extracted n :
  (1 <= n <= 120)%Z ->
  extract_age (Py.strip (Py.lower (Py.strip (pretty n)))) = Some n
  /\ extract_age (pretty n) = Some n.
Proof.
  intros H. pose proof plain_ages_extracted as F.
  rewrite forallb_forall in F.
  assert (Hin : In n ages).
  { apply list_elem_of_In, elem_of_seqZ. lia. }
  apply F in Hin. apply bool_decide_eq_true in Hin. exact Hin.
Qed.

(** X9. The decimal numeral of a number from 1 to 120 is read back as
    that number by [extract_age]; and from an empty store, a session in
    asking_age that is sent such a numeral records that age, moves to
    asking_location with the retry counter untouched, and is asked for
    the location. *)
Theorem a_plain_age_is_accepted (turns : list turn) (e : env)
    (chat_request : ChatRequest) (n : Z) :
  let sessions := (run turns ∅).1 in
  let sid := effective_session_id e chat_request in
  let r := chat_with_ai e chat_request sessions in
  (1 <= n <= 120)%Z ->
  message chat_request = Some (pretty n) ->
  state_of sessions sid = PStr "asking_age" ->
  extract_age (pretty n) = Some n
  /\ current r.1.1 sid !! "age" = Some (PInt n)
  /\ state_of r.1.1 sid = PStr "asking_location"
  /\ current r.1.1 sid !! "_age_attempts" = current sessions sid !! "_age_attempts"
  /\ r.2 = resp sid reply_ask_location.
Proof.
  cbv zeta. intros Hn Hm Hst.
  destruct (plain_age_extracted n Hn) as [E1 E2]. split; [exact E2|].
  destruct (run_good turns ∅ store_inv_empty) as [Hs _].
  destruct (chat_with_ai_asking_age e chat_request _ Hs Hst) as [Hi ->].
  rewrite on_asking_age_eq. unfold accepted_age, user_msg, original_message.
  rewrite Hm. cbn [default from_option id]. rewrite E1.
  cbn [fst snd sess out]. unfold upd. cbn [sess out].
  rewrite current_insert, state_of_insert. unfold step_of.
  rewrite lookup_insert_eq. rewrite lookup_insert_ne by discriminate.
  rewrite lookup_insert_eq. rewrite !lookup_insert_ne by discriminate. auto.
Qed.

Lemma a_plain_age_is_accepted_witness :
  let sessions := (run (take 3 scenario) ∅).1 in
  let chat_request := {| message := Some "30"; session_id := Some "session-1" |} in
  let r := chat_with_ai env_ok chat_request sessions in
  state_of sessions "session-1" = PStr "asking_age"
  /\ current r.1.1 "session-1" !! "age" = Some (PInt 30)
  /\ state_of r.1.1 "session-1" = PStr "asking_location".
Proof.
  cbv zeta.
  assert (H : state_of (run (take 3 scenario) ∅).1
                (effective_session_id env_ok
                   {| message := Some "30"; session_id := Some "session-1" |})
              = PStr "asking_age") by (vm_compute; reflexivity).
  split; [exact H|].
  pose proof (a_plain_age_is_accepted (take 3 scenario) env_ok
                {| message := Some "30"; session_id := Some "session-1" |} 30
                ltac:(lia) eq_refl H) as (_ & Ha & Hs & _).
  split; [exact Ha|exact Hs].
Defined.

(** ** The checks on a matched name *)

(** X13. When one of the two name patterns matches, the captured group
    has no surrounding whitespace and at most two words: the [strip]
    changes nothing, the check on the number of words never fails, and
    the match is the name the loop returns. *)
Theorem a_matched_name_is_taken_as_it_is (pattern : regex) (text : string) (m : rmatch) :
  In pattern name_patterns ->
  search true pattern text = Some m ->
  Py.strip (group_1 m) = group_1 m
  /\ length (Py.split (group_1 m)) <= 2
  /\ name_from_patterns [pattern] text = Some (group_1 m).
Proof.
  intros Hin E.
  assert (G : exists g, group1 m = Some g /\ name_shape g).
  { destruct Hin as [<-|[<-|[]]].
    - destruct (search_name_1_sound _ _ E) as (g & ? & ? & _). eauto.
    - destruct (search_name_2_sound _ _ E) as (g & ? & ? & _). eauto. }
  destruct G as (g & Eg & Hg).
  rewrite (group_1_Some _ _ Eg).
  destruct (name_shape_accepted _ Hg) as [Es Hle].
  split; [exact Es|]. split.
  - unfold Py.split. rewrite length_map, chars_str. apply name_shape_words, Hg.
  - cbn [name_from_patterns]. rewrite E, (group_1_Some _ _ Eg), Es.
    rewrite Es in Hle. rewrite Hle. reflexivity.
Qed.

Lemma a_matched_name_is_taken_as_it_is_witness :
  let m := {| group0 := Py.chars "My name is Alice Smith";
              group1 := Some (Py.chars "Alice Smith");
              after := [] |} in
  search true (nth 0 name_patterns Eps) "My name is Alice Smith" = Some m
  /\ Py.strip (group_1 m) = group_1 m
  /\ length (Py.split (group_1 m)) <= 2
  /\ name_from_patterns [nth 0 name_patterns Eps] "My name is Alice Smith"
     = Some (group_1 m).
Proof.
  cbv zeta.
  assert (E : search true (nth 0 name_patterns Eps) "My name is Alice Smith"
              = Some {| group0 := Py.chars "My name is Alice Smith";
                        group1 := Some (Py.chars "Alice Smith");
                        after := [] |}) by (vm_compute; reflexivity).
  split; [exact E|].
  exact (a_matched_name_is_taken_as_it_is (nth 0 name_patterns Eps)
           "My name is Alice Smith" _ (or_introl eq_refl) E).
Defined.

(** ** The third age pattern *)

Lemma isdecimal_digit c : Py.isdecimal c = true -> In c digit_chars.
Proof.
  destruct c as [[] [] [] [] [] [] [] []]; intros H; try discriminate H;
    cbn; auto 12.
Qed.

Lemma digit_run_plain ds q :
  digit_run ds -> q = [] \/ q = [newline] -> In (ds ++ q)%list plain_numbers.
Proof.
  intros [Hl Hd] Hq. unfold plain_numbers. cbv zeta.
  set (runs := (_ ++ _ ++ _)%list).
  assert (Hr : In ds runs).
  { unfold runs. rewrite !in_app_iff.
    destruct ds as [|a [|b [|c [|d ds]]]]; cbn [length] in Hl; try lia;
      cbn [forallb] in Hd; rewrite ?andb_true_iff in Hd.
    - left. apply in_flat_map. exists a. split; [apply isdecimal_digit, Hd|]. left. reflexivity.
    - right. left. apply in_flat_map. exists a. split; [apply isdecimal_digit, Hd|].
      apply in_flat_map. exists b. split; [apply isdecimal_digit, Hd|]. left. reflexivity.
    - right. right. apply in_flat_map. exists a. split; [apply isdecimal_digit, Hd|].
      apply in_flat_map. exists b. split; [apply isdecimal_digit, Hd|].
      apply in_flat_map. exists c. split; [apply isdecimal_digit, Hd|]. left. reflexivity. }
  apply in_app_iff. destruct Hq as [->| ->].
  - left. rewrite app_nil_r. exact Hr.
  - right. apply in_map_iff. eauto.
Qed.

Lemma plain_numbers_second :
  forallb (fun l => bool_decide
                      (captured_number (nth 1 age_patterns Eps) (Py.str l)
                       = captured_number (nth 2 age_patterns Eps) (Py.str l)))
          plain_numbers = true.
Proof. vm_compute. reflexivity. Qed.

Lemma third_pattern_shape text m :
  search true (nth 2 age_patterns Eps) text = Some m ->
  exists ds q, Py.chars text = (ds ++ q)%list /\ digit_run ds
               /\ (q = [] \/ q = [newline]).
Proof.
  unfold search. intros H.
  destruct (search_from_sound _ _ _ _ _ H) as (sk & rest0 & pre' & cap' & E & M & _).
  cbn [nth age_patterns seq Matches] in M.
  destruct M as (p & q & c & (Hp & -> & -> & ->) & p2 & q2 & c2 & (c3 & M2 & ->) & M3).
  destruct M2 as (ds & -> & -> & Hd & Hlo & Hhi & _).
  destruct M3 as (Hq & _ & _ & _).
  rewrite app_nil_r in Hp. apply (f_equal (@rev ascii)) in Hp.
  rewrite rev_involutive in Hp. cbn in Hp. subst sk. cbn [app] in E.
  exists ds, q2. cbn in Hhi. repeat split; auto.
Qed.

Lemma third_capture_is_second text n :
  captured_number (nth 2 age_patterns Eps) text = Some n ->
  captured_number (nth 1 age_patterns Eps) text = Some n.
Proof.
  intros H.
  assert (G : exists m, search true (nth 2 age_patterns Eps) text = Some m).
  { unfold captured_number in H. destruct (search true _ text); [eauto|discriminate]. }
  destruct G as [m G].
  destruct (third_pattern_shape _ _ G) as (ds & q & E & Hd & Hq).
  pose proof plain_numbers_second as F. rewrite forallb_forall in F.
  pose proof (F _ (digit_run_plain ds q Hd Hq)) as Hin.
  apply bool_decide_eq_true in Hin.
  rewrite <- E, str_chars in Hin. rewrite Hin. exact H.
Qed.

Lemma first_accepted_third c1 c2 c3 :
  (forall n, c3 = Some n -> c2 = Some n) ->
  first_accepted [c1; c2; c3] = first_accepted [c1; c2].
Proof.
  intros H. cbn [first_accepted].
  destruct c1 as [n1|]; [destruct (in_age_range n1); [reflexivity|]|];
    (destruct c3 as [n3|];
     [rewrite (H n3 eq_refl); destruct (in_age_range n3); reflexivity
     |destruct c2 as [n2|]; [destruct (in_age_range n2)|]; reflexivity]).
Qed.

(** X12. Whenever the third age pattern matches, the second matches with
    the same number; so the third pattern never decides the result, and
    [extract_age] is the loop over the first two patterns. *)
Theorem third_age_pattern_never_decides (text : string) :
  (forall n, captured_number (nth 2 age_patterns Eps) text = Some n ->
             captured_number (nth 1 age_patterns Eps) text = Some n)
  /\ extract_age text = age_from_patterns (take 2 age_patterns) text.
Proof.
  split; [intros n; apply third_capture_is_second|].
  unfold extract_age. rewrite !age_from_patterns_first_accepted.
  exact (first_accepted_third _ _ _ (third_capture_is_second text)).
Qed.

(** ** The two sinks on their own *)

Lemma calls_store_in_supabase e d sid :
  calls (store_in_supabase e d sid) = (store_calls e d sid, inr (stored e d)).
Proof. unfold calls. rewrite store_in_supabase_run. reflexivity. Qed.

Lemma calls_trigger_fulfillment_notification e data :
  calls (trigger_fulfillment_notification e data)
  = (notify_calls e data, inr (negb (webhook_configured e) || post_ok e)).
Proof. unfold calls. rewrite trigger_fulfillment_notification_run. reflexivity. Qed.

(** X14. [store_in_supabase] on any record: it returns a truth value and
    never raises, a raising client included; it returns true only if the
    insert returned data, and the row then holds status pending, the
    session identifier and, as food request, the record's food
    requirement (the default text only if the key is absent); without a
    client, or with a name, age or location that is falsy (the age 0
    included), it makes no insert and returns false. *)
Theorem store_in_supabase_never_raises (e : env) (d : gmap string pyval) (sid : string) :
  let r := calls (store_in_supabase e d sid) in
  (exists ok : bool, r.2 = inr ok
     /\ (ok = true ->
         insert_result e = InsertData
         /\ exists row, r.1 = [EvStoreCall sid; EvInsert row]
              /\ row !! "status" = Some (PStr "pending")
              /\ row !! "session_id" = Some (PStr sid)
              /\ row !! "food_request"
                 = Some (default (PStr "General food assistance") (d !! "food_requirement"))))
  /\ (supabase_configured e = false \/ truthy (dget d "person_name") = false
      \/ truthy (dget d "age") = false \/ truthy (dget d "location") = false ->
      r = ([EvStoreCall sid], inr false))
  /\ (insert_result e <> InsertData -> r.2 = inr false).
Proof.
  cbv zeta. rewrite calls_store_in_supabase. cbn [fst snd].
  split; [|split].
  - exists (stored e d). split; [reflexivity|]. unfold stored, store_calls.
    intros [Hs Hi]%andb_true_iff. rewrite Hs.
    split; [destruct (insert_result e); (reflexivity || discriminate)|].
    eexists. split; [reflexivity|]. unfold supabase_row, dict.
    cbn [list_to_map foldr uncurry fst snd].
    rewrite !lookup_insert_ne by discriminate. rewrite !lookup_insert_eq.
    repeat split.
  - intros H. unfold stored, store_calls.
    assert (Hs : storable e d = false).
    { unfold storable. destruct H as [->|[->|[->| ->]]];
        rewrite ?andb_false_r; reflexivity. }
    rewrite Hs. reflexivity.
  - intros H. unfold stored. destruct (insert_result e); try contradiction;
      rewrite andb_false_r; reflexivity.
Qed.

Lemma store_in_supabase_never_raises_witness :
  calls (store_in_supabase env_ok session_aged_zero "session-1")
  = ([EvStoreCall "session-1"], inr false).
Proof.
  apply (store_in_supabase_never_raises env_ok session_aged_zero "session-1").
  right. right. left. reflexivity.
Defined.

(** X15. [trigger_fulfillment_notification] on any record: it returns a
    truth value and never raises; the value is false exactly when a
    webhook is configured and the POST fails; without a webhook it posts
    nothing and returns true; the payload of the POST holds name, age,
    location and assistance type of the record and its food requirement
    under the key food_request, and no session identifier. *)
Theorem notification_reports_failure (e : env) (data : gmap string pyval) :
  let r := calls (trigger_fulfillment_notification e data) in
  (exists ok : bool, r.2 = inr ok
     /\ (ok = false <-> webhook_configured e = true /\ post_ok e = false))
  /\ (webhook_configured e = false -> r = ([EvNotify data], inr true))
  /\ (webhook_configured e = true ->
      exists payload, r.1 = [EvNotify data; EvPost payload]
        /\ payload !! "session_id" = None
        /\ payload !! "food_request" = Some (dget data "food_requirement")
        /\ payload !! "food_requirement" = None
        /\ forall key, key = "person_name" \/ key = "age" \/ key = "location"
                       \/ key = "assistance_type" ->
             payload !! key = Some (dget data key)).
Proof.
  cbv zeta. rewrite calls_trigger_fulfillment_notification. cbn [fst snd].
  split; [|split].
  - eexists. split; [reflexivity|].
    destruct (webhook_configured e), (post_ok e); cbn; intuition congruence.
  - intros H. unfold notify_calls. rewrite H. reflexivity.
  - intros H. unfold notify_calls. rewrite H. eexists. split; [reflexivity|].
    unfold notification_payload, dict. cbn [list_to_map foldr uncurry fst snd].
    split; [rewrite !lookup_insert_ne by discriminate; apply lookup_empty|].
    split; [rewrite !lookup_insert_ne by discriminate; apply lookup_insert_eq|].
    split; [rewrite !lookup_insert_ne by discriminate; apply lookup_empty|].
    intros key [->|[->|[->| ->]]];
      rewrite ?lookup_insert_ne by discriminate; apply lookup_insert_eq.
Qed.

Lemma notification_reports_failure_witness :
  exists payload,
    (calls (trigger_fulfillment_notification env_ok sample_data)).1
    = [EvNotify sample_data; EvPost payload]
    /\ payload !! "session_id" = None
    /\ payload !! "food_request" = Some (dget sample_data "food_requirement")
    /\ payload !! "food_requirement" = None
    /\ forall key, key = "person_name" \/ key = "age" \/ key = "location"
                   \/ key = "assistance_type" ->
         payload !! key = Some (dget sample_data key).
Proof.
  apply (notification_reports_failure env_ok sample_data). reflexivity.
Defined.

(** ** The graph variant: router, collector and the loop between them *)

Lemma router_route state content :
  last (Graph.messages state) = Some (Graph.HumanMessage content) ->
  exists intent assistance_type,
    In (intent, assistance_type) routes
    /\ Graph.intent (Graph.router_node state) = Some intent
    /\ Graph.assistance_type (Graph.router_node state) = Some assistance_type
    /\ Graph.next_node "router" (Graph.router_node state) = Some (Some intent).
Proof.
  intros H. unfold Graph.router_node. rewrite H.
  destruct (Graph.any_in Graph.urgent_keywords _);
    [exists "immediate_food", "immediate"
    |destruct (Graph.any_in Graph.scheduled_keywords _);
      [exists "scheduled_food", "scheduled"
      |destruct (Graph.any_in Graph.ngo_keywords _);
        [exists "ngo_referral", "ngo_referral"
        |exists "immediate_food", "immediate"]]];
    cbn; auto 8.
Qed.

Lemma is_infix_chars_spec needle hay :
  Graph.is_infix_chars needle hay = true
  <-> exists before after, hay = (before ++ needle ++ after)%list.
Proof.
  induction hay as [|c hay IH]; cbn [Graph.is_infix_chars].
  - split.
    + destruct needle; [|discriminate]. exists [], []. reflexivity.
    + intros (b & a & E). destruct b; [|discriminate]. destruct needle; [reflexivity|discriminate].
  - rewrite orb_true_iff, bool_decide_eq_true, IH. split.
    + intros [E|(b & a & ->)].
      * exists [], (drop (length needle) (c :: hay)). cbn [app].
        rewrite <- (take_drop (length needle) (c :: hay)) at 1. rewrite E. reflexivity.
      * exists (c :: b), a. reflexivity.
    + intros (b & a & E). destruct b as [|c' b].
      * left. rewrite E. cbn [app]. rewrite take_app_length. reflexivity.
      * right. injection E as _ ->. eauto.
Qed.

Lemma any_in_mentions keywords content :
  Graph.any_in keywords (Py.lower content) = true <-> mentions keywords content.
Proof.
  unfold Graph.any_in, mentions, Graph.is_infix. rewrite existsb_exists. split.
  - intros (kw & Hin & (b & a & E)%is_infix_chars_spec). eauto.
  - intros (kw & b & a & Hin & E). exists kw. split; [exact Hin|].
    apply is_infix_chars_spec. eauto.
Qed.

(** X16. When the last message is the user's, [router_node] sets intent
    and assistance type to one of the three matching pairs, so that the
    conditional edge after the router finds a node, and that node calls
    [collect_user_info] with the assistance type the router stored; a
    message that holds an urgent keyword (anywhere, in any case) is
    routed to immediate_food, else one that holds a scheduling keyword
    to scheduled_food, else one that holds a referral keyword to
    ngo_referral, and a message without keyword to immediate_food; the
    messages, the four fields and the triggered flag are left as they
    were. *)
Theorem router_always_finds_a_node (state : Graph.ConversationState) (content : string) :
  last (Graph.messages state) = Some (Graph.HumanMessage content) ->
  let state' := Graph.router_node state in
  exists intent assistance_type f,
    In (intent, assistance_type) routes
    /\ Graph.intent state' = Some intent
    /\ Graph.assistance_type state' = Some assistance_type
    /\ Graph.next_node "router" state' = Some (Some intent)
    /\ Graph.assoc intent Graph.nodes = Some f
    /\ (forall e st, f e st = Graph.collect_user_info e st assistance_type)
    /\ (mentions Graph.urgent_keywords content -> intent = "immediate_food")
    /\ (~ mentions Graph.urgent_keywords content ->
        mentions Graph.scheduled_keywords content -> intent = "scheduled_food")
    /\ (~ mentions Graph.urgent_keywords content ->
        ~ mentions Graph.scheduled_keywords content ->
        mentions Graph.ngo_keywords content -> intent = "ngo_referral")
    /\ (~ mentions Graph.urgent_keywords content ->
        ~ mentions Graph.scheduled_keywords content ->
        ~ mentions Graph.ngo_keywords content -> intent = "immediate_food")
    /\ Graph.messages state' = Graph.messages state
    /\ same_fields state' state
    /\ Graph.fulfillment_triggered state' = Graph.fulfillment_triggered state.
Proof.
  intros H. cbv zeta. unfold Graph.router_node, same_fields. rewrite H.
  pose proof (any_in_mentions Graph.urgent_keywords content) as M1.
  pose proof (any_in_mentions Graph.scheduled_keywords content) as M2.
  pose proof (any_in_mentions Graph.ngo_keywords content) as M3.
  destruct (Graph.any_in Graph.urgent_keywords _);
    [exists "immediate_food", "immediate", Graph.immediate_food_node
    |destruct (Graph.any_in Graph.scheduled_keywords _);
      [exists "scheduled_food", "scheduled", Graph.scheduled_food_node
      |destruct (Graph.any_in Graph.ngo_keywords _);
        [exists "ngo_referral", "ngo_referral", Graph.ngo_referral_node
        |exists "immediate_food", "immediate", Graph.immediate_food_node]]];
    cbn [Graph.intent Graph.assistance_type Graph.messages Graph.person_name Graph.age
         Graph.location Graph.food_requirement Graph.fulfillment_triggered String.eqb
         Ascii.eqb Bool.eqb andb];
    (split; [cbn; auto 6|]); do 5 (split; [reflexivity|]);
    repeat split; intros;
    first [reflexivity | exfalso; intuition discriminate].
Qed.

Lemma router_always_finds_a_node_witness :
  let state := with_message graph_initial "I need help tomorrow" in
  Graph.intent (Graph.router_node state) = Some "scheduled_food"
  /\ Graph.assistance_type (Graph.router_node state) = Some "scheduled"
  /\ Graph.next_node "router" (Graph.router_node state) = Some (Some "scheduled_food").
Proof.
  cbv zeta.
  destruct (router_always_finds_a_node (with_message graph_initial "I need help tomorrow")
              "I need help tomorrow" eq_refl)
    as (i & a & f & _ & Hi & _ & Hn & _ & _ & _ & Hs & _).
  assert (i = "scheduled_food") as ->.
  { apply Hs.
    - intros M%any_in_mentions. vm_compute in M. discriminate M.
    - apply any_in_mentions. vm_compute. reflexivity. }
  split; [exact Hi|]. split; [reflexivity|exact Hn].
Defined.

Lemma something_missing_eq state :
  something_missing state
  = negb (name_set state && age_set state && location_set state && food_set state).
Proof. reflexivity. Qed.

Lemma collect_user_info_eq e state assistance_type :
  Graph.collect_user_info e state assistance_type =
  if something_missing state
  then
    let '(person_name, age, location, food_requirement) := read_fields state in
    let filled := Graph.with_reply state "" person_name age location food_requirement
                                   (Graph.fulfillment_triggered state) in
    (Graph.with_reply state (next_question filled) person_name age location
                      food_requirement (Graph.fulfillment_triggered state), [])
  else if Graph.fulfillment_triggered state then (state, [])
  else (Graph.with_reply state Graph.reply_confirmed (Graph.person_name state)
                         (Graph.age state) (Graph.location state)
                         (Graph.food_requirement state) true,
        (calls (Graph.trigger_fulfillment e state assistance_type)).1).
Proof.
  unfold Graph.collect_user_info, something_missing, read_fields.
  destruct (_ && _ && _ && _); cbn [negb].
  - destruct (Graph.fulfillment_triggered state); reflexivity.
  - destruct (match last (Graph.messages state) with
              | Some (Graph.HumanMessage content) => _
              | _ => _
              end) as [[[n a] l] f].
    reflexivity.
Qed.

Lemma should_continue_eq state :
  Graph.should_continue state =
  if Graph.fulfillment_triggered state || negb (something_missing state)
  then "end" else "collect_info".
Proof.
  unfold Graph.should_continue, something_missing.
  destruct (Graph.fulfillment_triggered state); [reflexivity|].
  cbn [orb]. rewrite negb_involutive. reflexivity.
Qed.

Lemma lstrip_chars_nil l : Py.lstrip_chars l = [] -> forallb Py.isspace l = true.
Proof.
  induction l as [|c l IH]; [reflexivity|]. cbn [Py.lstrip_chars forallb].
  destruct (Py.isspace c); [exact IH|discriminate].
Qed.

Lemma strip_chars_nil l : Py.strip_chars l = [] -> forallb Py.isspace l = true.
Proof.
  unfold Py.strip_chars. intros H.
  apply (f_equal (@rev ascii)) in H. rewrite rev_involutive in H. cbn [rev] in H.
  apply lstrip_chars_nil in H. rewrite forallb_forall in H.
  pose proof (lstrip_chars_first l) as Hh.
  destruct (Py.lstrip_chars l) as [|c l'] eqn:E.
  - apply lstrip_chars_nil, E.
  - rewrite (H c) in Hh; [discriminate|]. apply in_rev. rewrite rev_involutive.
    left. reflexivity.
Qed.

Lemma isalpha_not_space c : Py.isalpha_char c = true -> Py.isspace c = false.
Proof.
  destruct c as [[] [] [] [] [] [] [] []]; intros H; try reflexivity; discriminate H.
Qed.

Lemma isalpha_strip_nonempty text :
  Py.isalpha (Py.remove_spaces text) = true -> Py.nonempty (Py.strip text) = true.
Proof.
  unfold Py.isalpha, Py.remove_spaces. rewrite chars_str. intros H.
  destruct (Py.strip text) eqn:E; [|reflexivity]. exfalso.
  unfold Py.strip in E. apply (f_equal Py.chars) in E. rewrite chars_str in E.
  cbn in E. apply strip_chars_nil in E.
  destruct (List.filter _ (Py.chars text)) as [|c l] eqn:F; [discriminate|].
  assert (Hin : In c (List.filter (fun c => negb (Py.in_range 32 32 c)) (Py.chars text)))
    by (rewrite F; left; reflexivity).
  apply List.filter_In in Hin as [Hin _].
  rewrite forallb_forall in E. specialize (E c Hin).
  cbn [forallb] in H. apply andb_true_iff in H as [H _].
  rewrite (isalpha_not_space _ H) in E. discriminate.
Qed.

Lemma location_loop_nonempty ps text l :
  Graph.location_loop ps text = Some l -> Py.nonempty l = true.
Proof.
  induction ps as [|p ps IH]; cbn [Graph.location_loop]; [discriminate|].
  destruct (search true p text) as [m|]; [|exact IH].
  destruct (Nat.ltb 3 _) eqn:E; [|exact IH].
  intros [= <-]. apply Nat.ltb_lt in E.
  destruct (Graph.remove_location_prefix _); [cbn in E; lia|reflexivity].
Qed.

(** What [extract_fields] finds is kept, and what it fills in is a
    value that counts as set. *)
Lemma extract_fields_keeps text person_name age location food :
  let r := Graph.extract_fields text person_name age location food in
  (if Graph.truthy_str person_name then r.1.1.1 = person_name
   else r.1.1.1 = person_name \/ Graph.truthy_str r.1.1.1 = true)
  /\ (match age with
      | Some _ => r.1.1.2 = age
      | None => forall a, r.1.1.2 = Some a -> (1 <= a <= 120)%Z
      end)
  /\ (if Graph.truthy_str location then r.1.2 = location
      else r.1.2 = location \/ Graph.truthy_str r.1.2 = true)
  /\ (if Graph.truthy_str food then r.2 = food
      else r.2 = food \/ (r.2 = Some text /\ 10 < String.length text)).
Proof.
  cbv zeta. unfold Graph.extract_fields. cbn [fst snd].
  split; [|split; [|split]].
  - destruct (Graph.truthy_str person_name) eqn:E; cbn [negb]; [reflexivity|].
    change Graph.name_patterns with name_patterns. rewrite graph_name_loop.
    destruct (name_from_patterns name_patterns text) as [name|] eqn:En.
    + right. cbn [Graph.truthy_str]. rewrite (name_from_patterns_nonempty _ _ En).
      cbn [negb andb]. apply (name_from_patterns_nonempty _ _ En).
    + rewrite E. cbn [negb andb].
      destruct (Nat.leb _ _ && Py.isalpha _) eqn:G; [|auto].
      right. apply andb_true_iff in G as [_ G]. cbn [Graph.truthy_str].
      apply isalpha_strip_nonempty, G.
  - destruct age as [a|]; [reflexivity|].
    change Graph.age_patterns with age_patterns. rewrite graph_age_loop.
    intros a. apply age_from_patterns_range.
  - destruct (Graph.truthy_str location) eqn:E; cbn [negb]; [reflexivity|].
    destruct (Graph.location_loop _ text) as [l|] eqn:El; [|auto].
    right. apply (location_loop_nonempty _ _ _ El).
  - set (n := if negb (Graph.truthy_str person_name) then _ else _).
    set (a := match age with Some _ => _ | None => _ end).
    set (l := if negb (Graph.truthy_str location) then _ else _).
    destruct (Graph.truthy_str food) eqn:E; cbn [negb andb]; [reflexivity|].
    destruct (Graph.truthy_str n && _ && _ && Nat.ltb 10 _) eqn:G; [|auto].
    right. split; [reflexivity|].
    apply andb_true_iff in G as [_ G]. apply Nat.ltb_lt in G. exact G.
Qed.

Lemma read_fields_keeps state :
  let r := read_fields state in
  (if name_set state then r.1.1.1 = Graph.person_name state
   else r.1.1.1 = Graph.person_name state \/ Graph.truthy_str r.1.1.1 = true)
  /\ (match Graph.age state with
      | Some _ => r.1.1.2 = Graph.age state
      | None => forall a, r.1.1.2 = Some a -> (1 <= a <= 120)%Z
      end)
  /\ (if location_set state then r.1.2 = Graph.location state
      else r.1.2 = Graph.location state \/ Graph.truthy_str r.1.2 = true)
  /\ (if food_set state then r.2 = Graph.food_requirement state
      else r.2 = Graph.food_requirement state \/ Graph.truthy_str r.2 = true).
Proof.
  cbv zeta. unfold read_fields, name_set, location_set, food_set.
  destruct (last (Graph.messages state)) as [[content|content]|].
  - destruct (extract_fields_keeps (Py.strip content) (Graph.person_name state)
                (Graph.age state) (Graph.location state) (Graph.food_requirement state))
      as (H1 & H2 & H3 & H4).
    split; [exact H1|]. split; [exact H2|]. split; [exact H3|].
    destruct (Graph.truthy_str (Graph.food_requirement state)); [exact H4|].
    destruct H4 as [H4|[H4 Hl]]; [auto|]. right. rewrite H4. cbn.
    destruct (Py.strip content); [cbn in Hl; lia|reflexivity].
  - cbn [fst snd]. repeat split;
      repeat match goal with |- context [if ?b then _ else _] => destruct b end;
      try destruct (Graph.age state); auto; discriminate.
  - cbn [fst snd]. repeat split;
      repeat match goal with |- context [if ?b then _ else _] => destruct b end;
      try destruct (Graph.age state); auto; discriminate.
Qed.

(** X17. One call of [collect_user_info], on any state: a field that is
    set is not changed; a field it changes is set afterwards (an age
    from 1 to 120); the triggered flag is never reset, and a complete
    state whose fulfillment was triggered is returned unchanged with no
    outside call; outside calls are made only from a complete state
    whose fulfillment was not triggered, and set the flag; the state
    returned is the state given or has one more message, from the
    assistant; session identifier, intent and assistance type are kept. *)
Theorem a_pass_keeps_what_is_collected (e : env) (state : Graph.ConversationState)
    (assistance_type : string) :
  let r := Graph.collect_user_info e state assistance_type in
  (name_set state = true -> Graph.person_name r.1 = Graph.person_name state)
  /\ (age_set state = true -> Graph.age r.1 = Graph.age state)
  /\ (location_set state = true -> Graph.location r.1 = Graph.location state)
  /\ (food_set state = true -> Graph.food_requirement r.1 = Graph.food_requirement state)
  /\ (Graph.person_name r.1 = Graph.person_name state \/ name_set r.1 = true)
  /\ (forall a, Graph.age r.1 = Some a ->
        Graph.age state = Some a \/ (1 <= a <= 120)%Z)
  /\ (Graph.location r.1 = Graph.location state \/ location_set r.1 = true)
  /\ (Graph.food_requirement r.1 = Graph.food_requirement state \/ food_set r.1 = true)
  /\ (Graph.fulfillment_triggered state = true -> something_missing state = false ->
      r = (state, []))
  /\ (Graph.fulfillment_triggered state = true -> Graph.fulfillment_triggered r.1 = true)
  /\ (r.2 <> [] ->
      something_missing state = false /\ Graph.fulfillment_triggered state = false
      /\ Graph.fulfillment_triggered r.1 = true)
  /\ (r.1 = state
      \/ exists reply, Graph.messages r.1 = (Graph.messages state ++ [Graph.AIMessage reply])%list)
  /\ Graph.session_id r.1 = Graph.session_id state
  /\ Graph.intent r.1 = Graph.intent state
  /\ Graph.assistance_type r.1 = Graph.assistance_type state.
Proof.
  cbv zeta. rewrite collect_user_info_eq.
  destruct (something_missing state) eqn:Hm.
  - pose proof (read_fields_keeps state) as K. cbv zeta in K.
    destruct (read_fields state) as [[[n a] l] f]. cbn [fst snd] in *.
    destruct K as (K1 & K2 & K3 & K4).
    unfold name_set, age_set, location_set, food_set in *.
    cbn [Graph.with_reply Graph.person_name Graph.age Graph.location
         Graph.food_requirement Graph.fulfillment_triggered Graph.messages
         Graph.session_id Graph.intent Graph.assistance_type].
    repeat split; try (intros; congruence); eauto.
    + intros H. rewrite H in K1. exact K1.
    + intros H. apply bool_decide_eq_true in H.
      destruct (Graph.age state); [exact K2|contradiction].
    + intros H. rewrite H in K3. exact K3.
    + intros H. rewrite H in K4. exact K4.
    + destruct (Graph.truthy_str (Graph.person_name state)); [left|]; exact K1.
    + intros a' Ha. destruct (Graph.age state); [left; congruence|right; auto].
    + destruct (Graph.truthy_str (Graph.location state)); [left|]; exact K3.
    + destruct (Graph.truthy_str (Graph.food_requirement state)); [left|]; exact K4.
  - destruct (Graph.fulfillment_triggered state) eqn:Ht; cbn [fst snd].
    + repeat split; auto; try (intros; congruence).
    + cbn [Graph.with_reply Graph.person_name Graph.age Graph.location
           Graph.food_requirement Graph.fulfillment_triggered Graph.messages
           Graph.session_id Graph.intent Graph.assistance_type].
      repeat split; auto; try (intros; congruence); eauto.
Qed.

(** ** Dispatch in the graph variant *)

Lemma router_node_keeps state :
  same_fields (Graph.router_node state) state
  /\ Graph.fulfillment_triggered (Graph.router_node state)
     = Graph.fulfillment_triggered state
  /\ Graph.messages (Graph.router_node state) = Graph.messages state.
Proof.
  unfold Graph.router_node, same_fields.
  destruct (last (Graph.messages state)) as [[c|c]|]; cbn; auto 8.
Qed.

Lemma something_missing_same s1 s2 :
  same_fields s1 s2 -> something_missing s1 = something_missing s2.
Proof.
  intros (H1 & H2 & H3 & H4). unfold something_missing. rewrite H1, H2, H3, H4. reflexivity.
Qed.

Lemma routed_keeps state text :
  let state1 := Graph.router_node (with_message state text) in
  something_missing state1 = something_missing state
  /\ Graph.fulfillment_triggered state1 = Graph.fulfillment_triggered state.
Proof.
  cbv zeta. destruct (router_node_keeps (with_message state text)) as (F & T & _).
  rewrite (something_missing_same _ _ F), T. split; reflexivity.
Qed.

Lemma trigger_fulfillment_once e state assistance_type :
  let evs := (calls (Graph.trigger_fulfillment e state assistance_type)).1 in
  length (List.filter is_notify evs) = 1
  /\ length (List.filter is_insert evs) <= 1
  /\ evs <> [].
Proof.
  cbv zeta. destruct (trigger_fulfillment_calls e state assistance_type) as (row & data & ->).
  cbn [fst]. unfold notify_calls.
  destruct (supabase_configured e), (webhook_configured e); cbn; repeat split;
    (lia || discriminate).
Qed.

Lemma graph_pass_facts e state text :
  let state' := graph_pass e state text in
  let evs := graph_pass_calls e state text in
  (Graph.fulfillment_triggered state = true ->
   evs = [] /\ Graph.fulfillment_triggered state' = true)
  /\ (evs <> [] ->
      something_missing state = false /\ Graph.fulfillment_triggered state = false
      /\ Graph.fulfillment_triggered state' = true
      /\ something_missing state' = false
      /\ length (List.filter is_notify evs) = 1
      /\ length (List.filter is_insert evs) <= 1).
Proof.
  cbv zeta. unfold graph_pass, graph_pass_calls.
  destruct (routed_keeps state text) as [Hm Ht]. cbv zeta in Hm, Ht.
  set (state1 := Graph.router_node (with_message state text)) in *.
  set (a := default "immediate" (Graph.assistance_type state1)).
  rewrite collect_user_info_eq, Hm, Ht.
  destruct (something_missing state) eqn:Em.
  - destruct (read_fields state1) as [[[n ag] l] f]. cbn [fst snd Graph.with_reply
      Graph.fulfillment_triggered].
    split; [auto|]. intros H. contradiction.
  - destruct (Graph.fulfillment_triggered state) eqn:Et; cbn [fst snd].
    + split; [auto|]. intros H. contradiction.
    + split; [discriminate|]. intros _.
      destruct (trigger_fulfillment_once e state1 a) as (N1 & N2 & _).
      do 3 (split; [reflexivity|]). split; [|split; assumption].
      rewrite <- Hm. apply something_missing_same.
      unfold same_fields. cbn. auto.
Qed.

Lemma graph_run_triggered e texts : forall state,
  Graph.fulfillment_triggered state = true ->
  (graph_run e state texts).2 = []
  /\ Graph.fulfillment_triggered (graph_run e state texts).1 = true.
Proof.
  induction texts as [|text texts IH]; intros state Ht; [auto|].
  cbn [graph_run fst snd].
  destruct (proj1 (graph_pass_facts e state text) Ht) as [-> Ht'].
  destruct (IH _ Ht') as [-> ?]. auto.
Qed.

(** X18. In the graph variant, over any sequence of messages each taken
    through the router and one call of the collector, from any state: at
    most one notification and at most one insert are made; none is made
    once fulfillment was triggered; and if any is made, fulfillment is
    triggered in the end. *)
Theorem graph_dispatches_at_most_once (e : env) (state : Graph.ConversationState)
    (texts : list string) :
  let r := graph_run e state texts in
  length (List.filter is_notify r.2) <= 1
  /\ length (List.filter is_insert r.2) <= 1
  /\ (Graph.fulfillment_triggered state = true -> r.2 = [])
  /\ (r.2 <> [] -> Graph.fulfillment_triggered r.1 = true).
Proof.
  cbv zeta. revert state. induction texts as [|text texts IH]; intros state.
  - cbn. repeat split; auto; try lia.
  - cbn [graph_run fst snd].
    destruct (graph_pass_facts e state text) as [F1 F2]. cbv zeta in F1, F2.
    destruct (IH (graph_pass e state text)) as (I1 & I2 & I3 & I4).
    destruct (graph_pass_calls e state text) as [|ev evs] eqn:E.
    + cbn [app]. repeat split; auto.
      intros Ht. apply I3. apply (F1 Ht).
    + destruct (F2 ltac:(discriminate)) as (_ & Ht & Ht' & _ & N1 & N2).
      destruct (graph_run_triggered e texts _ Ht') as [-> T].
      rewrite app_nil_r. repeat split; auto; try lia. congruence.
Qed.

(** ** Running the graph *)

Lemma node_step e intent assistance_type limit state evs :
  In (intent, assistance_type) routes ->
  Graph.run_from (S limit) e intent state evs =
  let r := Graph.collect_user_info e state assistance_type in
  if Graph.fulfillment_triggered r.1 || negb (something_missing r.1)
  then Graph.Finished r.1 (evs ++ r.2)%list
  else Graph.run_from limit e intent r.1 (evs ++ r.2)%list.
Proof.
  intros [[= <- <-]|[[= <- <-]|[[= <- <-]|[]]]]; cbv zeta;
    cbn [Graph.run_from Graph.assoc Graph.nodes String.eqb Ascii.eqb Bool.eqb];
    unfold Graph.immediate_food_node, Graph.scheduled_food_node, Graph.ngo_referral_node;
    destruct (Graph.collect_user_info e state _) as [st' evs']; cbn [fst snd];
    unfold Graph.next_node;
    cbn [Graph.assoc Graph.edges Graph.conditional_edges String.eqb Ascii.eqb Bool.eqb];
    rewrite should_continue_eq;
    destruct (Graph.fulfillment_triggered st' || negb (something_missing st'));
    reflexivity.
Qed.

Lemma invoke_routed e limit state content :
  last (Graph.messages state) = Some (Graph.HumanMessage content) ->
  exists intent assistance_type,
    In (intent, assistance_type) routes
    /\ Graph.assistance_type (Graph.router_node state) = Some assistance_type
    /\ Graph.invoke (S (S limit)) e state
       = Graph.run_from limit e intent (Graph.router_node state) [].
Proof.
  intros H.
  destruct (router_route state content H)
    as (i & a & Hin & Hi & Ha & Hn).
  exists i, a. split; [exact Hin|]. split; [exact Ha|].
  unfold Graph.invoke, Graph.entry_point.
  cbn [Graph.run_from Graph.assoc Graph.nodes String.eqb Ascii.eqb Bool.eqb andb].
  assert (Hs : Graph.start_node state = state).
  { unfold Graph.start_node. rewrite H. reflexivity. }
  rewrite Hs.
  change (Graph.next_node "start" state) with (Some (Some "router")). cbv iota.
  cbn [Graph.run_from Graph.assoc Graph.nodes String.eqb Ascii.eqb Bool.eqb andb].
  rewrite Hn. reflexivity.
Qed.

Lemma next_question_fields s1 s2 :
  same_fields s1 s2 -> next_question s1 = next_question s2.
Proof.
  intros (H1 & H2 & H3 & H4). unfold next_question. rewrite H1, H2, H3, H4. reflexivity.
Qed.






Lemma with_message_last state text :
  last (Graph.messages (with_message state text)) = Some (Graph.HumanMessage text).
Proof. unfold with_message. cbn [Graph.messages]. apply last_snoc. Qed.

Lemma invoke_first_pass e n state text :
  exists intent assistance_type,
    In (intent, assistance_type) routes
    /\ Graph.invoke (3 + n) e (with_message state text)
       = (if Graph.fulfillment_triggered (graph_pass e state text)
             || negb (something_missing (graph_pass e state text))
          then Graph.Finished (graph_pass e state text) (graph_pass_calls e state text)
          else Graph.run_from n e intent (graph_pass e state text)
                 (graph_pass_calls e state text)).
Proof.
  change (3 + n) with (S (S (S n))).
  destruct (invoke_routed e (S n) _ _ (with_message_last state text))
    as (i & a & Hin & Ha & ->).
  exists i, a. split; [exact Hin|].
  rewrite (node_step e _ _ _ _ _ Hin). cbv zeta.
  unfold graph_pass, graph_pass_calls. rewrite Ha. reflexivity.
Qed.



(** X20. A run of the graph on a message after which no field is missing
    (or on a state whose fulfillment was triggered) ends after one call
    of the collector, under any limit of three steps or more; it makes
    outside calls exactly when no field was missing before the message
    and fulfillment was not triggered; so the run in which the last
    missing field is supplied dispatches nothing and leaves the
    triggered flag as it was. *)
Theorem a_complete_state_ends_the_run (e : env) (state : Graph.ConversationState)
    (text : string) (n : nat) :
  Graph.fulfillment_triggered state = true
  \/ something_missing (graph_pass e state text) = false ->
  Graph.invoke (3 + n) e (with_message state text)
  = Graph.Finished (graph_pass e state text) (graph_pass_calls e state text)
  /\ (graph_pass_calls e state text <> []
      <-> something_missing state = false /\ Graph.fulfillment_triggered state = false)
  /\ (something_missing state = true ->
      Graph.fulfillment_triggered (graph_pass e state text)
      = Graph.fulfillment_triggered state).
Proof.
  intros H.
  destruct (invoke_first_pass e n state text) as (i & a & Hin & ->).
  destruct (graph_pass_facts e state text) as [F1 F2]. cbv zeta in F1, F2.
  destruct (routed_keeps state text) as [Hm1 Ht1]. cbv zeta in Hm1, Ht1.
  split; [|split].
  - destruct H as [H|H].
    + rewrite (proj2 (F1 H)). reflexivity.
    + rewrite H, orb_true_r. reflexivity.
  - split.
    + intros Hne. destruct (F2 Hne) as (? & ? & _). auto.
    + intros [Hm Ht]. unfold graph_pass_calls.
      rewrite collect_user_info_eq, Hm1, Hm, Ht1, Ht. cbn [snd].
      apply trigger_fulfillment_once.
  - intros Hm. unfold graph_pass.
    rewrite collect_user_info_eq, Hm1, Hm.
    destruct (read_fields _) as [[[n' a'] l'] f']. cbn [fst Graph.with_reply
      Graph.fulfillment_triggered]. exact Ht1.
Qed.

Lemma a_complete_state_ends_the_run_witness :
  Graph.invoke 25 env_ok (with_message collected_state "thank you")
  = Graph.Finished (graph_pass env_ok collected_state "thank you")
                   (graph_pass_calls env_ok collected_state "thank you")
  /\ graph_pass_calls env_ok collected_state "thank you" <> [].
Proof.
  assert (H : Graph.fulfillment_triggered collected_state = true
              \/ something_missing (graph_pass env_ok collected_state "thank you") = false)
    by (right; vm_compute; reflexivity).
  destruct (a_complete_state_ends_the_run env_ok collected_state "thank you" 22 H)
    as (E & C & _).
  split; [exact E|]. apply C. split; reflexivity.
Defined.
